(** * advancedResults: the list-query middleware of flx-compass-server

    A shallow embedding of [src/middleware/advancedResults.js].

    The middleware receives a Mongoose model, an optional populate path
    and the Express request; it builds a filter from the query-string
    mapping, rewrites comparison operators on the serialised filter,
    chains projection, sort, skip and limit on a lazily built query,
    counts the collection, executes the query and stores
    [{success, count, pagination, data}] on the response.

    Modelling conventions.
    - A JavaScript string is a [string]; every character stands for the
      UTF-16 code unit of the same value, so the development covers the
      strings whose code units are below 256.
    - The numbers of the pagination step come from [parseInt] and integer
      arithmetic; they are modelled as [Z].  The runtime computes in IEEE
      doubles, which agree with [Z] while every number that arises is a
      safe integer, one of magnitude at most 2^53 - 1.  Beyond that the
      runtime rounds and the development does not follow it: a theorem
      that asserts a number the middleware computes assumes that the
      numbers are safe ([Js.safe]).
    - A query-string value, as produced by Express's query parser, is a
      string, an array or a nested object ([json]).  An object is the list
      of its own properties in enumeration order.
      The runtime enumerates array-index keys before the others; the
      development keeps the order of the list, which is the order of
      enumeration of the mapping it stands for.  Express's parser
      keeps the keys that shadow [Object.prototype], so an object may
      have an own property [toString], which is then no function, and
      [ToString] throws on such an object.
    - [req.query] lives in a heap of mutable objects, because the
      middleware copies it and deletes properties from the copy.  The
      copy is shallow; the values of the properties are kept as trees,
      since nothing in the middleware writes into them.
    - Exceptions and the effects on the request, the response and the
      database are threaded through a state-and-error monad.
    - Mongoose is a collaborator: a query is the record of the builder
      calls made on it, and a model answers [countDocuments] and the
      execution of a query with a value or a rejection. *)

From Stdlib Require Import ZArith Ascii String List Bool Lia.
From stdpp Require Import base option list gmap strings.
Import ListNotations.

Local Open Scope string_scope.
Local Open Scope bool_scope.

#[local] Arguments String.append !s1 s2 : simpl nomatch.

(** ** Strings *)

Module Str.

(** [s.startsWith(p)], returning what follows the prefix. *)
Fixpoint strip_prefix (p s : string) : option string :=
  match p with
  | "" => Some s
  | String a p' =>
      match s with
      | String b s' => if Ascii.eqb a b then strip_prefix p' s' else None
      | "" => None
      end
  end.

(** The last character of [t], or [d] when [t] is empty. *)
Fixpoint last_char (t : string) (d : option ascii) : option ascii :=
  match t with
  | "" => d
  | String c t' => last_char t' (Some c)
  end.

Definition head (s : string) : option ascii :=
  match s with
  | "" => None
  | String c _ => Some c
  end.

End Str.

(** ** The operator rewrite: [queryStr.replace(/\b(gt|gte|lt|lte|in)\b/g, ...)] *)

Module Rewrite.

Definition code (c : ascii) : N := N_of_ascii c.

(** The regular expression's [\w] class without flags: [A-Za-z0-9_]. *)
Definition is_word (c : ascii) : bool :=
  let n := code c in
  ((48 <=? n) && (n <=? 57) || (65 <=? n) && (n <=? 90)
   || (97 <=? n) && (n <=? 122) || (n =? 95))%N.

(** IsWordChar at a position that may lie outside the input. *)
Definition is_word_opt (c : option ascii) : bool :=
  match c with
  | Some c => is_word c
  | None => false
  end.

(** The assertion [\b] between the character before the position and the
    input that starts at it. *)
Definition word_boundary (prev : option ascii) (s : string) : bool :=
  xorb (is_word_opt prev) (is_word_opt (Str.head s)).

(** The alternatives of the group, in the order the pattern lists them. *)
Definition operators : list string := ["gt"; "gte"; "lt"; "lte"; "in"].

(** One alternative followed by the closing [\b]; the matcher backtracks
    into the next alternative when either fails. *)
Fixpoint match_alternatives (alts : list string) (s : string)
  : option (string * string) :=
  match alts with
  | [] => None
  | t :: alts' =>
      match Str.strip_prefix t s with
      | Some rest =>
          if word_boundary (Str.last_char t None) rest
          then Some (t, rest)
          else match_alternatives alts' s
      | None => match_alternatives alts' s
      end
  end.

(** A match of the whole pattern at the current position: the matched
    text and the input after it. *)
Definition match_operator (prev : option ascii) (s : string)
  : option (string * string) :=
  if word_boundary prev s then match_alternatives operators s else None.

(** The global replace.  At each position the pattern is tried; a match
    [m] is replaced by the callback's [`$${match}`] and scanning resumes
    after it, otherwise one character is copied.  [fuel] bounds the
    number of positions visited. *)
Fixpoint replace_from (fuel : nat) (prev : option ascii) (s : string) : string :=
  match fuel with
  | O => s
  | S fuel' =>
      match s with
      | "" => ""
      | String c s' =>
          match match_operator prev s with
          | Some (m, rest) =>
              "$" ++ m ++ replace_from fuel' (Str.last_char m prev) rest
          | None => String c (replace_from fuel' (Some c) s')
          end
      end
  end.

Definition replace_operators (s : string) : string :=
  replace_from (String.length s) None s.

(** *** The rewrite as the specification words it

    The text is cut into maximal runs of word characters and the single
    characters between them; a run that is one of the five operator
    words stands alone between two word boundaries and receives the [$]
    prefix. *)

Definition starts_with_word (s : string) : bool := is_word_opt (Str.head s).

Fixpoint segments (s : string) : list string :=
  match s with
  | "" => []
  | String c s' =>
      match segments s' with
      | w :: ws =>
          if is_word c && starts_with_word w
          then String c w :: ws
          else String c "" :: w :: ws
      | [] => [String c ""]
      end
  end.

Definition is_operator (w : string) : bool :=
  existsb (String.eqb w) operators.

Definition prefix_operator (w : string) : string :=
  if is_operator w then "$" ++ w else w.

Definition rewrite_standalone (s : string) : string :=
  String.concat "" (map prefix_operator (segments s)).

(** The text holds no operator word standing alone. *)
Definition no_standalone_operator (s : string) : bool :=
  forallb (fun w => negb (is_operator w)) (segments s).

(** The run of word characters a text starts with, and what follows it. *)
Fixpoint word_prefix (s : string) : string :=
  match s with
  | String c r => if is_word c then String c (word_prefix r) else ""
  | "" => ""
  end.

Fixpoint after_word (s : string) : string :=
  match s with
  | String c r => if is_word c then after_word r else s
  | "" => ""
  end.

Fixpoint all_word (s : string) : bool :=
  match s with
  | String c r => is_word c && all_word r
  | "" => true
  end.

Definition ends_with_word (s : string) : bool :=
  is_word_opt (Str.last_char s None).

(** A token of the alternation: word characters only, at least one. *)
Definition word_token (t : string) : Prop :=
  starts_with_word t = true /\ all_word t = true.

End Rewrite.


(** ** JSON: the values of a query mapping, [JSON.stringify] and [JSON.parse] *)

Module JSON.

(** A value found in [req.query]: Express's query parser yields strings,
    arrays and nested objects, nothing else.  An object lists its own
    properties in enumeration order. *)
#[local] Unset Elimination Schemes.
Inductive json : Type :=
  | JStr (s : string)
  | JArr (elems : list json)
  | JObj (props : list (string * json)).
#[local] Set Elimination Schemes.

(** Structural induction that reaches the values nested in arrays and
    objects. *)
Section json_ind.
Variable P : json -> Prop.
Hypothesis HStr : forall s, P (JStr s).
Hypothesis HArr : forall elems, Forall P elems -> P (JArr elems).
Hypothesis HObj :
  forall props, Forall (fun kv => P (snd kv)) props -> P (JObj props).

Fixpoint json_ind (v : json) : P v :=
  match v with
  | JStr s => HStr s
  | JArr elems =>
      HArr elems
        ((fix all (l : list json) : Forall P l :=
            match l with
            | [] => @List.Forall_nil _ _
            | x :: l' => @List.Forall_cons _ _ x l' (json_ind x) (all l')
            end) elems)
  | JObj props =>
      HObj props
        ((fix all (l : list (string * json)) : Forall (fun kv => P (snd kv)) l :=
            match l with
            | [] => @List.Forall_nil _ _
            | kv :: l' => @List.Forall_cons _ _ kv l' (json_ind (snd kv)) (all l')
            end) props)
  end.
End json_ind.

(** An object of the runtime, as the list of its own properties. *)
Abbreviation object := (list (string * json)).

(** The double quote, code unit 34. *)
Definition dquote : ascii := "034"%char.

Definition code (c : ascii) : N := N_of_ascii c.

Definition hex_digit (n : N) : ascii :=
  if (n <? 10)%N then ascii_of_N (48 + n) else ascii_of_N (87 + n).

(** QuoteJSONString, one code unit at a time. *)
Definition escape_char (c : ascii) : string :=
  let n := code c in
  if (n =? 34)%N then String "\" (String dquote "")
  else if (n =? 92)%N then "\\"
  else if (n =? 8)%N then "\b"
  else if (n =? 12)%N then "\f"
  else if (n =? 10)%N then "\n"
  else if (n =? 13)%N then "\r"
  else if (n =? 9)%N then "\t"
  else if (n <? 32)%N then
    "\u00" ++ String (hex_digit (n / 16)) (String (hex_digit (n mod 16)) "")
  else String c "".

Fixpoint escape (s : string) : string :=
  match s with
  | "" => ""
  | String c s' => escape_char c ++ escape s'
  end.

Definition quote (s : string) : string :=
  String dquote (escape s ++ String dquote "").

(** [JSON.stringify] without indentation: no white space is emitted. *)
Fixpoint stringify (v : json) : string :=
  match v with
  | JStr s => quote s
  | JArr elems => "[" ++ String.concat "," (List.map stringify elems) ++ "]"
  | JObj props =>
      "{" ++ String.concat ","
               (List.map (fun kv => quote (fst kv) ++ ":" ++ stringify (snd kv)) props)
          ++ "}"
  end.

(** *** Objects as property lists *)

Fixpoint get_prop (k : string) (o : object) : option json :=
  match o with
  | [] => None
  | (k', v) :: o' => if String.eqb k k' then Some v else get_prop k o'
  end.

(** [delete o[k]] *)
Fixpoint delete_prop (k : string) (o : object) : object :=
  match o with
  | [] => []
  | (k', v) :: o' =>
      if String.eqb k k' then delete_prop k o' else (k', v) :: delete_prop k o'
  end.

(** CreateDataProperty: a key already present keeps its place and takes
    the new value, a new key goes last. *)
Fixpoint set_prop (k : string) (v : json) (o : object) : object :=
  match o with
  | [] => [(k, v)]
  | (k', v') :: o' =>
      if String.eqb k k' then (k, v) :: o' else (k', v') :: set_prop k v o'
  end.

Definition object_of_members (members : list (string * json)) : object :=
  fold_left (fun o kv => set_prop (fst kv) (snd kv) o) members [].

(** *** [JSON.parse]

    The parser covers the part of the grammar that [stringify] emits for
    query mappings (objects, arrays and strings with every escape of the
    grammar, no insignificant white space); any other text, number and
    literal tokens included, is rejected.  [None] is the SyntaxError. *)

Definition hex_value (c : ascii) : option N :=
  let n := code c in
  if ((48 <=? n) && (n <=? 57))%N then Some (n - 48)%N
  else if ((97 <=? n) && (n <=? 102))%N then Some (n - 87)%N
  else if ((65 <=? n) && (n <=? 70))%N then Some (n - 55)%N
  else None.

(** The code unit of [\uXXXX]; units from 256 on are outside the model. *)
Definition unicode_escape (a b c d : ascii) : option ascii :=
  ha ← hex_value a; hb ← hex_value b; hc ← hex_value c; hd ← hex_value d;
  let n := (((ha * 16 + hb) * 16 + hc) * 16 + hd)%N in
  if (n <? 256)%N then Some (ascii_of_N n) else None.

Definition simple_escape (e : ascii) : option ascii :=
  let n := code e in
  if (n =? 34)%N then Some dquote
  else if (n =? 92)%N then Some "\"%char
  else if (n =? 47)%N then Some "/"%char
  else if (n =? 98)%N then Some "008"%char
  else if (n =? 102)%N then Some "012"%char
  else if (n =? 110)%N then Some "010"%char
  else if (n =? 114)%N then Some "013"%char
  else if (n =? 116)%N then Some "009"%char
  else None.

Definition cons_char (c : ascii) (r : option (string * string))
  : option (string * string) :=
  '(s, rest) ← r; Some (String c s, rest).

(** The characters of a string token after its opening quote, up to and
    including the closing quote. *)
Fixpoint parse_chars (s : string) : option (string * string) :=
  match s with
  | "" => None
  | String c r =>
      if Ascii.eqb c dquote then Some ("", r)
      else if Ascii.eqb c "\" then
        match r with
        | "" => None
        | String e r' =>
            if Ascii.eqb e "u" then
              match r' with
              | String a (String b (String x (String d r'')) ) =>
                  match unicode_escape a b x d with
                  | Some u => cons_char u (parse_chars r'')
                  | None => None
                  end
              | _ => None
              end
            else
              match simple_escape e with
              | Some u => cons_char u (parse_chars r')
              | None => None
              end
        end
      else if (code c <? 32)%N then None
      else cons_char c (parse_chars r)
  end.

(** The input after the punctuator [c], when the input starts with it. *)
Definition expect (c : ascii) (s : string) : option string :=
  match s with
  | String d r => if Ascii.eqb c d then Some r else None
  | "" => None
  end.

Fixpoint parse_value (fuel : nat) (s : string) : option (json * string) :=
  match fuel with
  | O => None
  | S n =>
      match s with
      | "" => None
      | String c r =>
          if Ascii.eqb c dquote then
            '(str, rest) ← parse_chars r; Some (JStr str, rest)
          else if Ascii.eqb c "[" then
            match expect "]" r with
            | Some rest => Some (JArr [], rest)
            | None => '(elems, rest) ← parse_elements n r; Some (JArr elems, rest)
            end
          else if Ascii.eqb c "{" then
            match expect "}" r with
            | Some rest => Some (JObj [], rest)
            | None =>
                '(members, rest) ← parse_members n r;
                Some (JObj (object_of_members members), rest)
            end
          else None
      end
  end
with parse_elements (fuel : nat) (s : string) : option (list json * string) :=
  match fuel with
  | O => None
  | S n =>
      '(v, r) ← parse_value n s;
      match expect "," r with
      | Some r' => '(elems, rest) ← parse_elements n r'; Some (v :: elems, rest)
      | None =>
          match expect "]" r with
          | Some rest => Some ([v], rest)
          | None => None
          end
      end
  end
with parse_members (fuel : nat) (s : string)
  : option (list (string * json) * string) :=
  match fuel with
  | O => None
  | S n =>
      r ← expect dquote s;
      '(k, r1) ← parse_chars r;
      r2 ← expect ":" r1;
      '(v, r3) ← parse_value n r2;
      match expect "," r3 with
      | Some r4 =>
          '(members, rest) ← parse_members n r4;
          Some ((k, v) :: members, rest)
      | None =>
          match expect "}" r3 with
          | Some rest => Some ([(k, v)], rest)
          | None => None
          end
      end
  end.

(** [JSON.parse(text)]: one value, then the end of the text. *)
Definition parse (text : string) : option json :=
  match parse_value (S (String.length text)) text with
  | Some (v, "") => Some v
  | _ => None
  end.

(** *** Measures and well-formedness *)

(** The number of values and members in [v]: the fuel its text needs. *)
Fixpoint size (v : json) : nat :=
  match v with
  | JStr _ => 1
  | JArr elems => S (list_sum (List.map (fun x => S (size x)) elems))
  | JObj props => S (list_sum (List.map (fun kv => S (size (snd kv))) props))
  end.

Fixpoint keys_unique (ks : list string) : bool :=
  match ks with
  | [] => true
  | k :: ks' => negb (existsb (String.eqb k) ks') && keys_unique ks'
  end.

(** An object of the runtime holds each property name once, at every
    depth. *)
Fixpoint well_formed (v : json) : bool :=
  match v with
  | JStr _ => true
  | JArr elems => forallb well_formed elems
  | JObj props =>
      keys_unique (List.map fst props)
      && forallb (fun kv => well_formed (snd kv)) props
  end.

(** The text of one member of an object. *)
Definition member_text (kv : string * json) : string :=
  quote (fst kv) ++ ":" ++ stringify (snd kv).

(** The sizes and the texts of element and member lists. *)
Definition elements_size (l : list json) : nat :=
  list_sum (List.map (fun x => S (size x)) l).

Definition members_size (m : list (string * json)) : nat :=
  list_sum (List.map (fun kv => S (size (snd kv))) m).

Definition elements_text (l : list json) : string :=
  String.concat "," (List.map stringify l).

Definition members_text (m : list (string * json)) : string :=
  String.concat "," (List.map member_text m).

(** *** Serialised texts in general

    [render body v] is the text of [v] in which the characters between
    the quotes of a string [s] are [body s]; [stringify] is
    [render escape], and the operator rewrite turns it into another
    rendering. *)
Fixpoint render (body : string -> string) (v : json) : string :=
  match v with
  | JStr s => String dquote (body s ++ String dquote "")
  | JArr elems => "[" ++ String.concat "," (List.map (render body) elems) ++ "]"
  | JObj props =>
      "{" ++ String.concat ","
               (List.map (fun kv => String dquote (body (fst kv) ++ String dquote "")
                                    ++ ":" ++ render body (snd kv)) props)
          ++ "}"
  end.

(** The text of one member in a rendering. *)
Definition render_member (body : string -> string) (kv : string * json)
  : string :=
  String dquote (body (fst kv) ++ String dquote "") ++ ":" ++ render body (snd kv).

(** A character that may stand for itself inside a string token. *)
Definition verbatim (c : ascii) : bool :=
  negb (Ascii.eqb c dquote) && negb (Ascii.eqb c "\") && negb (code c <? 32)%N.

(** The texts that may stand between the quotes of a string token. *)
Inductive string_body : string -> Prop :=
  | body_end : string_body ""
  | body_char (c : ascii) (t : string) :
      verbatim c = true -> string_body t -> string_body (String c t)
  | body_simple (e : ascii) (t : string) :
      simple_escape e <> None -> string_body t ->
      string_body (String "\" (String e t))
  | body_unicode (a b c d : ascii) (t : string) :
      unicode_escape a b c d <> None -> string_body t ->
      string_body
        (String "\" (String "u" (String a (String b (String c (String d t)))))).

(** A serialised value starts with a quote, a bracket or a brace. *)
Definition opens_value (c : ascii) : Prop :=
  c = dquote \/ c = "["%char \/ c = "{"%char.

End JSON.


(** ** The runtime primitives the middleware calls *)

Module Js.
Import JSON.

(** A property read: [None] is [undefined]. *)
Definition value : Type := option json.

(** ToBoolean on what a query mapping can hold: [undefined] and the
    empty string are falsy, every array and object is truthy. *)
Definition truthy (v : value) : bool :=
  match v with
  | None => false
  | Some (JStr s) => negb (String.eqb s "")
  | Some _ => true
  end.

(** A conversion returns, or it throws a TypeError. *)
Inductive completion (A : Type) : Type :=
  | Returns (x : A)
  | Throws.

Arguments Returns {A} x.
Arguments Throws {A}.

(** ToString.  An array joins the texts of its elements with commas.
    An object is converted by its [toString] and then by its [valueOf].
    On an object without an own [toString] the inherited one prints the
    class tag.  An own [toString] is a string, an array or an object and
    no function, so it is passed over; [valueOf], own or inherited,
    yields no primitive either, and the conversion throws. *)
Fixpoint to_string_json (v : json) : completion string :=
  match v with
  | JStr s => Returns s
  | JArr elems =>
      match
        (fix each (l : list json) : completion (list string) :=
           match l with
           | [] => Returns []
           | x :: l' =>
               match to_string_json x, each l' with
               | Returns s, Returns ss => Returns (s :: ss)
               | _, _ => Throws
               end
           end) elems
      with
      | Returns parts => Returns (String.concat "," parts)
      | Throws => Throws
      end
  | JObj props =>
      match get_prop "toString" props with
      | Some _ => Throws
      | None => Returns "[object Object]"
      end
  end.

Definition to_string (v : value) : completion string :=
  match v with
  | None => Returns "undefined"
  | Some j => to_string_json j
  end.

Definition code (c : ascii) : N := N_of_ascii c.

(** White space that [parseInt] strips, among the code units below 256. *)
Definition is_space (c : ascii) : bool :=
  let n := code c in
  ((9 <=? n) && (n <=? 13) || (n =? 32) || (n =? 160))%N.

Definition is_digit (c : ascii) : bool :=
  let n := code c in ((48 <=? n) && (n <=? 57))%N.

Definition digit_value (c : ascii) : Z := (Z.of_N (code c) - 48)%Z.

Fixpoint skip_spaces (s : string) : string :=
  match s with
  | String c r => if is_space c then skip_spaces r else s
  | "" => ""
  end.

(** The value of the longest prefix of decimal digits, after [acc]. *)
Fixpoint read_digits (acc : Z) (s : string) : Z :=
  match s with
  | String c r => if is_digit c then read_digits (acc * 10 + digit_value c)%Z r else acc
  | "" => acc
  end.

Definition starts_with_digit (s : string) : bool :=
  match s with
  | String c _ => is_digit c
  | "" => false
  end.

(** [parseInt(s, 10)] on a string; [None] is NaN.  The result is the
    integer the digits denote, which is what the runtime returns when
    that integer is safe. *)
Definition parse_int_string (s : string) : option Z :=
  let s1 := skip_spaces s in
  let '(negative, s2) :=
    match s1 with
    | String "-" r => (true, r)
    | String "+" r => (false, r)
    | _ => (false, s1)
    end in
  if starts_with_digit s2
  then Some (if negative : bool then Z.opp (read_digits 0 s2) else read_digits 0 s2)
  else None.

(** [parseInt(v, 10)]: the argument is converted with ToString first,
    and [parseInt] throws when the conversion does. *)
Definition parseInt (v : value) : completion (option Z) :=
  match to_string v with
  | Returns s => Returns (parse_int_string s)
  | Throws => Throws
  end.

(** [Number.MAX_SAFE_INTEGER], 2^53 - 1, and the integers on which the
    arithmetic of the runtime is exact. *)
Definition MAX_SAFE_INTEGER : Z := 9007199254740991.

Definition safe (n : Z) : Prop :=
  (- MAX_SAFE_INTEGER <= n <= MAX_SAFE_INTEGER)%Z.

(** [n || d] on a number: NaN and zero are falsy. *)
Definition or_default (n : option Z) (d : Z) : Z :=
  match n with
  | Some 0%Z => d
  | Some n => n
  | None => d
  end.

(** [s.split(sep)] for a one-character separator. *)
Fixpoint split (sep : ascii) (s : string) : list string :=
  match s with
  | "" => [""]
  | String c r =>
      if Ascii.eqb c sep then "" :: split sep r
      else match split sep r with
           | w :: ws => String c w :: ws
           | [] => [String c ""]
           end
  end.

(** [parts.join(sep)] *)
Definition join (sep : string) (parts : list string) : string :=
  String.concat sep parts.

End Js.

(** ** The Mongoose collaborator: lazily built queries and a model *)

Module Mongoose.
Import JSON.

(** What the chained builder calls have recorded on a query. *)
Record Query : Type := mkQuery {
  q_filter : json;
  q_select : option string;
  q_sort : option string;
  q_skip : option Z;
  q_limit : option Z;
  q_populate : option string
}.

Definition find (filter : json) : Query :=
  mkQuery filter None None None None None.

Definition select (fields : string) (q : Query) : Query :=
  mkQuery (q_filter q) (Some fields) (q_sort q) (q_skip q) (q_limit q) (q_populate q).

Definition sort (spec : string) (q : Query) : Query :=
  mkQuery (q_filter q) (q_select q) (Some spec) (q_skip q) (q_limit q) (q_populate q).

Definition skip (n : Z) (q : Query) : Query :=
  mkQuery (q_filter q) (q_select q) (q_sort q) (Some n) (q_limit q) (q_populate q).

Definition limit (n : Z) (q : Query) : Query :=
  mkQuery (q_filter q) (q_select q) (q_sort q) (q_skip q) (Some n) (q_populate q).

Definition populate (path : string) (q : Query) : Query :=
  mkQuery (q_filter q) (q_select q) (q_sort q) (q_skip q) (q_limit q) (Some path).

End Mongoose.

(** ** Effects: exceptions, the heap of request objects, the response *)

Module Effects.
Import JSON Mongoose.

Inductive exn : Type :=
  | SyntaxError
  | TypeError
  | DbError (reason : string).

(** Heap locations. *)
Abbreviation loc := positive.

(** The [{page, limit}] descriptor of a neighbouring page. *)
Record PageRef : Type := mkPageRef { pr_page : Z; pr_limit : Z }.

(** The [pagination] object: both properties are optional. *)
Record Pagination : Type := mkPagination {
  next : option PageRef;
  prev : option PageRef
}.

(** What the outside observes, oldest first: the database operations
    that were awaited and the hand-over to the next handler. *)
Inductive event : Type :=
  | CountDocuments (filter : option json)
  | Exec (q : Query)
  | Next.

Section WithDoc.
Context {Doc : Type}.

(** The object stored as [res.advancedResults]. *)
Record Response : Type := mkResponse {
  success : bool;
  count : nat;
  pagination : Pagination;
  data : list Doc
}.

Record world : Type := mkWorld {
  heap : gmap loc object;
  res_advancedResults : option Response;
  trace : list event
}.

(** A computation runs in a world and ends in a value or in a thrown
    exception; what it did before throwing stays done. *)
Definition M (A : Type) : Type := world -> (exn + A) * world.

#[export] Instance M_ret : MRet M := fun A x w => (inr x, w).

#[export] Instance M_bind : MBind M := fun A B f m w =>
  match m w with
  | (inr x, w') => f x w'
  | (inl e, w') => (inl e, w')
  end.

#[export] Instance M_throw : MThrow exn M := fun A e w => (inl e, w).

Definition get_heap : M (gmap loc object) := fun w => (inr (heap w), w).

Definition put_heap (h : gmap loc object) : M unit := fun w =>
  (inr tt, mkWorld h (res_advancedResults w) (trace w)).

Definition emit (e : event) : M unit := fun w =>
  (inr tt, mkWorld (heap w) (res_advancedResults w) (trace w ++ [e])).

Definition set_advancedResults (r : Response) : M unit := fun w =>
  (inr tt, mkWorld (heap w) (Some r) (trace w)).

(** [{ ...src }]: a new object with the own properties of [src]; the
    spread of [undefined] is the empty object. *)
Definition spread (src : loc) : M loc :=
  h ← get_heap;
  let fresh_loc := fresh (dom h) in
  put_heap (<[fresh_loc := default [] (h !! src)]> h);;
  mret fresh_loc.

(** [delete target[k]] *)
Definition delete_property (target : loc) (k : string) : M unit :=
  h ← get_heap;
  put_heap (alter (delete_prop k) target h).

(** The object at [l], for [JSON.stringify]. *)
Definition read_object (l : loc) : M object :=
  h ← get_heap;
  match h !! l with
  | Some o => mret o
  | None => mthrow TypeError
  end.

(** [target.k]: reading a property of [undefined] throws. *)
Definition get_property (target : loc) (k : string) : M Js.value :=
  o ← read_object target;
  mret (get_prop k o).

(** A conversion of the runtime inside the middleware. *)
Definition converted {A : Type} (c : Js.completion A) : M A :=
  match c with
  | Js.Returns x => mret x
  | Js.Throws => mthrow TypeError
  end.

(** [list.forEach(f)] *)
Fixpoint for_each {A : Type} (l : list A) (f : A -> M unit) : M unit :=
  match l with
  | [] => mret tt
  | x :: l' => f x;; for_each l' f
  end.

(** [v.split(',').join(' ')]: only a string has a [split] method. *)
Definition split_join (v : Js.value) : M string :=
  match v with
  | Some (JStr s) => mret (Js.join " " (Js.split "," s))
  | _ => mthrow TypeError
  end.

Definition json_parse (text : string) : M json :=
  match parse text with
  | Some v => mret v
  | None => mthrow SyntaxError
  end.

(** The model handed to the middleware.  Both operations are awaited and
    may reject; [countDocuments] takes an optional filter. *)
Record Model : Type := mkModel {
  countDocuments : option json -> exn + Z;
  exec : Query -> exn + list Doc
}.

Definition await {A : Type} (e : event) (r : exn + A) : M A :=
  emit e;;
  match r with
  | inr x => mret x
  | inl err => mthrow err
  end.

End WithDoc.

Arguments Response : clear implicits.
Arguments world : clear implicits.
Arguments Model : clear implicits.

End Effects.

(** ** The middleware *)

Module Middleware.
Import JSON Mongoose Effects.

Definition removeFields : list string := ["select"; "sort"; "page"; "limit"].

Section WithDoc.
Context {Doc : Type}.

Definition advancedResults (model : Model Doc) (populate : option string)
    (req_query : loc) : @M Doc unit :=
  (* const reqQuery = { ...req.query } *)
  reqQuery ← spread req_query;
  (* removeFields.forEach(param => delete reqQuery[param]) *)
  for_each removeFields (fun param => delete_property reqQuery param);;
  (* let queryStr = JSON.stringify(reqQuery) *)
  o ← read_object reqQuery;
  let queryStr := stringify (JObj o) in
  (* queryStr = queryStr.replace(/\b(gt|gte|lt|lte|in)\b/g, ...) *)
  let queryStr := Rewrite.replace_operators queryStr in
  (* query = model.find(JSON.parse(queryStr)) *)
  filter ← json_parse queryStr;
  let query := find filter in
  (* if (req.query.select) query = query.select(fields) *)
  sel ← get_property req_query "select";
  query ← (if Js.truthy sel
           then fields ← split_join sel; mret (select fields query)
           else mret query);
  (* if (req.query.sort) query = query.sort(sortBy)
     else query = query.sort('name') *)
  srt ← get_property req_query "sort";
  query ← (if Js.truthy srt
           then sortBy ← split_join srt; mret (sort sortBy query)
           else mret (sort "name" query));
  (* const page = parseInt(req.query.page, 10) || 1 *)
  pg ← get_property req_query "page";
  parsed ← converted (Js.parseInt pg);
  let page := Js.or_default parsed 1 in
  (* const limit = parseInt(req.query.limit, 10) || 1000 *)
  lm ← get_property req_query "limit";
  parsed ← converted (Js.parseInt lm);
  let limit := Js.or_default parsed 1000 in
  let startIndex := ((page - 1) * limit)%Z in
  let endIndex := (page * limit)%Z in
  (* const total = await model.countDocuments() *)
  total ← await (CountDocuments None) (countDocuments model None);
  (* query = query.skip(startIndex).limit(limit) *)
  let query := Mongoose.limit limit (skip startIndex query) in
  (* if (populate) query = query.populate(populate) *)
  let query :=
    match populate with
    | Some path =>
        if String.eqb path "" then query else Mongoose.populate path query
    | None => query
    end in
  (* const results = await query *)
  results ← await (Exec query) (exec model query);
  (* const pagination = {}; if (endIndex < total) ...; if (startIndex > 0) ... *)
  let pagination :=
    mkPagination
      (if (endIndex <? total)%Z then Some (mkPageRef (page + 1) limit) else None)
      (if (startIndex >? 0)%Z then Some (mkPageRef (page - 1) limit) else None) in
  (* res.advancedResults = { success: true, count: results.length,
                             pagination, data: results } *)
  set_advancedResults (mkResponse true (List.length results) pagination results);;
  (* next() *)
  emit Next.

(** *** The steps of the middleware as functions of the query mapping

    [advancedResults_run] below shows that a run is made of exactly
    these steps. *)

(** The copy of [req.query] once the reserved properties are deleted. *)
Definition filter_object (o : object) : object :=
  fold_left (fun acc param => delete_prop param acc) removeFields o.

(** [queryStr] after the operator rewrite. *)
Definition filter_text (o : object) : string :=
  Rewrite.replace_operators (stringify (JObj (filter_object o))).

(** The argument of [model.find]. *)
Definition build_filter (o : object) : option json := parse (filter_text o).

(** The argument of [query.select], when the branch is taken. *)
Definition projection (o : object) : exn + option string :=
  let sel := get_prop "select" o in
  if Js.truthy sel then
    match sel with
    | Some (JStr s) => inr (Some (Js.join " " (Js.split "," s)))
    | _ => inl TypeError
    end
  else inr None.

(** The argument of [query.sort]. *)
Definition ordering (o : object) : exn + string :=
  let srt := get_prop "sort" o in
  if Js.truthy srt then
    match srt with
    | Some (JStr s) => inr (Js.join " " (Js.split "," s))
    | _ => inl TypeError
    end
  else inr "name".

(** What [parseInt] makes of [page] and of [limit]: the two numbers
    before the defaults, or the TypeError of the first that cannot be
    converted. *)
Definition parsed_numbers (o : object) : exn + option Z * option Z :=
  match Js.parseInt (get_prop "page" o) with
  | Js.Throws => inl TypeError
  | Js.Returns pg =>
      match Js.parseInt (get_prop "limit" o) with
      | Js.Throws => inl TypeError
      | Js.Returns lm => inr (pg, lm)
      end
  end.

(** [page] and [limit] of a run that gets past the two [parseInt]; a
    run that does not has neither, and 1 and 1000 then stand for
    nothing. *)
Definition page_of (o : object) : Z :=
  match Js.parseInt (get_prop "page" o) with
  | Js.Returns parsed => Js.or_default parsed 1
  | Js.Throws => 1
  end.

Definition limit_of (o : object) : Z :=
  match Js.parseInt (get_prop "limit" o) with
  | Js.Returns parsed => Js.or_default parsed 1000
  | Js.Throws => 1000
  end.

Definition startIndex_of (o : object) : Z := ((page_of o - 1) * limit_of o)%Z.

Definition endIndex_of (o : object) : Z := (page_of o * limit_of o)%Z.

(** Every number of the pagination step is a safe integer: the two
    parsed numbers, [page - 1], [page + 1] and the two indices.  The
    runtime then computes each of them exactly. *)
Definition safe_numbers (o : object) : Prop :=
  Js.safe (page_of o) /\ Js.safe (limit_of o)
  /\ Js.safe (page_of o - 1) /\ Js.safe (page_of o + 1)
  /\ Js.safe (startIndex_of o) /\ Js.safe (endIndex_of o).

Definition populated (populate_path : option string) (q : Query) : Query :=
  match populate_path with
  | Some path => if String.eqb path "" then q else populate path q
  | None => q
  end.

(** The query that is awaited, from its parts. *)
Definition composed_query (populate_path : option string) (o : object)
    (filter : json) (fields : option string) (sortBy : string) : Query :=
  let q := find filter in
  let q := match fields with Some f => select f q | None => q end in
  let q := sort sortBy q in
  populated populate_path (limit (limit_of o) (skip (startIndex_of o) q)).

(** The [pagination] object for a given [total]. *)
Definition pagination_for (o : object) (total : Z) : Pagination :=
  mkPagination
    (if (endIndex_of o <? total)%Z
     then Some (mkPageRef (page_of o + 1) (limit_of o)) else None)
    (if (startIndex_of o >? 0)%Z
     then Some (mkPageRef (page_of o - 1) (limit_of o)) else None).

Definition with_trace (w : world Doc) (evs : list event) : world Doc :=
  mkWorld (heap w) (res_advancedResults w) (trace w ++ evs).

(** The world once the copy of [req.query] is stripped of the reserved
    properties. *)
Definition copied (w : world Doc) (o : object) : world Doc :=
  mkWorld (<[fresh (dom (heap w)) := filter_object o]> (heap w))
          (res_advancedResults w) (trace w).

(** What a run added to the trace, and the queries it executed. *)
Definition new_events (w w' : world Doc) : list event :=
  skipn (List.length (trace w)) (trace w').

Definition executed (w w' : world Doc) : list Query :=
  omap (fun e => match e with Exec q => Some q | _ => None end)
       (new_events w w').

(** The whole run on a request whose query mapping is [o]. *)
Definition run_on (model : Model Doc) (populate_path : option string)
    (o : object) (w : world Doc) : (exn + unit) * world Doc :=
  let w1 := copied w o in
  match build_filter o with
  | None => (inl SyntaxError, w1)
  | Some filter =>
      match projection o with
      | inl e => (inl e, w1)
      | inr fields =>
          match ordering o with
          | inl e => (inl e, w1)
          | inr sortBy =>
              match parsed_numbers o with
              | inl e => (inl e, w1)
              | inr _ =>
                  let q :=
                    composed_query populate_path o filter fields sortBy in
                  match countDocuments model None with
                  | inl e => (inl e, with_trace w1 [CountDocuments None])
                  | inr total =>
                      match exec model q with
                      | inl e =>
                          (inl e, with_trace w1 [CountDocuments None; Exec q])
                      | inr results =>
                          (inr tt,
                           mkWorld (heap w1)
                             (Some (mkResponse true (List.length results)
                                      (pagination_for o total) results))
                             (trace w ++ [CountDocuments None; Exec q; Next]))
                      end
                  end
              end
          end
      end
  end.

End WithDoc.

(** *** A collection held in memory

    A stand-in for the database, used to exhibit runs: documents are
    objects, a filter matches a document when each of its string-valued
    clauses equals the document's field, the data query skips and limits
    the matching documents and a negative skip is rejected as the
    database does. *)

Definition clause_matches (d : object) (clause : string * json) : bool :=
  match snd clause, get_prop (fst clause) d with
  | JStr s, Some (JStr s') => String.eqb s s'
  | _, _ => false
  end.

Definition matches (filter : json) (d : object) : bool :=
  match filter with
  | JObj clauses => forallb (clause_matches d) clauses
  | _ => false
  end.

Definition memory_count (docs : list object) (filter : option json) : exn + Z :=
  match filter with
  | None => inr (Z.of_nat (List.length docs))
  | Some f => inr (Z.of_nat (List.length (List.filter (matches f) docs)))
  end.

Definition memory_exec (docs : list object) (q : Query) : exn + list object :=
  let found := List.filter (matches (q_filter q)) docs in
  let skipped :=
    match q_skip q with
    | Some n => if (n <? 0)%Z then None else Some (skipn (Z.to_nat n) found)
    | None => Some found
    end in
  match skipped with
  | None => inl (DbError "skip")
  | Some l =>
      inr (match q_limit q with
           | Some n => firstn (Z.to_nat n) l
           | None => l
           end)
  end.

Definition memory_model (docs : list object) : Model object :=
  mkModel (memory_count docs) (memory_exec docs).

(** A database that cannot be reached. *)
Definition unavailable_model : Model object :=
  mkModel (fun _ => inl (DbError "down")) (fun _ => inl (DbError "down")).

(** A database that answers every operation with the same values. *)
Definition constant_model (total : Z) (results : list object) : Model object :=
  mkModel (fun _ => inr total) (fun _ => inr results).

(** A fresh exchange: [req.query] at location 1, nothing on the response. *)
Definition request_query : loc := 1%positive.

Definition incoming (o : object) : world object :=
  mkWorld {[ request_query := o ]} None [].

End Middleware.

(** ** Sample requests and a sample collection *)

Module Samples.
Import JSON.

Definition places : list object :=
  [ [("name", JStr "Aurora"); ("price", JStr "50")];
    [("name", JStr "Buttermilk"); ("price", JStr "60")];
    [("name", JStr "Cascadilla"); ("price", JStr "50")] ].

(** [?page=2&limit=1] *)
Definition second_page : object := [("page", JStr "2"); ("limit", JStr "1")].

(** [?price=60&limit=1] *)
Definition priced_sixty : object := [("price", JStr "60"); ("limit", JStr "1")].

(** [?price[gt]=50] *)
Definition price_gt_50 : object := [("price", JObj [("gt", JStr "50")])].

(** [?q=made in italy] *)
Definition made_in_italy : object := [("q", JStr "made in italy")].

(** [?name=Aurora&tags[]=lake&tags[]=trail] *)
Definition plain_equality : object :=
  [("name", JStr "Aurora"); ("tags", JArr [JStr "lake"; JStr "trail"])].

(** [?name=Aurora&select=name,price&sort=-price,name&page=3&limit=20] *)
Definition full_request : object :=
  [("name", JStr "Aurora"); ("select", JStr "name,price");
   ("sort", JStr "-price,name"); ("page", JStr "3"); ("limit", JStr "20")].

(** [?name=Aurora] *)
Definition bare_request : object := [("name", JStr "Aurora")].

(** [?page=abc&limit=xyz] *)
Definition non_numeric : object := [("page", JStr "abc"); ("limit", JStr "xyz")].

(** [?page=-3&limit=10] *)
Definition negative_page : object := [("page", JStr "-3"); ("limit", JStr "10")].


(** [?page=0&limit=0] *)
Definition zero_page : object := [("page", JStr "0"); ("limit", JStr "0")].

(** [?select=name&select=price]: the parser yields an array. *)
Definition repeated_select : object :=
  [("select", JArr [JStr "name"; JStr "price"])].

End Samples.

(** ** Further definitions: texts and values of the query mapping *)

Module Text.

(** The text with every [a] replaced by [b]. *)
Fixpoint replace_char (a b : ascii) (s : string) : string :=
  match s with
  | "" => ""
  | String c r => String (if Ascii.eqb c a then b else c) (replace_char a b r)
  end.

Fixpoint occurs (a : ascii) (s : string) : bool :=
  match s with
  | "" => false
  | String c r => Ascii.eqb c a || occurs a r
  end.

End Text.

(** ** Further definitions: undoing the operator rewrite *)

Module Undo.
Import Rewrite.

(** The segments of a text after the rewrite: a [$] before each operator
    word. *)
Definition expand (ws : list string) : list string :=
  flat_map (fun w => if is_operator w then ["$"; w] else [w]) ws.

(** Drops the [$] in front of each operator word. *)
Fixpoint drop_dollars (ws : list string) : list string :=
  match ws with
  | [] => []
  | x :: rest =>
      match rest with
      | w :: rest' =>
          if String.eqb x "$" && is_operator w
          then w :: drop_dollars rest'
          else x :: drop_dollars rest
      | [] => [x]
      end
  end.

Definition undo_operators (t : string) : string :=
  String.concat "" (drop_dollars (segments t)).

(** The number of operator words that stand alone in a text. *)
Definition standalone_operators (s : string) : nat :=
  List.length (List.filter is_operator (segments s)).

(** A list of segments as [segments] yields them: single characters
    that are no word characters, and runs of word characters that no
    word character follows. *)
Fixpoint canonical (ws : list string) : bool :=
  match ws with
  | [] => true
  | w :: rest =>
      match w with
      | "" => false
      | String c r =>
          (if is_word c
           then all_word r && negb (starts_with_word (String.concat "" rest))
           else String.eqb r "")
          && canonical rest
      end
  end.

End Undo.

Module QueryValue.
Import JSON.

(** A [select] or [sort] the middleware can use: [undefined] or a
    string, the values on which [split] is defined or not called. *)
Definition usable (v : Js.value) : bool :=
  match v with
  | None => true
  | Some (JStr _) => true
  | Some _ => false
  end.

(** A [page] or a [limit] that [parseInt] can convert to a string. *)
Definition convertible (v : Js.value) : bool :=
  match Js.to_string v with
  | Js.Returns _ => true
  | Js.Throws => false
  end.

End QueryValue.

(** ** The specification's word "numeric"

    The specification gives the defaults to a [page] or [limit] that is
    absent or non-numeric.  [numeric] reads the word on a text: a
    decimal numeral, its sign and its fraction optional, and nothing
    else. *)

Module Wording.

Fixpoint after_digits (s : string) : string :=
  match s with
  | String c r => if Js.is_digit c then after_digits r else s
  | "" => ""
  end.

Definition unsigned (s : string) : string :=
  match s with
  | String "-" r => r
  | String "+" r => r
  | _ => s
  end.

Definition numeric (s : string) : bool :=
  let digits := unsigned s in
  Js.starts_with_digit digits
  && match after_digits digits with
     | "" => true
     | String "." fraction =>
         Js.starts_with_digit fraction
         && String.eqb (after_digits fraction) ""
     | _ => false
     end.

End Wording.

Module MoreSamples.
Import JSON.

(** [?page=12abc&limit=7 items] *)
Definition leading_integers : object :=
  [("page", JStr "12abc"); ("limit", JStr "7 items")].

(** [?page[toString]=1] *)
Definition own_toString : object :=
  [("page", JObj [("toString", JStr "1")])].

(** [?select=&sort=] *)
Definition empty_select_and_sort : object :=
  [("select", JStr ""); ("sort", JStr "")].

(** [?sort[by]=name]: the parser yields an object. *)
Definition nested_sort : object := [("sort", JObj [("by", JStr "name")])].

(** [?page=2&limit=-5] *)
Definition negative_limit : object := [("page", JStr "2"); ("limit", JStr "-5")].

End MoreSamples.

(** ** The controllers

    [src/controllers/attractions.js], [src/controllers/products.js] and
    the later text of the products controller in [src/unnamed/part_000].
    Each handler is the function handed to [asyncHandler]; the wrapper,
    the [ErrorResponse] class and the two Mongoose models are declared
    outside these files.  A handler ends in a value or in the rejection
    that the wrapper receives.  An [ErrorResponse] is the message and the
    status code it is constructed with.  A model answers each operation
    with a value or a rejection, and every operation that is issued is
    logged with its arguments.

    Route parameters are strings.  Object ids are the strings [toString]
    gives, so [req.user.id] and [req.user._id.toString()] are one text.
    A document that was found has its [user], [likes] and [bookmarks];
    its [photos] may be missing.  [req.body] is an object of strings,
    arrays and objects.  What [console.log] prints is not recorded. *)

From Stdlib Require DecimalString.

Module Controllers.
Import JSON Effects.

(** [req.user] *)
Record User : Type := mkUser { user_id : string; role : string }.

(** The fields of an attraction document that the handlers read. *)
Record Attraction : Type := mkAttraction {
  _id : string;
  user : string;
  likes : list string;
  bookmarks : list string;
  viewCount : Z;
  photos : option (list string)
}.

(** The fields of a product document that the handlers read. *)
Record Product : Type := mkProduct { product_id : string; product_user : string }.

(** [new ErrorResponse(message, statusCode)]; the status code is
    [undefined] when the constructor receives one argument. *)
Record ErrorResponse : Type := mkErrorResponse {
  message : string;
  statusCode : option Z
}.

(** The second argument of [findByIdAndUpdate]. *)
Inductive update : Type :=
  | SetViewCount (n : Z)
  | SetLikes (l : list string)
  | SetBookmarks (l : list string)
  | SetPhotos (l : list string)
  | SetFields (body : object).

(** The third argument of [findByIdAndUpdate], when there is one. *)
Record UpdateOptions : Type := mkOptions { new : bool; runValidators : bool }.

Inductive collection : Type := Attractions | Products.

(** What [res.json] is given as [data]. *)
Inductive payload : Type :=
  | OneAttraction (a : option Attraction)
  | OneProduct (p : option Product)
  | ManyProducts (l : list Product)
  | Ids (l : list string)
  | FileName (s : string)
  | EmptyObject
  | EmptyArray.

(** A Mongoose model over documents of type [D]; [remove] is the
    method of a document, given the id of the document. *)
Record DocModel (D : Type) : Type := mkDocModel {
  find : object -> exn + list D;
  findOne : object -> exn + option D;
  findById : string -> exn + option D;
  findByIdAndUpdate :
    string -> update -> option UpdateOptions -> exn + option D;
  create : object -> exn + D;
  remove : string -> exn + unit
}.

Arguments find {D}.
Arguments findOne {D}.
Arguments findById {D}.
Arguments findByIdAndUpdate {D}.
Arguments create {D}.
Arguments remove {D}.

(** One uploaded file, as [express-fileupload] presents it. *)
Record File : Type := mkFile {
  file_mimetype : string;
  file_size : Z;
  file_name : string
}.

(** What the upload handler takes from its surroundings: the two
    settings of [process.env], each as the text a template prints and
    the limit also as the number a comparison sees ([None] is NaN);
    [path.parse(..).ext]; and [file.mv], which reports an error or
    none. *)
Record Host : Type := mkHost {
  MAX_FILE_UPLOAD_text : string;
  MAX_FILE_UPLOAD : option Z;
  FILE_UPLOAD_PATH : string;
  path_ext : string -> string;
  mv : string -> option string
}.

(** [size > process.env.MAX_FILE_UPLOAD] *)
Definition exceeds (size : Z) (limit : option Z) : bool :=
  match limit with
  | Some n => (n <? size)%Z
  | None => false
  end.

(** [photos.length === 1 && photos[0] === 'no-photo.jpg' ? [] : photos] *)
Definition kept (photos : list string) : list string :=
  if (List.length photos =? 1)%nat
     && match photos with
        | p :: _ => String.eqb p "no-photo.jpg"
        | [] => false
        end
  then [] else photos.

(** ToString of a length. *)
Definition decimal (n : nat) : string :=
  DecimalString.NilEmpty.string_of_uint (Nat.to_uint n).

Section WithDoc.
Context {Doc : Type}.

(** The argument of [res.status(..).json(..)]. *)
Inductive Body : Type :=
  | Advanced (r : option (@Response Doc))
  | Json (ok : bool) (total : option nat) (d : payload).

(** What a handler does that the outside observes, oldest first. *)
Inductive call : Type :=
  | Find (c : collection) (filter : object)
  | FindPopulated (c : collection) (filter : object) (path fields : string)
  | FindOne (c : collection) (filter : object)
  | FindById (c : collection) (id : string)
  | FindByIdPopulated (c : collection) (id path fields : string)
  | FindByIdAndUpdate (c : collection) (id : string) (u : update)
      (opts : option UpdateOptions)
  | Create (c : collection) (body : object)
  | Remove (c : collection) (id : string)
  | Move (target : string)
  | NextError (e : ErrorResponse)
  | NextRaw (e : exn)
  | Send (status : Z) (body : Body).

(** [req.body], which a handler may assign to, and the log. *)
Record exchange : Type := mkExchange {
  req_body : object;
  calls : list call
}.

Definition H (A : Type) : Type := exchange -> (exn + A) * exchange.

#[export] Instance H_ret : MRet H := fun A x st => (inr x, st).

#[export] Instance H_bind : MBind H := fun A B f m st =>
  match m st with
  | (inr x, st') => f x st'
  | (inl e, st') => (inl e, st')
  end.

#[export] Instance H_throw : MThrow exn H := fun A e st => (inl e, st).

Definition log (c : call) : H unit := fun st =>
  (inr tt, mkExchange (req_body st) (calls st ++ [c])).

Definition get_body : H object := fun st => (inr (req_body st), st).

(** [req.body[k] = v] *)
Definition assign_body (k : string) (v : json) : H unit := fun st =>
  (inr tt, mkExchange (set_prop k v (req_body st)) (calls st)).

(** An awaited operation: logged, then its value or its rejection. *)
Definition awaited {A : Type} (c : call) (r : exn + A) : H A :=
  log c;;
  match r with
  | inr x => mret x
  | inl e => mthrow e
  end.

(** [${v}] in a template: ToString, which throws on an object with an
    own [toString]. *)
Definition templated (v : Js.value) : H string :=
  match Js.to_string v with
  | Js.Returns text => mret text
  | Js.Throws => mthrow TypeError
  end.

(** [next(new ErrorResponse(message, statusCode))] *)
Definition next_error (msg : string) (status : option Z) : H unit :=
  log (NextError (mkErrorResponse msg status)).

(** [res.status(status).json(body)] *)
Definition send (status : Z) (body : Body) : H unit := log (Send status body).

(** [try { body } catch (error) { next(error) }] *)
Definition try_next (body : H unit) : H unit := fun st =>
  match body st with
  | (inl e, st') => log (NextRaw e) st'
  | r => r
  end.

(** A promise that nobody awaits: what it does is done, its rejection
    is dropped. *)
Definition detached (body : H unit) : H unit := fun st =>
  (inr tt, snd (body st)).

(** [owner.toString() !== req.user.id && req.user.role !== 'admin'] *)
Definition not_permitted (owner : string) (u : User) : bool :=
  negb (String.eqb owner (user_id u)) && negb (String.eqb (role u) "admin").

(** [ids.filter(x => x.toString() === req.user._id.toString()).length > 0] *)
Definition already_listed (ids : list string) (u : User) : bool :=
  (0 <? List.length (List.filter (fun x => String.eqb x (user_id u)) ids))%nat.

(** [ids.find(x => x.toString() === req.user._id.toString()) === undefined] *)
Definition not_listed (ids : list string) (u : User) : bool :=
  match List.find (fun x => String.eqb x (user_id u)) ids with
  | None => true
  | Some _ => false
  end.

(** [ids.filter(x => x.toString() !== req.user._id.toString())] *)
Definition without (ids : list string) (u : User) : list string :=
  List.filter (fun x => negb (String.eqb x (user_id u))) ids.

(** [d] as a condition: a document, not [null]. *)
Definition found {D : Type} (d : option D) : bool :=
  match d with
  | Some _ => true
  | None => false
  end.

(** What a run added to the log. *)
Definition new_calls (st st' : exchange) : list call :=
  skipn (List.length (calls st)) (calls st').

(** The calls that answer the request: a response or a hand-over to the
    error handler. *)
Definition is_reply (c : call) : bool :=
  match c with
  | NextError _ | NextRaw _ | Send _ _ => true
  | _ => false
  end.

(** The calls that change a collection; [Move] changes the file system. *)
Definition is_write (c : call) : bool :=
  match c with
  | FindByIdAndUpdate _ _ _ _ | Create _ _ | Remove _ _ => true
  | _ => false
  end.

End WithDoc.

Arguments Body : clear implicits.
Arguments call : clear implicits.
Arguments exchange : clear implicits.
Arguments H : clear implicits.

(** A collection that holds one attraction and answers every operation:
    an update returns the document after the change when [new] asks
    for it, and before the change otherwise. *)
Definition updated (u : update) (a : Attraction) : Attraction :=
  match u with
  | SetViewCount n =>
      mkAttraction (_id a) (user a) (likes a) (bookmarks a) n (photos a)
  | SetLikes l =>
      mkAttraction (_id a) (user a) l (bookmarks a) (viewCount a) (photos a)
  | SetBookmarks l =>
      mkAttraction (_id a) (user a) (likes a) l (viewCount a) (photos a)
  | SetPhotos l =>
      mkAttraction (_id a) (user a) (likes a) (bookmarks a) (viewCount a) (Some l)
  | SetFields _ => a
  end.

Definition holding (a : Attraction) : DocModel Attraction :=
  mkDocModel Attraction
    (fun _ => inr [a])
    (fun filter =>
       inr (match get_prop "user" filter with
            | Some (JStr id) => if String.eqb id (user a) then Some a else None
            | _ => None
            end))
    (fun id => inr (if String.eqb id (_id a) then Some a else None))
    (fun id u opts =>
       inr (if String.eqb id (_id a)
            then Some (match opts with
                       | Some (mkOptions true _) => updated u a
                       | _ => a
                       end)
            else None))
    (fun _ => inr a)
    (fun _ => inr tt).

(** The same collection when it refuses every update. *)
Definition read_only (a : Attraction) : DocModel Attraction :=
  mkDocModel Attraction
    (find (holding a)) (findOne (holding a)) (findById (holding a))
    (fun _ _ _ => inl (DbError "read only"))
    (create (holding a)) (remove (holding a)).

(** A collection that holds one product. *)
Definition stocking (p : Product) : DocModel Product :=
  mkDocModel Product
    (fun _ => inr [p])
    (fun _ => inr (Some p))
    (fun id => inr (if String.eqb id (product_id p) then Some p else None))
    (fun id _ _ => inr (if String.eqb id (product_id p) then Some p else None))
    (fun _ => inr p)
    (fun _ => inr tt).

(** A collection whose every operation is rejected. *)
Definition unreachable (D : Type) : DocModel D :=
  mkDocModel D
    (fun _ => inl (DbError "unreachable"))
    (fun _ => inl (DbError "unreachable"))
    (fun _ => inl (DbError "unreachable"))
    (fun _ _ _ => inl (DbError "unreachable"))
    (fun _ => inl (DbError "unreachable"))
    (fun _ => inl (DbError "unreachable")).

(** A collection that holds one product and rejects its removal. *)
Definition unreachable_removal (p : Product) : DocModel Product :=
  mkDocModel Product
    (find (stocking p)) (findOne (stocking p)) (findById (stocking p))
    (findByIdAndUpdate (stocking p)) (create (stocking p))
    (fun _ => inl (DbError "unreachable")).

End Controllers.

(** *** [src/controllers/attractions.js] *)

Module Attractions.
Import JSON Effects Controllers.

Definition not_found (id : string) : string :=
  "Attraction not found with ID of " ++ id.

Section WithDoc.
Context {Doc : Type}.

(** [res.status(200).json(res.advancedResults)] *)
Definition getAttractions (advancedResults : option (@Response Doc)) : H Doc unit :=
  send 200 (Advanced advancedResults).

Definition getAttraction (Attraction_ : DocModel Attraction) (id : string)
  : H Doc unit :=
  try_next (
    attraction ← awaited (FindById Attractions id) (findById Attraction_ id);
    match attraction with
    | None => next_error (not_found id) (Some 404%Z)
    | Some a =>
        (* increase view count *)
        let u := SetViewCount (viewCount a + 1) in
        let opts := Some (mkOptions false true) in
        attraction ← awaited (FindByIdAndUpdate Attractions id u opts)
                       (findByIdAndUpdate Attraction_ id u opts);
        send 200 (Json true None (OneAttraction attraction))
    end).

Definition createAttraction (Attraction_ : DocModel Attraction) (u : User)
  : H Doc unit :=
  (* Add user to req.body *)
  assign_body "user" (JStr (user_id u));;
  (* Check for published Attraction *)
  let filter := [("user", JStr (user_id u))] in
  publishedAttraction ← awaited (FindOne Attractions filter)
                          (findOne Attraction_ filter);
  (* if user is not admin, can only create one Attraction *)
  if found publishedAttraction
     && negb (String.eqb (role u) "admin")
  then next_error ("The user with ID " ++ user_id u
                   ++ " has already published one Attraction")
         (Some 400%Z)
  else
    body ← get_body;
    attraction ← awaited (Create Attractions body) (create Attraction_ body);
    send 201 (Json true None (OneAttraction (Some attraction))).

Definition updateAttraction (Attraction_ : DocModel Attraction) (id : string)
    (u : User) : H Doc unit :=
  attraction ← awaited (FindById Attractions id) (findById Attraction_ id);
  match attraction with
  | None => next_error (not_found id) (Some 404%Z)
  | Some a =>
      (* Make sure user has proper permissions *)
      if not_permitted (user a) u
      then next_error ("User " ++ user_id u
                       ++ " is not authorized to update this attraction")
             (Some 404%Z)
      else
        body ← get_body;
        let opts := Some (mkOptions true true) in
        attraction ← awaited (FindByIdAndUpdate Attractions id (SetFields body) opts)
                       (findByIdAndUpdate Attraction_ id (SetFields body) opts);
        send 200 (Json true None (OneAttraction attraction))
  end.

Definition deleteAttraction (Attraction_ : DocModel Attraction) (id : string)
    (u : User) : H Doc unit :=
  attraction ← awaited (FindById Attractions id) (findById Attraction_ id);
  match attraction with
  | None => next_error (not_found id) (Some 404%Z)
  | Some a =>
      if not_permitted (user a) u
      then next_error ("User " ++ user_id u
                       ++ " is not authorized to update this attraction")
             (Some 404%Z)
      else
        (* attraction.remove() without await: the promise is dropped *)
        log (Remove Attractions (_id a));;
        send 200 (Json true None EmptyObject)
  end.

Definition likeAttraction (Attraction_ : DocModel Attraction) (id : string)
    (u : User) : H Doc unit :=
  attraction ← awaited (FindById Attractions id) (findById Attraction_ id);
  match attraction with
  | None => next_error (not_found id) (Some 404%Z)
  | Some a =>
      (* Check if the post has already been liked *)
      if already_listed (likes a) u
      then next_error "Attraction already liked" (Some 404%Z)
      else
        let upd := SetLikes (likes a ++ [user_id u]) in
        let opts := Some (mkOptions true true) in
        attraction ← awaited (FindByIdAndUpdate Attractions id upd opts)
                       (findByIdAndUpdate Attraction_ id upd opts);
        match attraction with
        | Some a' => send 200 (Json true None (Ids (likes a')))
        | None => mthrow TypeError
        end
  end.

Definition bookmarkAttraction (Attraction_ : DocModel Attraction) (id : string)
    (u : User) : H Doc unit :=
  attraction ← awaited (FindById Attractions id) (findById Attraction_ id);
  match attraction with
  | None => next_error (not_found id) (Some 404%Z)
  | Some a =>
      (* Check if the post has already been bookmarked *)
      if already_listed (bookmarks a) u
      then next_error "Attraction already bookmarked" (Some 404%Z)
      else
        let upd := SetBookmarks (bookmarks a ++ [user_id u]) in
        let opts := Some (mkOptions true true) in
        attraction ← awaited (FindByIdAndUpdate Attractions id upd opts)
                       (findByIdAndUpdate Attraction_ id upd opts);
        match attraction with
        | Some a' => send 200 (Json true None (Ids (bookmarks a')))
        | None => mthrow TypeError
        end
  end.

Definition unLikeAttraction (Attraction_ : DocModel Attraction) (id : string)
    (u : User) : H Doc unit :=
  attraction ← awaited (FindById Attractions id) (findById Attraction_ id);
  match attraction with
  | None => next_error (not_found id) (Some 404%Z)
  | Some a =>
      (* Check if the post has been liked *)
      if not_listed (likes a) u
      then next_error "Attraction not liked" (Some 404%Z)
      else
        let upd := SetLikes (without (likes a) u) in
        let opts := Some (mkOptions true true) in
        attraction ← awaited (FindByIdAndUpdate Attractions id upd opts)
                       (findByIdAndUpdate Attraction_ id upd opts);
        match attraction with
        | Some a' => send 200 (Json true None (Ids (likes a')))
        | None => mthrow TypeError
        end
  end.

Definition unBookmarkAttraction (Attraction_ : DocModel Attraction)
    (id : string) (u : User) : H Doc unit :=
  attraction ← awaited (FindById Attractions id) (findById Attraction_ id);
  match attraction with
  | None => next_error (not_found id) (Some 404%Z)
  | Some a =>
      (* Check if the post has been bookmarked *)
      if not_listed (bookmarks a) u
      then next_error "Attraction not bookmarked" (Some 404%Z)
      else
        let upd := SetBookmarks (without (bookmarks a) u) in
        let opts := Some (mkOptions true true) in
        attraction ← awaited (FindByIdAndUpdate Attractions id upd opts)
                       (findByIdAndUpdate Attraction_ id upd opts);
        match attraction with
        | Some a' => send 200 (Json true None (Ids (bookmarks a')))
        | None => mthrow TypeError
        end
  end.

(** [req.files] is [None] when nothing was uploaded, and holds [None]
    when its [file] is not one uploaded file. *)
Definition attractionPhotoUpload (Attraction_ : DocModel Attraction)
    (host : Host) (id : string) (u : User) (files : option (option File))
  : H Doc unit :=
  attraction ← awaited (FindById Attractions id) (findById Attraction_ id);
  match attraction with
  | None => next_error (not_found id) (Some 404%Z)
  | Some a =>
      (* Make sure user has proper permissions *)
      if not_permitted (user a) u
      then next_error ("User " ++ user_id u
                       ++ " is not authorized to add a photo to this attraction")
             (Some 404%Z)
      else
        match files with
        | None => next_error "Please upload a file" (Some 400%Z)
        | Some None => mthrow TypeError
        | Some (Some file) =>
            (* Image validation *)
            if negb (String.prefix "image" (file_mimetype file))
            then next_error "Please upload an image file." (Some 400%Z)
            (* Check file size *)
            else if exceeds (file_size file) (MAX_FILE_UPLOAD host)
            then next_error ("Please upload an image file size less than "
                             ++ MAX_FILE_UPLOAD_text host ++ ".")
                   (Some 400%Z)
            else
              match photos a with
              | None =>
                  (* console.log(.., photos[0]) on a missing array *)
                  mthrow TypeError
              | Some stored =>
                  let photos := kept stored in
                  (* Create custom filename *)
                  let name := "photo_" ++ _id a ++ "_"
                              ++ decimal (List.length photos + 1)
                              ++ path_ext host (file_name file) in
                  (* Move to uploads folder *)
                  let target := FILE_UPLOAD_PATH host ++ "/" ++ name in
                  log (Move target);;
                  detached
                    match mv host target with
                    | Some _ =>
                        next_error "Problem with file upload" (Some 500%Z)
                    | None =>
                        let upd := SetPhotos (photos ++ [name]) in
                        awaited (FindByIdAndUpdate Attractions id upd None)
                          (findByIdAndUpdate Attraction_ id upd None);;
                        send 200 (Json true None (FileName name))
                    end
              end
        end
  end.

End WithDoc.

End Attractions.

(** *** [src/controllers/products.js] *)

Module Products.
Import JSON Effects Controllers.

Section WithDoc.
Context {Doc : Type}.

(** [req.params.attractionId] is [None] on the route without it. *)
Definition getProducts (Product_ : DocModel Product)
    (attractionId : option string) : H Doc unit :=
  products ←
    (if Js.truthy (option_map JStr attractionId) then
       let filter := [("attraction", JStr (default "" attractionId))] in
       awaited (Find Products filter) (find Product_ filter)
     else
       awaited (FindPopulated Products [] "attraction" "name slug")
         (find Product_ []));
  send 200 (Json true (Some (List.length products)) (ManyProducts products)).

Definition getProduct (Product_ : DocModel Product) (id : string) : H Doc unit :=
  product ← awaited (FindByIdPopulated Products id "attraction" "name slug")
              (findById Product_ id);
  match product with
  | None =>
      (* next(new ErrorResponse(message), 404): the status goes to next *)
      next_error ("No course with an ID of " ++ id) None
  | Some p => send 200 (Json true None (OneProduct (Some p)))
  end.

Definition addProduct (Attraction_ : DocModel Attraction)
    (Product_ : DocModel Product) (attractionId : string) : H Doc unit :=
  (* req.body.attraction = req.params.attractionId *)
  assign_body "attraction" (JStr attractionId);;
  attraction ← awaited (FindById Attractions attractionId)
                 (findById Attraction_ attractionId);
  body ← get_body;
  match attraction with
  | None =>
      text ← templated (get_prop "attractionId" body);
      next_error ("No attraction with an ID of " ++ text) (Some 488%Z)
  | Some _ =>
      product ← awaited (Create Products body) (create Product_ body);
      send 200 (Json true None (OneProduct (Some product)))
  end.

End WithDoc.

End Products.

(** *** [src/unnamed/part_000]: the products controller with the
    permission checks *)

Module ProductsGuarded.
Import JSON Effects Controllers.

Section WithDoc.
Context {Doc : Type}.

Definition getProducts (Product_ : DocModel Product)
    (attractionId : option string) (advancedResults : option (@Response Doc))
  : H Doc unit :=
  if Js.truthy (option_map JStr attractionId) then
    let filter := [("attraction", JStr (default "" attractionId))] in
    products ← awaited (Find Products filter) (find Product_ filter);
    send 200 (Json true (Some (List.length products)) (ManyProducts products))
  else send 200 (Advanced advancedResults).

Definition getProduct (Product_ : DocModel Product) (id : string) : H Doc unit :=
  product ← awaited (FindByIdPopulated Products id "attraction" "name slug")
              (findById Product_ id);
  match product with
  | None => next_error ("No course with an ID of " ++ id) None
  | Some p => send 200 (Json true None (OneProduct (Some p)))
  end.

Definition addProduct (Attraction_ : DocModel Attraction)
    (Product_ : DocModel Product) (attractionId : string) (u : User)
  : H Doc unit :=
  (* req.body.attraction = req.params.attractionId *)
  assign_body "attraction" (JStr attractionId);;
  (* req.body.user = req.user.id *)
  assign_body "user" (JStr (user_id u));;
  attraction ← awaited (FindById Attractions attractionId)
                 (findById Attraction_ attractionId);
  body ← get_body;
  match attraction with
  | None =>
      (* Does Attraction exist? *)
      text ← templated (get_prop "attractionId" body);
      next_error ("No attraction with an ID of " ++ text) (Some 404%Z)
  | Some a =>
      (* Make sure user has proper permissions to Create Product *)
      if not_permitted (user a) u
      then next_error ("User " ++ user_id u
                       ++ " is not authorized to add product to attraction "
                       ++ _id a)
             (Some 404%Z)
      else
        product ← awaited (Create Products body) (create Product_ body);
        send 200 (Json true None (OneProduct (Some product)))
  end.

Definition updateProduct (Product_ : DocModel Product) (id : string)
    (u : User) : H Doc unit :=
  product ← awaited (FindById Products id) (findById Product_ id);
  body ← get_body;
  match product with
  | None =>
      text ← templated (get_prop "id" body);
      next_error ("No product with an ID of " ++ text) (Some 400%Z)
  | Some p =>
      if not_permitted (product_user p) u
      then next_error ("User " ++ user_id u
                       ++ " is not authorized to update product "
                       ++ product_id p)
             (Some 404%Z)
      else
        let opts := Some (mkOptions true true) in
        product ← awaited (FindByIdAndUpdate Products id (SetFields body) opts)
                    (findByIdAndUpdate Product_ id (SetFields body) opts);
        send 200 (Json true None (OneProduct product))
  end.

Definition deleteProduct (Product_ : DocModel Product) (id : string)
    (u : User) : H Doc unit :=
  product ← awaited (FindById Products id) (findById Product_ id);
  body ← get_body;
  match product with
  | None =>
      text ← templated (get_prop "id" body);
      next_error ("No product with an ID of " ++ text) (Some 404%Z)
  | Some p =>
      if not_permitted (product_user p) u
      then next_error ("User " ++ user_id u
                       ++ " is not authorized to delete product "
                       ++ product_id p)
             (Some 404%Z)
      else
        (* await product.remove() *)
        awaited (Remove Products (product_id p)) (remove Product_ (product_id p));;
        send 200 (Json true None EmptyArray)
  end.

End WithDoc.

End ProductsGuarded.

(** *** The route [GET /] of the attractions router

    [.get(advancedResults(Attraction, 'products'), getAttractions)]: the
    router runs the handler when the middleware has called [next()],
    which is its last statement. *)

Module Routes.
Import JSON Effects Middleware Controllers.

Section WithDoc.
Context {Doc : Type}.

Definition get_attractions (model : Model Doc) (req_query : loc)
    (w : world Doc) (st : exchange Doc)
  : (exn + unit) * world Doc * exchange Doc :=
  match advancedResults model (Some "products") req_query w with
  | (inr _, w') =>
      let '(r, st') := Attractions.getAttractions (res_advancedResults w') st in
      (r, w', st')
  | (inl e, w') => (inl e, w', st)
  end.

End WithDoc.

End Routes.

(** ** What a run of a handler is checked against *)

Module Conduct.
Import JSON Effects Controllers.

Section WithDoc.
Context {Doc : Type}.

(** A run that returns has answered exactly once, with its last call; a
    run that is rejected has not answered, so that the only answer is
    the one the wrapper gives to the rejection. *)
Definition answers_once (h : H Doc unit) : Prop :=
  forall st : exchange Doc,
    let '(r, st') := h st in
    exists added,
      calls st' = (calls st ++ added)%list /\
      match r with
      | inr _ =>
          exists before reply,
            added = (before ++ [reply])%list /\
            is_reply reply = true /\
            List.forallb (fun c => negb (is_reply c)) before = true
      | inl _ => List.forallb (fun c => negb (is_reply c)) added = true
      end.

(** The writes among the calls that a run added. *)
Definition writes (st st' : exchange Doc) : list (call Doc) :=
  List.filter is_write (new_calls st st').

(** The targets of the files that were moved. *)
Definition moved (st st' : exchange Doc) : list string :=
  omap (fun c => match c with Move target => Some target | _ => None end)
       (new_calls st st').

(** The bodies handed to [create]. *)
Definition created (st st' : exchange Doc) : list object :=
  omap (fun c => match c with Create _ body => Some body | _ => None end)
       (new_calls st st').

End WithDoc.

End Conduct.

Module ControllerSamples.
Import JSON Effects Controllers.

(** An attraction of publisher [u1], liked by [u2], bookmarked by [u3]. *)
Definition lake_tour : Attraction :=
  mkAttraction "a1" "u1" ["u2"] ["u3"] 7 (Some ["no-photo.jpg"]).

Definition wine_flight : Product := mkProduct "p1" "u1".

Definition publisher : User := mkUser "u1" "publisher".
Definition visitor : User := mkUser "u9" "user".
Definition fan : User := mkUser "u2" "user".
Definition collector : User := mkUser "u3" "user".
Definition administrator : User := mkUser "u0" "admin".

(** A request whose body names another user and another attraction. *)
Definition posted : exchange unit :=
  mkExchange [("name", JStr "Boat"); ("user", JStr "u1"); ("attraction", JStr "a7")] [].

(** An upload folder that takes every file, with a limit of one
    megabyte, for files whose names end in [.jpg]. *)
Definition uploads : Host :=
  mkHost "1000000" (Some 1000000%Z) "./public/uploads"
    (fun _ => ".jpg") (fun _ => None).

Definition snapshot : File := mkFile "image/jpeg" 2048 "lake.jpg".

(** A request without a body, on a route whose documents are objects. *)
Definition browsing : exchange object := mkExchange [] [].

End ControllerSamples.

(** * Properties *)

(** ** Facts about strings *)

Module StrFacts.
Import Str.

Lemma append_nil_r (s : string) : s ++ "" = s.
Proof. induction s as [|c s IH]; simpl; [reflexivity | now rewrite IH]. Qed.

Lemma append_assoc (a b c : string) : (a ++ b) ++ c = a ++ (b ++ c).
Proof. induction a as [|x a IH]; simpl; [reflexivity | now rewrite IH]. Qed.

Lemma length_append (a b : string) :
  String.length (a ++ b) = (String.length a + String.length b)%nat.
Proof. induction a as [|x a IH]; simpl; [reflexivity | now rewrite IH]. Qed.

Lemma strip_prefix_app (p r : string) : strip_prefix p (p ++ r) = Some r.
Proof.
  induction p as [|a p IH]; simpl; [reflexivity|].
  now rewrite Ascii.eqb_refl.
Qed.

Lemma strip_prefix_Some (p s r : string) :
  strip_prefix p s = Some r -> s = p ++ r.
Proof.
  revert s; induction p as [|a p IH]; intros s; simpl.
  - now intros [= ->].
  - destruct s as [|b s]; [discriminate|].
    destruct (Ascii.eqb_spec a b) as [->|]; [|discriminate].
    intros H. now rewrite (IH _ H).
Qed.

End StrFacts.

(** ** The operator rewrite against its word-by-word description *)

Module RewriteFacts.
Import Rewrite.

Lemma word_split (s : string) : s = word_prefix s ++ after_word s.
Proof.
  induction s as [|c s IH]; simpl; [reflexivity|].
  destruct (is_word c); simpl; [now rewrite <- IH | reflexivity].
Qed.

Lemma all_word_prefix (s : string) : all_word (word_prefix s) = true.
Proof.
  induction s as [|c s IH]; simpl; [reflexivity|].
  destruct (is_word c) eqn:Hc; simpl; [now rewrite Hc | reflexivity].
Qed.

Lemma after_word_nonword (s : string) : starts_with_word (after_word s) = false.
Proof.
  induction s as [|c s IH]; simpl; [reflexivity|].
  destruct (is_word c) eqn:Hc; [exact IH | exact Hc].
Qed.

Lemma word_prefix_nonword (s : string) :
  starts_with_word s = false -> word_prefix s = "" /\ after_word s = s.
Proof.
  destruct s as [|c s]; simpl; [auto|].
  unfold starts_with_word; simpl. now intros ->.
Qed.

Lemma segments_nonword (c : ascii) (s : string) :
  is_word c = false -> segments (String c s) = String c "" :: segments s.
Proof.
  intros Hc; simpl. destruct (segments s); [reflexivity|]. now rewrite Hc.
Qed.

Lemma segments_head (s x : string) (xs : list string) :
  segments s = x :: xs -> Str.head x = Str.head s.
Proof.
  destruct s as [|c s]; simpl; [discriminate|].
  destruct (segments s) as [|w ws].
  - now intros [= <- _].
  - destruct (is_word c && starts_with_word w); now intros [= <- _].
Qed.

Lemma segments_nil (s : string) : segments s = [] -> s = "".
Proof.
  destruct s as [|c s]; simpl; [reflexivity|].
  destruct (segments s) as [|w ws]; [discriminate|].
  destruct (is_word c && starts_with_word w); discriminate.
Qed.

Lemma segments_word_run (c : ascii) (w rest : string) :
  all_word (String c w) = true -> starts_with_word rest = false ->
  segments (String c w ++ rest) = String c w :: segments rest.
Proof.
  revert c; induction w as [|d w IH]; intros c Hw Hrest.
  - simpl in *. destruct (segments rest) as [|x xs] eqn:Hseg; [reflexivity|].
    apply segments_head in Hseg. unfold starts_with_word in *.
    rewrite Hseg, Hrest. now rewrite andb_false_r.
  - simpl in Hw. apply andb_prop in Hw as [Hc Hw].
    change (String c (String d w) ++ rest) with (String c (String d w ++ rest)).
    cbn [segments]. rewrite (IH d Hw Hrest).
    apply andb_prop in Hw as [Hd _].
    unfold starts_with_word; simpl. now rewrite Hc, Hd.
Qed.

Lemma concat_empty_cons (x : string) (l : list string) :
  String.concat "" (x :: l) = x ++ String.concat "" l.
Proof. destruct l; simpl; [now rewrite StrFacts.append_nil_r | reflexivity]. Qed.

Lemma single_not_operator (c : ascii) : is_operator (String c "") = false.
Proof.
  unfold is_operator; simpl.
  repeat match goal with |- context [Ascii.eqb ?a ?b] => destruct (Ascii.eqb a b) end;
    reflexivity.
Qed.

Lemma rewrite_nonword (c : ascii) (s : string) :
  is_word c = false ->
  rewrite_standalone (String c s) = String c (rewrite_standalone s).
Proof.
  intros Hc. unfold rewrite_standalone. rewrite (segments_nonword _ _ Hc).
  cbn [map]. rewrite concat_empty_cons. unfold prefix_operator at 1.
  now rewrite single_not_operator.
Qed.

Lemma rewrite_word_run (c : ascii) (w rest : string) :
  all_word (String c w) = true -> starts_with_word rest = false ->
  rewrite_standalone (String c w ++ rest)
  = prefix_operator (String c w) ++ rewrite_standalone rest.
Proof.
  intros Hw Hrest. unfold rewrite_standalone.
  rewrite (segments_word_run _ _ _ Hw Hrest). cbn [map].
  apply concat_empty_cons.
Qed.

Lemma operators_word_tokens : Forall word_token operators.
Proof. repeat constructor. Qed.

Lemma last_char_word (t : string) (d : option ascii) :
  all_word t = true -> is_word_opt d = true ->
  is_word_opt (Str.last_char t d) = true.
Proof.
  revert d; induction t as [|c t IH]; intros d Ht Hd; simpl in *; [exact Hd|].
  apply andb_prop in Ht as [Hc Ht]. now apply IH.
Qed.

Lemma last_char_token (t : string) (d : option ascii) :
  word_token t -> is_word_opt (Str.last_char t d) = true.
Proof.
  intros [Hs Ht]. destruct t as [|c t]; [discriminate|].
  simpl in *. apply andb_prop in Ht as [Hc Ht]. now apply last_char_word.
Qed.

Lemma word_run_unique (t r w rest : string) :
  all_word t = true -> all_word w = true -> t ++ r = w ++ rest ->
  starts_with_word r = false -> starts_with_word rest = false ->
  t = w /\ r = rest.
Proof.
  revert w; induction t as [|a t IH]; intros [|b w] Ht Hw Heq Hr Hrest;
    simpl in *.
  - auto.
  - subst r. apply andb_prop in Hw as [Hb _].
    unfold starts_with_word in Hr; simpl in Hr. congruence.
  - subst rest. apply andb_prop in Ht as [Ha _].
    unfold starts_with_word in Hrest; simpl in Hrest. congruence.
  - injection Heq as -> Heq.
    apply andb_prop in Ht as [_ Ht]. apply andb_prop in Hw as [_ Hw].
    destruct (IH w Ht Hw Heq Hr Hrest) as [-> ->]. auto.
Qed.

Lemma match_alternatives_nonword (alts : list string) (c : ascii) (s : string) :
  Forall word_token alts -> is_word c = false ->
  match_alternatives alts (String c s) = None.
Proof.
  intros Halts Hc. induction Halts as [|t alts [Ht _] _ IH]; [reflexivity|].
  destruct t as [|a t]; [discriminate|]. cbn [match_alternatives Str.strip_prefix].
  destruct (Ascii.eqb_spec a c) as [->|]; [|exact IH].
  unfold starts_with_word in Ht; simpl in Ht. congruence.
Qed.

Lemma match_alternatives_run (alts : list string) (w rest : string) :
  Forall word_token alts -> all_word w = true ->
  starts_with_word rest = false ->
  match_alternatives alts (w ++ rest)
  = if existsb (String.eqb w) alts then Some (w, rest) else None.
Proof.
  intros Halts Hw Hrest.
  induction Halts as [|t alts Ht _ IH]; [reflexivity|].
  cbn [match_alternatives existsb].
  destruct (Str.strip_prefix t (w ++ rest)) as [r|] eqn:Hstrip.
  - apply StrFacts.strip_prefix_Some in Hstrip.
    unfold word_boundary. rewrite (last_char_token _ _ Ht).
    change (is_word_opt (Str.head r)) with (starts_with_word r).
    destruct (starts_with_word r) eqn:Hr; simpl.
    + destruct (String.eqb_spec w t) as [->|Hne]; [|exact IH].
      apply String.app_inj in Hstrip. congruence.
    + destruct Ht as [_ Ht].
      destruct (word_run_unique t r w rest Ht Hw (eq_sym Hstrip) Hr Hrest)
        as [-> ->].
      now rewrite String.eqb_refl.
  - destruct (String.eqb_spec w t) as [->|Hne]; [|exact IH].
    now rewrite StrFacts.strip_prefix_app in Hstrip.
Qed.

(** What the scan produces from a position, by the kind of character
    before it. *)
Lemma replace_from_spec (n : nat) (prev : option ascii) (s : string) :
  (String.length s <= n)%nat ->
  replace_from n prev s
  = if is_word_opt prev
    then word_prefix s ++ rewrite_standalone (after_word s)
    else rewrite_standalone s.
Proof.
  revert prev s; induction n as [|n IH]; intros prev s Hlen.
  - destruct s; [|simpl in Hlen; lia]. now destruct (is_word_opt prev).
  - destruct s as [|c s]; [now destruct (is_word_opt prev)|].
    simpl in Hlen. cbn [replace_from]. unfold match_operator, word_boundary.
    cbn [Str.head is_word_opt].
    destruct (is_word_opt prev) eqn:Hprev, (is_word c) eqn:Hc; cbn [xorb].
    + rewrite IH by lia. cbn [is_word_opt word_prefix after_word].
      now rewrite Hc.
    + rewrite (match_alternatives_nonword _ _ _ operators_word_tokens Hc).
      rewrite IH by lia. cbn [is_word_opt word_prefix after_word].
      rewrite Hc. cbn [String.append]. now rewrite rewrite_nonword.
    + pose proof (all_word_prefix (String c s)) as Hw.
      pose proof (after_word_nonword (String c s)) as Hrest.
      rewrite (word_split (String c s)) at 1 2.
      rewrite (match_alternatives_run _ _ _ operators_word_tokens Hw Hrest).
      cbn [word_prefix after_word] in *. rewrite Hc in *.
      rewrite rewrite_word_run by assumption.
      unfold prefix_operator.
      change (existsb (String.eqb (String c (word_prefix s))) operators)
        with (is_operator (String c (word_prefix s))).
      destruct (is_operator (String c (word_prefix s))).
      * rewrite IH.
        -- cbn [Str.last_char].
           rewrite last_char_word by (apply all_word_prefix || exact Hc).
           destruct (word_prefix_nonword _ Hrest) as [-> ->].
           rewrite StrFacts.append_assoc. reflexivity.
        -- pose proof (f_equal String.length (word_split s)) as Hl.
           rewrite StrFacts.length_append in Hl. lia.
      * rewrite IH by lia. cbn [is_word_opt]. now rewrite Hc.
    + rewrite IH by lia. cbn [is_word_opt]. rewrite Hc.
      now rewrite rewrite_nonword.
Qed.

(** The scan and the word-by-word description agree on every text. *)
Lemma replace_operators_standalone (s : string) :
  replace_operators s = rewrite_standalone s.
Proof. unfold replace_operators. now rewrite replace_from_spec. Qed.

Lemma concat_segments (s : string) : String.concat "" (segments s) = s.
Proof.
  induction s as [|c s IH]; [reflexivity|].
  cbn [segments]. destruct (segments s) as [|w ws] eqn:Hseg.
  - now rewrite (segments_nil _ Hseg).
  - rewrite concat_empty_cons in IH.
    destruct (is_word c && starts_with_word w);
      rewrite !concat_empty_cons; simpl; now rewrite ?concat_empty_cons, IH.
Qed.

(** Without an operator word standing alone the rewrite changes nothing. *)
Lemma rewrite_no_operator (s : string) :
  no_standalone_operator s = true -> rewrite_standalone s = s.
Proof.
  unfold no_standalone_operator, rewrite_standalone. intros H.
  rewrite <- (concat_segments s) at 2. f_equal.
  induction (segments s) as [|w ws IH]; [reflexivity|].
  cbn [forallb] in H. apply andb_prop in H as [Hw Hws].
  cbn [map]. rewrite (IH Hws). unfold prefix_operator.
  apply negb_true_iff in Hw. now rewrite Hw.
Qed.

Lemma ends_with_word_cons (c d : ascii) (s : string) :
  ends_with_word (String c (String d s)) = ends_with_word (String d s).
Proof. reflexivity. Qed.

Lemma segments_cons (c : ascii) (s : string) :
  segments (String c s)
  = match segments s with
    | w :: ws =>
        if is_word c && starts_with_word w
        then String c w :: ws
        else String c "" :: w :: ws
    | [] => [String c ""]
    end.
Proof. reflexivity. Qed.

(** Cutting a text where no word runs across the cut cuts its segments. *)
Lemma segments_app (a b : string) :
  ends_with_word a && starts_with_word b = false ->
  segments (a ++ b) = (segments a ++ segments b)%list.
Proof.
  induction a as [|c a IH]; intros H; [reflexivity|].
  destruct a as [|d a].
  - unfold ends_with_word in H. cbn in H. cbn [String.append segments].
    destruct (segments b) as [|w ws] eqn:Hb; [reflexivity|].
    apply segments_head in Hb. unfold starts_with_word in *.
    now rewrite Hb, H.
  - rewrite ends_with_word_cons in H. specialize (IH H).
    change (String c (String d a) ++ b) with (String c (String d a ++ b)).
    rewrite (segments_cons c (String d a ++ b)), IH.
    rewrite (segments_cons c (String d a)).
    destruct (segments (String d a)) as [|x xs] eqn:Hd.
    + apply segments_nil in Hd. discriminate.
    + cbn [app]. destruct (is_word c && starts_with_word x); reflexivity.
Qed.

Lemma concat_empty_app (l k : list string) :
  String.concat "" (l ++ k)%list = String.concat "" l ++ String.concat "" k.
Proof.
  induction l as [|x l IH]; [reflexivity|].
  change ((x :: l) ++ k)%list with (x :: (l ++ k))%list.
  now rewrite !concat_empty_cons, IH, StrFacts.append_assoc.
Qed.

Lemma rewrite_app (a b : string) :
  ends_with_word a && starts_with_word b = false ->
  rewrite_standalone (a ++ b) = rewrite_standalone a ++ rewrite_standalone b.
Proof.
  intros H. unfold rewrite_standalone.
  now rewrite (segments_app _ _ H), List.map_app, concat_empty_app.
Qed.

Lemma is_operator_token (w : string) : is_operator w = true -> word_token w.
Proof.
  unfold is_operator. intros H. apply existsb_exists in H as (t & Hin & Heq).
  apply String.eqb_eq in Heq as ->.
  pose proof operators_word_tokens as Hall.
  rewrite List.Forall_forall in Hall. now apply Hall.
Qed.

(** An operator word between two word boundaries is prefixed, and the
    text on either side is rewritten on its own. *)
Lemma rewrite_occurrence (pre w post : string) :
  is_operator w = true -> ends_with_word pre = false ->
  starts_with_word post = false ->
  rewrite_standalone (pre ++ w ++ post)
  = rewrite_standalone pre ++ ("$" ++ w) ++ rewrite_standalone post.
Proof.
  intros Hw Hpre Hpost.
  rewrite rewrite_app by now rewrite Hpre.
  destruct (is_operator_token w Hw) as [Hs Ha].
  destruct w as [|c w]; [discriminate|].
  rewrite (rewrite_word_run c w post Ha Hpost).
  unfold prefix_operator. now rewrite Hw.
Qed.

End RewriteFacts.

(** ** [JSON.parse] inverts [JSON.stringify] *)

Module JSONFacts.
Import JSON.

Lemma parse_chars_escape_char (c : ascii) (tail : string) :
  parse_chars (escape_char c ++ tail) = cons_char c (parse_chars tail).
Proof.
  destruct c as [[|] [|] [|] [|] [|] [|] [|] [|]]; reflexivity.
Qed.

Lemma parse_chars_escape (s rest : string) :
  parse_chars (escape s ++ String dquote rest) = Some (s, rest).
Proof.
  induction s as [|c s IH]; [reflexivity|].
  cbn [escape]. rewrite StrFacts.append_assoc, parse_chars_escape_char, IH.
  reflexivity.
Qed.

Lemma quote_app (s rest : string) :
  quote s ++ rest = String dquote (escape s ++ String dquote rest).
Proof. unfold quote. simpl. now rewrite StrFacts.append_assoc. Qed.

Lemma stringify_head (v : json) :
  exists c tail, stringify v = String c tail /\ opens_value c.
Proof.
  destruct v; simpl; eexists _, _; (split; [reflexivity|]);
    unfold opens_value; auto.
Qed.

Lemma expect_other (c : ascii) (v : json) (rest : string) :
  ~ opens_value c -> expect c (stringify v ++ rest) = None.
Proof.
  intros Hc. destruct (stringify_head v) as (d & tail & -> & Hd). simpl.
  destruct (Ascii.eqb_spec c d) as [->|]; [contradiction | reflexivity].
Qed.

Lemma set_prop_fresh (k : string) (v : json) (o : object) :
  existsb (String.eqb k) (List.map fst o) = false ->
  set_prop k v o = (o ++ [(k, v)])%list.
Proof.
  induction o as [|[k' v'] o IH]; simpl; [reflexivity|].
  destruct (String.eqb k k'); simpl; [discriminate|].
  intros H. now rewrite IH.
Qed.

Lemma existsb_app_false (k : string) (a b : list string) :
  existsb (String.eqb k) (a ++ b)%list = false <->
  existsb (String.eqb k) a = false /\ existsb (String.eqb k) b = false.
Proof. rewrite existsb_app. apply orb_false_iff. Qed.

Lemma object_of_members_app (m acc : object) :
  keys_unique (List.map fst (acc ++ m)%list) = true ->
  fold_left (fun o kv => set_prop (fst kv) (snd kv) o) m acc = (acc ++ m)%list.
Proof.
  revert acc; induction m as [|[k v] m IH]; intros acc Hu; simpl.
  - now rewrite app_nil_r.
  - assert (Hfresh : existsb (String.eqb k) (List.map fst acc) = false).
    { clear IH. induction acc as [|[k' v'] acc IHa]; [reflexivity|].
      simpl in Hu. apply andb_prop in Hu as [Hk' Hu].
      simpl. rewrite (IHa Hu), orb_false_r.
      rewrite List.map_app in Hk'. simpl in Hk'.
      apply negb_true_iff, existsb_app_false in Hk' as [_ Hk'].
      simpl in Hk'. apply orb_false_iff in Hk' as [Hk' _].
      now rewrite String.eqb_sym. }
    rewrite set_prop_fresh by exact Hfresh.
    rewrite IH; rewrite <- app_assoc; [reflexivity | exact Hu].
Qed.

Lemma object_of_members_unique (m : object) :
  keys_unique (List.map fst m) = true -> object_of_members m = m.
Proof. intros H. unfold object_of_members. now rewrite object_of_members_app. Qed.

Lemma elements_text_one (x : json) : elements_text [x] = stringify x.
Proof. reflexivity. Qed.

Lemma elements_text_cons (x y : json) (l : list json) :
  elements_text (x :: y :: l) = stringify x ++ "," ++ elements_text (y :: l).
Proof. reflexivity. Qed.

Lemma members_text_one (kv : string * json) : members_text [kv] = member_text kv.
Proof. reflexivity. Qed.

Lemma members_text_cons (kv kv' : string * json) (m : list (string * json)) :
  members_text (kv :: kv' :: m)
  = member_text kv ++ "," ++ members_text (kv' :: m).
Proof. reflexivity. Qed.

#[local] Arguments elements_text : simpl never.
#[local] Arguments members_text : simpl never.
#[local] Arguments member_text : simpl never.

Lemma not_opens_comma : ~ opens_value ","%char.
Proof. intros [H|[H|H]]; discriminate. Qed.

Lemma not_opens_bracket : ~ opens_value "]"%char.
Proof. intros [H|[H|H]]; discriminate. Qed.

Lemma not_opens_brace : ~ opens_value "}"%char.
Proof. intros [H|[H|H]]; discriminate. Qed.

(** With fuel for every node, the parser reads back a serialised value,
    a non-empty element list up to its bracket and a non-empty member
    list up to its brace, and leaves the text that follows. *)
Lemma parse_stringify_fuel (n : nat) :
  (forall v rest, (size v <= n)%nat -> well_formed v = true ->
     parse_value n (stringify v ++ rest) = Some (v, rest))
  /\ (forall v l rest, (elements_size (v :: l) <= n)%nat ->
        forallb well_formed (v :: l) = true ->
        parse_elements n (elements_text (v :: l) ++ String "]" rest)
        = Some (v :: l, rest))
  /\ (forall kv m rest, (members_size (kv :: m) <= n)%nat ->
        forallb (fun kv => well_formed (snd kv)) (kv :: m) = true ->
        parse_members n (members_text (kv :: m) ++ String "}" rest)
        = Some (kv :: m, rest)).
Proof.
  induction n as [|n (IHv & IHe & IHm)].
  { repeat split.
    - intros [] ? H; simpl in H; lia.
    - intros ? ? ? H; unfold elements_size in H; simpl in H; lia.
    - intros ? ? ? H; unfold members_size in H; simpl in H; lia. }
  repeat split.
  - intros [s|[|x l]|[|kv m]] rest Hsize Hwf.
    + cbn [stringify]. rewrite quote_app. cbn [parse_value].
      rewrite Ascii.eqb_refl, parse_chars_escape. reflexivity.
    + reflexivity.
    + cbn [stringify]. rewrite !StrFacts.append_assoc.
      change ("[" ++ ?a) with (String "[" a). cbn [parse_value].
      change (Ascii.eqb "[" dquote) with false. cbv iota.
      rewrite Ascii.eqb_refl.
      change (String.concat "," (List.map stringify (x :: l)))
        with (elements_text (x :: l)).
      assert (Hexp : expect "]" (elements_text (x :: l) ++ "]" ++ rest) = None).
      { unfold elements_text. destruct l; cbn [List.map String.concat];
          rewrite ?StrFacts.append_assoc; apply expect_other, not_opens_bracket. }
      rewrite Hexp. change ("]" ++ rest) with (String "]" rest).
      rewrite IHe; [reflexivity | unfold elements_size; simpl in Hsize |- *; lia
                   | exact Hwf].
    + reflexivity.
    + cbn [stringify]. rewrite !StrFacts.append_assoc.
      change ("{" ++ ?a) with (String "{" a). cbn [parse_value].
      change (Ascii.eqb "{" dquote) with false.
      change (Ascii.eqb "{" "[") with false. cbv iota.
      rewrite Ascii.eqb_refl.
      change (String.concat "," (List.map _ (kv :: m)))
        with (members_text (kv :: m)).
      assert (Hexp : expect "}" (members_text (kv :: m) ++ "}" ++ rest) = None).
      { unfold members_text, member_text.
        destruct m; cbn [List.map String.concat]; rewrite ?StrFacts.append_assoc;
          rewrite quote_app; reflexivity. }
      rewrite Hexp. change ("}" ++ rest) with (String "}" rest).
      cbn [well_formed] in Hwf. apply andb_prop in Hwf as [Hu Hwf].
      rewrite IHm; [| unfold members_size; simpl in Hsize |- *; lia | exact Hwf].
      simpl. now rewrite object_of_members_unique.
  - intros v l rest Hsize Hwf. cbn [parse_elements].
    unfold elements_size in Hsize. simpl in Hsize.
    cbn [forallb] in Hwf. apply andb_prop in Hwf as [Hv Hl].
    destruct l as [|y l].
    + rewrite elements_text_one, IHv by (assumption || lia). reflexivity.
    + rewrite elements_text_cons, !StrFacts.append_assoc.
      rewrite IHv by (assumption || lia). simpl.
      rewrite IHe; [reflexivity | | exact Hl].
      unfold elements_size. simpl in Hsize |- *. lia.
  - intros [k v] m rest Hsize Hwf. cbn [parse_members].
    unfold members_size in Hsize. simpl in Hsize.
    cbn [forallb snd] in Hwf. apply andb_prop in Hwf as [Hv Hm].
    destruct m as [|kv' m].
    + rewrite members_text_one. unfold member_text. cbn [fst snd].
      rewrite !StrFacts.append_assoc, quote_app. cbn [expect].
      rewrite Ascii.eqb_refl. simpl. rewrite parse_chars_escape. simpl.
      rewrite IHv by (assumption || lia). reflexivity.
    + rewrite members_text_cons. unfold member_text at 1. cbn [fst snd].
      rewrite !StrFacts.append_assoc, quote_app. cbn [expect].
      rewrite Ascii.eqb_refl. simpl. rewrite parse_chars_escape. simpl.
      rewrite IHv by (assumption || lia). simpl.
      rewrite IHm; [reflexivity | | exact Hm].
      unfold members_size. simpl in Hsize |- *. lia.
Qed.

Lemma elements_size_le (l : list json) :
  Forall (fun v => (size v <= String.length (stringify v))%nat) l ->
  (elements_size l <= S (String.length (elements_text l)))%nat.
Proof.
  induction 1 as [|x l Hx Hl IH]; [unfold elements_size; simpl; lia|].
  destruct l as [|y l].
  - rewrite elements_text_one. unfold elements_size. simpl. lia.
  - rewrite elements_text_cons, !StrFacts.length_append.
    unfold elements_size in *. simpl in IH |- *. lia.
Qed.

Lemma members_size_le (m : list (string * json)) :
  Forall (fun kv => (size (snd kv) <= String.length (stringify (snd kv)))%nat) m ->
  (members_size m <= S (String.length (members_text m)))%nat.
Proof.
  induction 1 as [|x l Hx Hl IH]; [unfold members_size; simpl; lia|].
  assert (Hm : (S (size (snd x)) <= String.length (member_text x))%nat).
  { unfold member_text. rewrite quote_app. simpl.
    rewrite !StrFacts.length_append. simpl. lia. }
  destruct l as [|y l].
  - rewrite members_text_one.
    change (members_size [x]) with (S (size (snd x)) + 0)%nat. lia.
  - rewrite members_text_cons, !StrFacts.length_append.
    change (members_size (x :: y :: l))
      with (S (size (snd x)) + members_size (y :: l))%nat.
    change (String.length ",") with 1%nat. lia.
Qed.

Lemma get_delete_prop (k k' : string) (o : object) :
  get_prop k (delete_prop k' o)
  = if String.eqb k k' then None else get_prop k o.
Proof.
  induction o as [|[a v] o IH]; cbn [delete_prop get_prop].
  - now destruct (String.eqb k k').
  - destruct (String.eqb_spec k' a) as [->|Hne].
    + rewrite IH. now destruct (String.eqb k a).
    + cbn [get_prop]. rewrite IH.
      destruct (String.eqb_spec k a) as [->|]; [|reflexivity].
      destruct (String.eqb_spec a k'); congruence.
Qed.

Lemma delete_prop_filter (k : string) (o : object) :
  delete_prop k o = List.filter (fun kv => negb (String.eqb k (fst kv))) o.
Proof.
  induction o as [|[a v] o IH]; [reflexivity|].
  cbn [delete_prop List.filter fst]. rewrite IH.
  now destruct (String.eqb k a).
Qed.

(** The text of a value is at least as long as the value is large, so
    the fuel [parse] starts with is enough. *)
Lemma size_le_length (v : json) : (size v <= String.length (stringify v))%nat.
Proof.
  induction v as [s|elems IH|props IH] using json_ind.
  - simpl. lia.
  - pose proof (elements_size_le elems IH) as H.
    cbn [stringify]. rewrite !StrFacts.length_append.
    change (size (JArr elems)) with (S (elements_size elems)).
    change (String.concat "," (List.map stringify elems))
      with (elements_text elems). simpl. lia.
  - pose proof (members_size_le props IH) as H.
    cbn [stringify]. rewrite !StrFacts.length_append.
    change (size (JObj props)) with (S (members_size props)).
    change (String.concat "," (List.map _ props)) with (members_text props).
    simpl. lia.
Qed.

(** Parsing the text of a value gives the value back. *)
Lemma parse_stringify (v : json) :
  well_formed v = true -> parse (stringify v) = Some v.
Proof.
  intros Hwf. unfold parse.
  pose proof (size_le_length v) as Hsize.
  destruct (parse_stringify_fuel (S (String.length (stringify v)))) as [Hv _].
  rewrite <- (StrFacts.append_nil_r (stringify v)) at 2.
  rewrite Hv by (assumption || lia). reflexivity.
Qed.

End JSONFacts.

(** ** The rewritten text always parses *)

Module FilterFacts.
Import Rewrite JSON RewriteFacts JSONFacts.

Lemma body_parse (t rest : string) :
  string_body t ->
  exists s, parse_chars (t ++ String dquote rest) = Some (s, rest).
Proof.
  induction 1 as [|c t Hc _ [s IH]|e t He _ [s IH]|a b c d t Hu _ [s IH]].
  - exists "". reflexivity.
  - exists (String c s). cbn [String.append parse_chars].
    unfold verbatim in Hc.
    apply andb_prop in Hc as [Hc H32]. apply andb_prop in Hc as [Hq Hb].
    apply negb_true_iff in Hq, Hb, H32.
    rewrite Hq, Hb, H32, IH. reflexivity.
  - destruct (simple_escape e) as [u|] eqn:Hu; [|congruence].
    exists (String u s). cbn [String.append parse_chars].
    change (Ascii.eqb "\" dquote) with false. cbv iota.
    rewrite Ascii.eqb_refl.
    destruct (Ascii.eqb_spec e "u") as [->|_]; [discriminate|].
    rewrite Hu, IH. reflexivity.
  - destruct (unicode_escape a b c d) as [u|] eqn:Hesc; [|congruence].
    exists (String u s). cbn [String.append parse_chars].
    change (Ascii.eqb "\" dquote) with false. cbv iota.
    rewrite !Ascii.eqb_refl, Hesc, IH. reflexivity.
Qed.

Lemma body_escape_char (c : ascii) (t : string) :
  string_body t -> string_body (escape_char c ++ t).
Proof.
  intros Ht.
  destruct c as [[|] [|] [|] [|] [|] [|] [|] [|]]; cbn;
    first [ apply body_char; [reflexivity | exact Ht]
          | apply body_simple; [discriminate | exact Ht]
          | apply body_unicode; [discriminate | exact Ht] ].
Qed.

Lemma body_escape (s : string) : string_body (escape s).
Proof.
  induction s as [|c s IH]; [constructor|]. now apply body_escape_char.
Qed.

Lemma match_alternatives_Some (alts : list string) (s m rest : string) :
  match_alternatives alts s = Some (m, rest) -> In m alts /\ s = m ++ rest.
Proof.
  induction alts as [|t alts IH]; [discriminate|].
  cbn [match_alternatives].
  destruct (Str.strip_prefix t s) as [r|] eqn:Hstrip.
  - destruct (word_boundary _ r).
    + intros [= <- <-]. split; [now left|].
      now apply StrFacts.strip_prefix_Some.
    + intros H. destruct (IH H). split; [now right | assumption].
  - intros H. destruct (IH H). split; [now right | assumption].
Qed.

Lemma match_operator_Some (prev : option ascii) (s m rest : string) :
  match_operator prev s = Some (m, rest) -> In m operators /\ s = m ++ rest.
Proof.
  unfold match_operator. destruct (word_boundary prev s); [|discriminate].
  apply match_alternatives_Some.
Qed.

(** No operator starts with an escape letter. *)
Lemma match_operator_escape_letter (prev : option ascii) (e : ascii) (t : string) :
  simple_escape e <> None \/ e = "u"%char ->
  match_operator prev (String e t) = None.
Proof.
  intros He. destruct (match_operator prev (String e t)) as [[m rest]|] eqn:H;
    [|reflexivity].
  apply match_operator_Some in H as [Hin Heq].
  assert (Hstart : e = "g"%char \/ e = "l"%char \/ e = "i"%char).
  { cbn in Hin. destruct Hin as [<-|[<-|[<-|[<-|[<-|[]]]]]];
      injection Heq as -> _; auto. }
  destruct He as [He| ->];
    [destruct Hstart as [->|[->| ->]]; exfalso; apply He; reflexivity
    |destruct Hstart as [H'|[H'|H']]; discriminate].
Qed.

Lemma match_operator_inside_word (c d : ascii) (t : string) :
  is_word c = true -> is_word d = true ->
  match_operator (Some c) (String d t) = None.
Proof.
  intros Hc Hd. unfold match_operator, word_boundary. cbn. now rewrite Hc, Hd.
Qed.

Lemma hex_is_word (c : ascii) : hex_value c <> None -> is_word c = true.
Proof.
  destruct c as [[|] [|] [|] [|] [|] [|] [|] [|]]; vm_compute; intros H;
    first [reflexivity | exfalso; apply H; reflexivity].
Qed.

Lemma unicode_escape_hex (a b c d : ascii) :
  unicode_escape a b c d <> None ->
  is_word a = true /\ is_word b = true /\ is_word c = true /\ is_word d = true.
Proof.
  unfold unicode_escape. intros H.
  destruct (hex_value a) eqn:Ha; [|now contradiction H].
  destruct (hex_value b) eqn:Hb; [|now contradiction H].
  destruct (hex_value c) eqn:Hc; [|now contradiction H].
  destruct (hex_value d) eqn:Hd; [|now contradiction H].
  repeat split; apply hex_is_word; congruence.
Qed.

Lemma body_tail_of_letters (m rest : string) :
  In m operators -> string_body (m ++ rest) -> string_body rest.
Proof.
  intros Hin H. cbn in Hin.
  destruct Hin as [<-|[<-|[<-|[<-|[<-|[]]]]]]; cbn in H;
    repeat match goal with
           | H : string_body (String _ _) |- _ => inversion H; subst; clear H
           end;
    assumption.
Qed.

Lemma body_prefixed_operator (m t : string) :
  In m operators -> string_body t -> string_body ("$" ++ m ++ t).
Proof.
  intros Hin Ht. cbn in Hin.
  destruct Hin as [<-|[<-|[<-|[<-|[<-|[]]]]]]; cbn;
    repeat (apply body_char; [reflexivity|]); exact Ht.
Qed.

(** The scan keeps a string body a string body: a [$] is never put
    inside an escape sequence. *)
Lemma body_replace (n : nat) :
  forall (prev : option ascii) (t : string),
    string_body t -> (String.length t <= n)%nat ->
    string_body (replace_from n prev t).
Proof.
  induction n as [n IH] using lt_wf_ind. intros prev t Ht Hlen.
  destruct n as [|n]; [exact Ht|].
  destruct Ht as [|c t Hc Ht|e t He Ht|a b c d t Hu Ht].
  - constructor.
  - cbn [replace_from].
    destruct (match_operator prev (String c t)) as [[m rest]|] eqn:Hm.
    + apply match_operator_Some in Hm as [Hin Heq].
      apply body_prefixed_operator; [exact Hin|].
      assert (Hbody : string_body (m ++ rest))
        by (rewrite <- Heq; now apply body_char).
      apply IH; [lia | eapply body_tail_of_letters; eassumption |].
      assert (Hm1 : (1 <= String.length m)%nat).
      { cbn in Hin. destruct Hin as [<-|[<-|[<-|[<-|[<-|[]]]]]]; cbn; lia. }
      apply (f_equal String.length) in Heq.
      rewrite StrFacts.length_append in Heq. cbn in Heq, Hlen. lia.
    + apply body_char; [exact Hc|]. apply IH; [lia | exact Ht |].
      cbn in Hlen. lia.
  - cbn [replace_from String.length] in *.
    rewrite match_operator_escape_letter by (left; discriminate).
    destruct n as [|n]; [lia|]. cbn [replace_from].
    rewrite match_operator_escape_letter by (left; exact He).
    apply body_simple; [exact He|]. apply IH; [lia | exact Ht | lia].
  - cbn [replace_from String.length] in *.
    destruct (unicode_escape_hex _ _ _ _ Hu) as (Ha & Hb & Hc & Hd).
    rewrite match_operator_escape_letter by (left; discriminate).
    do 5 (destruct n as [|n]; [lia|]). cbn [replace_from].
    rewrite match_operator_escape_letter by (right; reflexivity).
    rewrite !match_operator_inside_word by (assumption || reflexivity).
    apply body_unicode; [exact Hu|]. apply IH; [lia | exact Ht | lia].
Qed.

(** *** The rewrite moves inside the strings of a rendering *)

Lemma rewrite_empty : rewrite_standalone "" = "".
Proof. reflexivity. Qed.

Lemma rewrite_nonword_mid (a : string) (p : ascii) (b : string) :
  is_word p = false ->
  rewrite_standalone (a ++ String p b)
  = rewrite_standalone a ++ String p (rewrite_standalone b).
Proof.
  intros Hp. rewrite rewrite_app.
  - now rewrite rewrite_nonword.
  - unfold starts_with_word. cbn. rewrite Hp. apply andb_false_r.
Qed.

Lemma rewrite_concat_comma (texts : list string) :
  rewrite_standalone (String.concat "," texts)
  = String.concat "," (List.map rewrite_standalone texts).
Proof.
  induction texts as [|x [|y l] IH]; [reflexivity | reflexivity |].
  change (String.concat "," (x :: y :: l))
    with (x ++ String "," (String.concat "," (y :: l))).
  rewrite rewrite_nonword_mid by reflexivity. rewrite IH. reflexivity.
Qed.

Lemma rewrite_quoted (body rest : string) :
  rewrite_standalone (String dquote (body ++ String dquote rest))
  = String dquote (rewrite_standalone body
                   ++ String dquote (rewrite_standalone rest)).
Proof.
  rewrite rewrite_nonword by reflexivity.
  now rewrite rewrite_nonword_mid by reflexivity.
Qed.

Lemma rewrite_render (body : string -> string) (v : json) :
  rewrite_standalone (render body v)
  = render (fun s => rewrite_standalone (body s)) v.
Proof.
  induction v as [s|elems IH|props IH] using json_ind.
  - cbn [render]. now rewrite rewrite_quoted.
  - cbn [render].
    change ("[" ++ ?x ++ "]") with (String "[" (x ++ String "]" "")).
    rewrite rewrite_nonword by reflexivity.
    rewrite rewrite_nonword_mid by reflexivity.
    rewrite rewrite_concat_comma, List.map_map. do 3 f_equal.
    induction IH as [|x l Hx _ IHl]; [reflexivity|].
    cbn [List.map]. now rewrite Hx, IHl.
  - cbn [render].
    change ("{" ++ ?x ++ "}") with (String "{" (x ++ String "}" "")).
    rewrite rewrite_nonword by reflexivity.
    rewrite rewrite_nonword_mid by reflexivity.
    rewrite rewrite_concat_comma, List.map_map. do 3 f_equal.
    induction IH as [|[k x] l Hx _ IHl]; [reflexivity|].
    cbn [List.map fst snd] in *. rewrite IHl. f_equal.
    change (String dquote (?b ++ String dquote "") ++ ":" ++ ?r)
      with (String dquote ((b ++ String dquote "") ++ String ":" r)).
    rewrite !StrFacts.append_assoc. cbn [String.append].
    rewrite rewrite_quoted. rewrite rewrite_nonword by reflexivity.
    now rewrite Hx.
Qed.

Lemma stringify_render (v : json) : stringify v = render escape v.
Proof.
  induction v as [s|elems IH|props IH] using json_ind; cbn [stringify render].
  - reflexivity.
  - do 3 f_equal. induction IH as [|x l Hx _ IHl]; [reflexivity|].
    cbn [List.map]. now rewrite Hx, IHl.
  - do 3 f_equal. induction IH as [|[k x] l Hx _ IHl]; [reflexivity|].
    cbn [List.map fst snd] in *. now rewrite Hx, IHl.
Qed.

(** *** Every rendering with string bodies parses *)

Section Rendering.
Variable body : string -> string.
Hypothesis body_ok : forall s, string_body (body s).

#[local] Abbreviation rendered_member := (render_member body).

Lemma render_head (v : json) :
  exists c tail, render body v = String c tail /\ opens_value c.
Proof.
  destruct v; cbn [render]; eexists _, _; (split; [reflexivity|]);
    unfold opens_value; auto.
Qed.

Lemma expect_render_other (c : ascii) (v : json) (rest : string) :
  ~ opens_value c -> expect c (render body v ++ rest) = None.
Proof.
  intros Hc. destruct (render_head v) as (d & tail & -> & Hd). cbn.
  destruct (Ascii.eqb_spec c d) as [->|]; [contradiction | reflexivity].
Qed.

Lemma rendered_quote (s rest : string) :
  exists s', parse_chars (body s ++ String dquote rest) = Some (s', rest).
Proof. apply body_parse, body_ok. Qed.

Lemma parse_render_fuel (n : nat) :
  (forall v rest, (size v <= n)%nat ->
     exists v', parse_value n (render body v ++ rest) = Some (v', rest))
  /\ (forall v l rest, (elements_size (v :: l) <= n)%nat ->
        exists l',
          parse_elements n
            (String.concat "," (List.map (render body) (v :: l))
             ++ String "]" rest)
          = Some (l', rest))
  /\ (forall kv m rest, (members_size (kv :: m) <= n)%nat ->
        exists m',
          parse_members n
            (String.concat "," (List.map rendered_member (kv :: m))
             ++ String "}" rest)
          = Some (m', rest)).
Proof.
  induction n as [|n (IHv & IHe & IHm)].
  { repeat split.
    - intros [] ? H; simpl in H; lia.
    - intros ? ? ? H; unfold elements_size in H; simpl in H; lia.
    - intros ? ? ? H; unfold members_size in H; simpl in H; lia. }
  repeat split.
  - intros [s|[|x l]|[|kv m]] rest Hsize.
    + destruct (rendered_quote s rest) as [s' Hs].
      exists (JStr s'). cbn [render String.append parse_value].
      rewrite Ascii.eqb_refl, StrFacts.append_assoc. cbn [String.append].
      now rewrite Hs.
    + eexists. reflexivity.
    + destruct (IHe x l rest) as [l' Hl].
      { unfold elements_size. simpl in Hsize |- *. lia. }
      exists (JArr l'). cbn [render]. rewrite !StrFacts.append_assoc.
      change ("[" ++ ?a) with (String "[" a). cbn [parse_value].
      change (Ascii.eqb "[" dquote) with false. cbv iota.
      rewrite Ascii.eqb_refl.
      assert (Hexp : expect "]"
                (String.concat "," (List.map (render body) (x :: l))
                 ++ "]" ++ rest) = None).
      { destruct l; cbn [List.map String.concat];
          rewrite ?StrFacts.append_assoc;
          apply expect_render_other, not_opens_bracket. }
      rewrite Hexp. change ("]" ++ rest) with (String "]" rest).
      now rewrite Hl.
    + eexists. reflexivity.
    + destruct (IHm kv m rest) as [m' Hm].
      { unfold members_size. simpl in Hsize |- *. lia. }
      exists (JObj (object_of_members m')). cbn [render].
      rewrite !StrFacts.append_assoc.
      change ("{" ++ ?a) with (String "{" a). cbn [parse_value].
      change (Ascii.eqb "{" dquote) with false.
      change (Ascii.eqb "{" "[") with false. cbv iota.
      rewrite Ascii.eqb_refl.
      change (List.map _ (kv :: m)) with (List.map rendered_member (kv :: m)).
      assert (Hexp : expect "}"
                (String.concat "," (List.map rendered_member (kv :: m))
                 ++ "}" ++ rest) = None).
      { unfold render_member.
        destruct m; cbn [List.map String.concat];
          rewrite ?StrFacts.append_assoc; reflexivity. }
      rewrite Hexp. change ("}" ++ rest) with (String "}" rest).
      now rewrite Hm.
  - intros v l rest Hsize. cbn [parse_elements].
    unfold elements_size in Hsize. simpl in Hsize.
    destruct l as [|y l].
    + destruct (IHv v (String "]" rest)) as [v' Hv]; [lia|].
      exists [v']. cbn [List.map String.concat]. now rewrite Hv.
    + destruct (IHe y l rest) as [l' Hl].
      { unfold elements_size. simpl in Hsize |- *. lia. }
      destruct (IHv v (String ","
                  (String.concat "," (List.map (render body) (y :: l))
                   ++ String "]" rest))) as [v' Hv]; [lia|].
      exists (v' :: l').
      change (String.concat "," (List.map (render body) (v :: y :: l)))
        with (render body v
              ++ String "," (String.concat "," (List.map (render body) (y :: l)))).
      rewrite StrFacts.append_assoc. cbn [String.append]. rewrite Hv.
      cbn [mbind option_bind expect]. rewrite Ascii.eqb_refl.
      now rewrite Hl.
  - intros [k v] m rest Hsize. cbn [parse_members].
    unfold members_size in Hsize. simpl in Hsize.
    destruct m as [|kv' m].
    + destruct (IHv v (String "}" rest)) as [v' Hv]; [lia|].
      destruct (rendered_quote k (String ":" (render body v ++ String "}" rest)))
        as [k' Hk].
      exists [(k', v')]. unfold render_member.
      cbn [List.map String.concat fst snd].
      rewrite !StrFacts.append_assoc. cbn [String.append expect].
      rewrite Ascii.eqb_refl. cbn [mbind option_bind].
      rewrite StrFacts.append_assoc. cbn [String.append].
      rewrite Hk. cbn [mbind option_bind expect]. rewrite Ascii.eqb_refl.
      cbn [mbind option_bind]. now rewrite Hv.
    + destruct (IHm kv' m rest) as [m' Hm].
      { unfold members_size. simpl in Hsize |- *. lia. }
      destruct (IHv v (String ","
                  (String.concat "," (List.map rendered_member (kv' :: m))
                   ++ String "}" rest))) as [v' Hv]; [lia|].
      destruct (rendered_quote k
                  (String ":" (render body v ++ String ","
                     (String.concat "," (List.map rendered_member (kv' :: m))
                      ++ String "}" rest)))) as [k' Hk].
      exists ((k', v') :: m').
      change (String.concat "," (List.map rendered_member ((k, v) :: kv' :: m)))
        with (rendered_member (k, v)
              ++ String "," (String.concat ","
                               (List.map rendered_member (kv' :: m)))).
      unfold render_member at 1. cbn [fst snd].
      rewrite !StrFacts.append_assoc. cbn [String.append expect].
      rewrite Ascii.eqb_refl. cbn [mbind option_bind].
      rewrite !StrFacts.append_assoc. cbn [String.append].
      rewrite Hk. cbn [mbind option_bind expect]. rewrite Ascii.eqb_refl.
      cbn [mbind option_bind]. rewrite Hv.
      cbn [mbind option_bind expect]. rewrite Ascii.eqb_refl.
      now rewrite Hm.
Qed.

Lemma texts_size_le {A : Type} (f : A -> nat) (g : A -> string) (l : list A) :
  Forall (fun x => (f x <= String.length (g x))%nat) l ->
  (list_sum (List.map (fun x => S (f x)) l)
   <= S (String.length (String.concat "," (List.map g l))))%nat.
Proof.
  induction 1 as [|x l Hx _ IH]; [simpl; lia|].
  destruct l as [|y l]; [simpl; lia|].
  change (String.concat "," (List.map g (x :: y :: l)))
    with (g x ++ String "," (String.concat "," (List.map g (y :: l)))).
  rewrite StrFacts.length_append.
  change (list_sum (List.map (fun x => S (f x)) (x :: y :: l)))
    with (S (f x) + list_sum (List.map (fun x => S (f x)) (y :: l)))%nat.
  cbn [String.length]. lia.
Qed.

Lemma size_le_render (v : json) :
  (size v <= String.length (render body v))%nat.
Proof.
  induction v as [s|elems IH|props IH] using json_ind.
  - simpl. lia.
  - pose proof (texts_size_le size (render body) elems IH) as H.
    cbn [render size]. rewrite !StrFacts.length_append.
    cbn [String.length]. lia.
  - assert (IH' : Forall (fun kv => (size (snd kv)
                    <= String.length (rendered_member kv))%nat) props).
    { eapply List.Forall_impl; [|exact IH]. intros kv Hkv. unfold render_member.
      cbn [String.append String.length]. rewrite !StrFacts.length_append.
      cbn beta in Hkv. cbn [String.length]. lia. }
    pose proof (texts_size_le (fun kv => size (snd kv)) rendered_member
                  props IH') as H.
    cbn [render size]. rewrite !StrFacts.length_append.
    cbn [String.length]. fold rendered_member. lia.
Qed.

(** A rendering parses. *)
Lemma parse_render (v : json) : exists v', parse (render body v) = Some v'.
Proof.
  unfold parse. pose proof (size_le_render v) as Hsize.
  destruct (parse_render_fuel (S (String.length (render body v)))) as [Hv _].
  destruct (Hv v "") as [v' Hv']; [lia|].
  rewrite StrFacts.append_nil_r in Hv'. rewrite Hv'. now exists v'.
Qed.

End Rendering.

(** Whatever the value, its serialised text still parses after the
    operator rewrite: [JSON.parse] does not throw on it. *)
Lemma rewritten_text_parses (v : json) :
  exists v', parse (replace_operators (stringify v)) = Some v'.
Proof.
  rewrite replace_operators_standalone, stringify_render, rewrite_render.
  apply parse_render. intros s.
  rewrite <- replace_operators_standalone. unfold replace_operators.
  apply body_replace; [apply body_escape | lia].
Qed.

End FilterFacts.

(** ** A run of the middleware, step by step *)

Module MiddlewareFacts.
Import JSON Mongoose Effects Middleware JSONFacts FilterFacts.

Section WithDoc.
Context {Doc : Type}.
Implicit Types (model : Model Doc) (w : world Doc) (o : object).

Lemma bind_inr {A B : Type} (m : @M Doc A) (f : A -> @M Doc B) w x w' :
  m w = (inr x, w') -> (m ≫= f) w = f x w'.
Proof. intros H. unfold mbind, M_bind. now rewrite H. Qed.

Lemma bind_inl {A B : Type} (m : @M Doc A) (f : A -> @M Doc B) w e w' :
  m w = (inl e, w') -> (m ≫= f) w = (inl e, w').
Proof. intros H. unfold mbind, M_bind. now rewrite H. Qed.

Lemma fresh_not_allocated w : heap w !! fresh (dom (heap w)) = None.
Proof. apply not_elem_of_dom, is_fresh. Qed.

Lemma spread_run (src : loc) w :
  spread src w
  = (inr (fresh (dom (heap w))),
     mkWorld (<[fresh (dom (heap w)) := default [] (heap w !! src)]> (heap w))
       (res_advancedResults w) (trace w)).
Proof. reflexivity. Qed.

Lemma strip_run (l : loc) (h : gmap loc object) o r t :
  for_each removeFields (fun param => delete_property l param)
    (mkWorld (<[l := o]> h) r t)
  = (inr tt, @mkWorld Doc (<[l := filter_object o]> h) r t).
Proof.
  unfold removeFields, filter_object. cbn [for_each fold_left].
  unfold delete_property, get_heap, put_heap, mbind, M_bind, mret, M_ret.
  cbn [heap res_advancedResults trace].
  now rewrite !alter_insert_eq.
Qed.

Lemma read_object_run (l : loc) w o :
  heap w !! l = Some o -> read_object l w = (inr o, w).
Proof.
  intros H. unfold read_object, get_heap, mbind, M_bind. now rewrite H.
Qed.

Lemma get_property_run (l : loc) (k : string) w o :
  heap w !! l = Some o -> get_property l k w = (inr (get_prop k o), w).
Proof.
  intros H. unfold get_property.
  now rewrite (bind_inr _ _ _ _ _ (read_object_run l w o H)).
Qed.

Lemma select_step o (q : Query) w :
  (if Js.truthy (get_prop "select" o)
   then fields ← split_join (get_prop "select" o); mret (select fields q)
   else mret q) w
  = match projection o with
    | inl e => (inl e, w)
    | inr fields =>
        (inr (match fields with Some f => select f q | None => q end), w)
    end.
Proof.
  unfold projection.
  destruct (get_prop "select" o) as [[s| |]|]; cbn [Js.truthy]; try reflexivity.
  destruct (negb (String.eqb s "")); reflexivity.
Qed.

Lemma sort_step o (q : Query) w :
  (if Js.truthy (get_prop "sort" o)
   then sortBy ← split_join (get_prop "sort" o); mret (sort sortBy q)
   else mret (sort "name" q)) w
  = match ordering o with
    | inl e => (inl e, w)
    | inr sortBy => (inr (sort sortBy q), w)
    end.
Proof.
  unfold ordering.
  destruct (get_prop "sort" o) as [[s| |]|]; cbn [Js.truthy]; try reflexivity.
  destruct (negb (String.eqb s "")); reflexivity.
Qed.

Lemma await_run {A : Type} (e : event) (r : exn + A) w :
  await e r w
  = (match r with inr x => inr x | inl err => inl err end,
     with_trace w [e]).
Proof. unfold await, emit, mbind, M_bind. destruct r; reflexivity. Qed.

(** The middleware does what [run_on] lists, on every request, model and
    world. *)
Lemma advancedResults_run model populate_path (req_query : loc) w o :
  heap w !! req_query = Some o ->
  advancedResults model populate_path req_query w
  = run_on model populate_path o w.
Proof.
  intros Hrq.
  pose proof (fresh_not_allocated w) as Hfresh.
  assert (Hne : fresh (dom (heap w)) <> req_query) by congruence.
  assert (Hrq1 : heap (copied w o) !! req_query = Some o).
  { unfold copied; cbn [heap]. now rewrite lookup_insert_ne. }
  unfold advancedResults, run_on.
  (* the copy and the deletions *)
  rewrite (bind_inr _ _ _ _ _ (spread_run req_query w)).
  rewrite Hrq. cbn [default from_option id].
  erewrite bind_inr; [|apply strip_run].
  fold (copied w o).
  erewrite bind_inr;
    [|apply read_object_run; unfold copied; cbn [heap]; apply lookup_insert_eq].
  (* the filter *)
  fold (filter_text o). unfold json_parse. fold (build_filter o).
  destruct (build_filter o) as [filter|]; [|reflexivity].
  erewrite bind_inr; [|reflexivity].
  (* select and sort *)
  erewrite bind_inr; [|apply get_property_run, Hrq1].
  pose proof (select_step o (find filter) (copied w o)) as Hsel.
  destruct (projection o) as [e|fields];
    [now rewrite (bind_inl _ _ _ _ _ Hsel)|].
  rewrite (bind_inr _ _ _ _ _ Hsel). clear Hsel.
  erewrite bind_inr; [|apply get_property_run, Hrq1].
  match goal with |- context [sort "name" ?q] =>
    pose proof (sort_step o q (copied w o)) as Hsort end.
  destruct (ordering o) as [e|sortBy];
    [now rewrite (bind_inl _ _ _ _ _ Hsort)|].
  rewrite (bind_inr _ _ _ _ _ Hsort). clear Hsort.
  (* pagination *)
  erewrite bind_inr; [|apply get_property_run, Hrq1].
  unfold parsed_numbers.
  destruct (Js.parseInt (get_prop "page" o)) as [pg|] eqn:Hpg;
    [|reflexivity].
  erewrite bind_inr; [|reflexivity].
  erewrite bind_inr; [|apply get_property_run, Hrq1].
  destruct (Js.parseInt (get_prop "limit" o)) as [lm|] eqn:Hlm;
    [|reflexivity].
  erewrite bind_inr; [|reflexivity].
  assert (Hpage : page_of o = Js.or_default pg 1)
    by (unfold page_of; now rewrite Hpg).
  assert (Hlimit : limit_of o = Js.or_default lm 1000)
    by (unfold limit_of; now rewrite Hlm).
  rewrite <- Hpage, <- Hlimit.
  fold (startIndex_of o). fold (endIndex_of o).
  pose proof (await_run (CountDocuments None) (countDocuments model None)
                (copied w o)) as Hcount.
  destruct (countDocuments model None) as [e|total];
    [now rewrite (bind_inl _ _ _ _ _ Hcount)|].
  rewrite (bind_inr _ _ _ _ _ Hcount). clear Hcount.
  fold (populated populate_path
          (limit (limit_of o)
             (skip (startIndex_of o)
                (sort sortBy
                   match fields with
                   | Some f => select f (find filter)
                   | None => find filter
                   end)))).
  fold (composed_query populate_path o filter fields sortBy).
  set (q := composed_query populate_path o filter fields sortBy).
  pose proof (await_run (Exec q) (exec model q)
                (with_trace (copied w o) [CountDocuments None])) as Hexec.
  destruct (exec model q) as [e|results].
  - rewrite (bind_inl _ _ _ _ _ Hexec). unfold with_trace; cbn.
    now rewrite <- app_assoc.
  - rewrite (bind_inr _ _ _ _ _ Hexec).
    unfold set_advancedResults, emit, mbind, M_bind, with_trace, pagination_for.
    cbn. now rewrite <- !app_assoc.
Qed.

Lemma new_events_same w h r : new_events w (mkWorld h r (trace w)) = [].
Proof. unfold new_events; cbn [trace]. apply drop_all. Qed.

Lemma new_events_app w h r evs :
  new_events w (mkWorld h r (trace w ++ evs)) = evs.
Proof. unfold new_events; cbn [trace]. apply drop_app_length. Qed.

Lemma new_events_copied w o : new_events w (copied w o) = [].
Proof. apply new_events_same. Qed.

Lemma new_events_with_trace w o evs :
  new_events w (with_trace (copied w o) evs) = evs.
Proof.
  unfold new_events, with_trace, copied; cbn [trace]. apply drop_app_length.
Qed.

(** The parts of the composed query. *)
Lemma composed_query_parts populate_path o filter fields sortBy :
  let q := composed_query populate_path o filter fields sortBy in
  q_filter q = filter /\ q_select q = fields /\ q_sort q = Some sortBy
  /\ q_skip q = Some (startIndex_of o) /\ q_limit q = Some (limit_of o).
Proof.
  unfold composed_query, populated.
  destruct populate_path as [path|]; [destruct (String.eqb path "")|];
    destruct fields; cbn; auto.
Qed.

End WithDoc.

(** [JSON.parse] never throws on the rewritten filter of a request. *)
Lemma build_filter_total (o : object) :
  exists filter, build_filter o = Some filter.
Proof. apply rewritten_text_parses. Qed.

(** [split] is the only step of the projection and of the ordering that
    can throw. *)
Lemma projection_error (o : object) (e : exn) :
  projection o = inl e -> e = TypeError.
Proof.
  unfold projection. destruct (Js.truthy _); [|discriminate].
  destruct (get_prop "select" o) as [[| |]|]; congruence.
Qed.

Lemma ordering_error (o : object) (e : exn) :
  ordering o = inl e -> e = TypeError.
Proof.
  unfold ordering. destruct (Js.truthy _); [|discriminate].
  destruct (get_prop "sort" o) as [[| |]|]; congruence.
Qed.

(** The two [parseInt] throw nothing but a TypeError, and what they
    return is what [page_of] and [limit_of] are made from. *)
Lemma numbers_error (o : object) (e : exn) :
  parsed_numbers o = inl e -> e = TypeError.
Proof.
  unfold parsed_numbers.
  destruct (Js.parseInt (get_prop "page" o)); [|congruence].
  destruct (Js.parseInt (get_prop "limit" o)); congruence.
Qed.

Lemma numbers_returned (o : object) (pg lm : option Z) :
  parsed_numbers o = inr (pg, lm) ->
  Js.parseInt (get_prop "page" o) = Js.Returns pg
  /\ Js.parseInt (get_prop "limit" o) = Js.Returns lm.
Proof.
  unfold parsed_numbers.
  destruct (Js.parseInt (get_prop "page" o)); [|discriminate].
  destruct (Js.parseInt (get_prop "limit" o)); [|discriminate].
  intros [= <- <-]. split; reflexivity.
Qed.

Lemma filter_object_lookup (o : object) (k : string) :
  get_prop k (filter_object o)
  = if existsb (String.eqb k) removeFields then None else get_prop k o.
Proof.
  unfold filter_object, removeFields. cbn [fold_left existsb].
  rewrite !get_delete_prop.
  destruct (String.eqb k "select"), (String.eqb k "sort"),
    (String.eqb k "page"), (String.eqb k "limit"); reflexivity.
Qed.

Lemma filter_object_filter (o : object) :
  filter_object o
  = List.filter (fun kv => negb (existsb (String.eqb (fst kv)) removeFields)) o.
Proof.
  unfold filter_object, removeFields. cbn [fold_left existsb].
  rewrite !delete_prop_filter.
  induction o as [|[a v] o IH]; [reflexivity|].
  cbn [List.filter fst existsb]. rewrite !(String.eqb_sym a).
  destruct (String.eqb "select" a); cbn [negb orb List.filter fst]; [exact IH|].
  destruct (String.eqb "sort" a); cbn [negb orb List.filter fst]; [exact IH|].
  destruct (String.eqb "page" a); cbn [negb orb List.filter fst]; [exact IH|].
  destruct (String.eqb "limit" a); cbn [negb orb List.filter fst]; [exact IH|].
  f_equal. exact IH.
Qed.

(** Splits a run of [advancedResults] into its six ways to end; the
    seventh, a SyntaxError, is excluded by [build_filter_total]. *)
Ltac run_cases Hrq :=
  rewrite (advancedResults_run _ _ _ _ _ Hrq); unfold run_on;
  let filter := fresh "filter" in
  let e := fresh "e" in
  let fields := fresh "fields" in
  let sortBy := fresh "sortBy" in
  let total := fresh "total" in
  let results := fresh "results" in
  let Hfilter := fresh "Hfilter" in
  let Hproj := fresh "Hproj" in
  let Hord := fresh "Hord" in
  let Hnum := fresh "Hnum" in
  let pg := fresh "pg" in
  let lm := fresh "lm" in
  let Hcount := fresh "Hcount" in
  let Hexec := fresh "Hexec" in
  match goal with
  | |- context [build_filter ?o] =>
      destruct (build_filter_total o) as [filter Hfilter]; rewrite Hfilter
  end;
  destruct (projection _) as [e|fields] eqn:Hproj;
  [ | destruct (ordering _) as [e|sortBy] eqn:Hord;
      [ | destruct (parsed_numbers _) as [e|[pg lm]] eqn:Hnum;
          [ | destruct (countDocuments _ None) as [e|total] eqn:Hcount;
              [ | destruct (exec _ _) as [e|results] eqn:Hexec ] ] ] ];
  cbn [fst snd];
  unfold executed;
  rewrite ?new_events_copied, ?new_events_with_trace, ?new_events_app;
  cbn [omap list_omap res_advancedResults heap trace copied with_trace].

End MiddlewareFacts.

(** ** The model on concrete inputs *)

Module Examples.
Import JSON Mongoose Effects Middleware.

Example parseInt_decimal :
  Js.parseInt (Some (JStr "  42")) = Js.Returns (Some 42%Z).
Proof. reflexivity. Qed.

Example parseInt_leading_integer :
  Js.parseInt (Some (JStr "12abc")) = Js.Returns (Some 12%Z).
Proof. reflexivity. Qed.

Example parseInt_truncates :
  Js.parseInt (Some (JStr "2.5")) = Js.Returns (Some 2%Z).
Proof. reflexivity. Qed.

Example parseInt_letters :
  Js.parseInt (Some (JStr "abc")) = Js.Returns None.
Proof. reflexivity. Qed.

Example parseInt_undefined : Js.parseInt None = Js.Returns None.
Proof. reflexivity. Qed.

(** [?page=7&page=8] reaches [parseInt] as the array [['7', '8']]. *)
Example parseInt_array :
  Js.parseInt (Some (JArr [JStr "7"; JStr "8"])) = Js.Returns (Some 7%Z).
Proof. reflexivity. Qed.

Example parseInt_object :
  Js.parseInt (Some (JObj [("a", JStr "1")])) = Js.Returns None.
Proof. reflexivity. Qed.

(** [?page[toString]=1]: the object cannot be converted to a string. *)
Example parseInt_own_toString :
  Js.parseInt (Some (JObj [("toString", JStr "1")])) = Js.Throws.
Proof. reflexivity. Qed.

(** An array is converted element by element. *)
Example parseInt_array_of_unconvertible :
  Js.parseInt (Some (JArr [JStr "7"; JObj [("toString", JStr "1")]]))
  = Js.Throws.
Proof. reflexivity. Qed.

Example split_then_join : Js.join " " (Js.split "," "name,-price") = "name -price".
Proof. reflexivity. Qed.

Example split_empty : Js.split "," "" = [""].
Proof. reflexivity. Qed.

Example rewrite_nested_operator :
  Rewrite.replace_operators (stringify (JObj Samples.price_gt_50))
  = stringify (JObj [("price", JObj [("$gt", JStr "50")])]).
Proof. reflexivity. Qed.

Example rewrite_keeps_longer_words :
  Rewrite.replace_operators "gt gte gtx xgt in_ 1in lt,lte;in"
  = "$gt $gte gtx xgt in_ 1in $lt,$lte;$in".
Proof. reflexivity. Qed.

(** A line feed serialises as a backslash and [n]: the [n] joins the
    word that follows, which is then no operator. *)
Example escape_letter_joins_word :
  build_filter [("q", JStr (String "010" "gt"))]
  = Some (JObj [("q", JStr (String "010" "gt"))]).
Proof. reflexivity. Qed.

(** An operator that already carries its prefix receives a second one:
    [$] is no word character. *)
Example prefixed_operator_rewritten_again :
  build_filter [("price", JObj [("$gt", JStr "50")])]
  = Some (JObj [("price", JObj [("$$gt", JStr "50")])]).
Proof. reflexivity. Qed.

(** [JSON.parse] keeps the last value of a repeated key, at the place of
    the first. *)
Example parse_repeated_key :
  parse (stringify (JObj [("a", JStr "1"); ("b", JStr "2"); ("a", JStr "3")]))
  = Some (JObj [("a", JStr "3"); ("b", JStr "2")]).
Proof. reflexivity. Qed.

Example parse_control_characters :
  parse (stringify (JStr (String "001" (String "009" (String dquote "\")))))
  = Some (JStr (String "001" (String "009" (String dquote "\")))).
Proof. reflexivity. Qed.

Example parse_rejects_open_object : parse "{" = None.
Proof. reflexivity. Qed.

(** [?name=Aurora]: every default applies. *)
Example bare_request_run :
  executed (incoming Samples.bare_request)
    (snd (advancedResults (memory_model Samples.places) (Some "products")
            request_query (incoming Samples.bare_request)))
  = [mkQuery (JObj [("name", JStr "Aurora")]) None (Some "name")
       (Some 0%Z) (Some 1000%Z) (Some "products")].
Proof. reflexivity. Qed.

(** [?select=name&select=price]: [split] is called on an array and
    throws before the database is reached. *)
Example repeated_select_throws :
  let w := incoming Samples.repeated_select in
  let run := advancedResults (constant_model 3 []) None request_query w in
  fst run = inl TypeError
  /\ new_events w (snd run) = []
  /\ res_advancedResults (snd run) = None.
Proof. repeat split. Qed.

(** The in-memory collection rejects the negative skip of [?page=-3]. *)
Example negative_skip_rejected_by_database :
  fst (advancedResults (memory_model Samples.places) None request_query
         (incoming Samples.negative_page))
  = inl (DbError "skip").
Proof. reflexivity. Qed.

End Examples.

(** * The claims of the specification *)

Import JSON Mongoose Effects Middleware.
Import RewriteFacts JSONFacts MiddlewareFacts.

(** ** C1 *)

(** C1.  On a request whose [page] and [limit] parse to integers of at
    least 1, small enough for [(page + 1) * limit] to be a safe integer,
    every number of the pagination step is a safe integer, so that the
    runtime computes it exactly; [startIndex] is [(page - 1) * limit]
    and [endIndex] is [page * limit]; the query that is executed skips
    [startIndex] and is limited to [limit]; and when the run completes,
    the stored pagination holds [next = {page + 1, limit}] exactly when
    [endIndex < total] and [prev = {page - 1, limit}] exactly when
    [startIndex > 0], [total] being what [countDocuments] returned. *)
Theorem pagination_indices_and_links {Doc : Type} (model : Model Doc)
    (populate_path : option string) (req_query : loc) (w : world Doc)
    (o : object) (page limit : Z) :
  heap w !! req_query = Some o ->
  Js.parseInt (get_prop "page" o) = Js.Returns (Some page) ->
  Js.parseInt (get_prop "limit" o) = Js.Returns (Some limit) ->
  (1 <= page)%Z -> (1 <= limit)%Z ->
  Js.safe ((page + 1) * limit) ->
  let run := advancedResults model populate_path req_query w in
  (Js.safe page /\ Js.safe limit /\ Js.safe (page - 1) /\ Js.safe (page + 1)
   /\ Js.safe ((page - 1) * limit) /\ Js.safe (page * limit))
  /\ startIndex_of o = ((page - 1) * limit)%Z
  /\ endIndex_of o = (page * limit)%Z
  /\ (forall q, In q (executed w (snd run)) ->
        q_skip q = Some ((page - 1) * limit)%Z /\ q_limit q = Some limit)
  /\ (fst run = inr tt ->
      exists total resp,
        countDocuments model None = inr total
        /\ res_advancedResults (snd run) = Some resp
        /\ (next (pagination resp) = Some (mkPageRef (page + 1) limit)
            <-> (page * limit < total)%Z)
        /\ (next (pagination resp) = None <-> ~ (page * limit < total)%Z)
        /\ (prev (pagination resp) = Some (mkPageRef (page - 1) limit)
            <-> ((page - 1) * limit > 0)%Z)
        /\ (prev (pagination resp) = None <-> ~ ((page - 1) * limit > 0)%Z)).
Proof.
  intros Hrq Hpage Hlimit Hp Hl Hsafe run.
  assert (Hpo : page_of o = page).
  { unfold page_of. rewrite Hpage. destruct page; (reflexivity || lia). }
  assert (Hlo : limit_of o = limit).
  { unfold limit_of. rewrite Hlimit. destruct limit; (reflexivity || lia). }
  assert (Hs : startIndex_of o = ((page - 1) * limit)%Z).
  { unfold startIndex_of. now rewrite Hpo, Hlo. }
  assert (He : endIndex_of o = (page * limit)%Z).
  { unfold endIndex_of. now rewrite Hpo, Hlo. }
  split; [unfold Js.safe, Js.MAX_SAFE_INTEGER in *; repeat split; nia|].
  split; [exact Hs|]. split; [exact He|].
  subst run. run_cases Hrq.
  all: split; [intros q Hq; cbn [In] in Hq | try discriminate].
  all: try contradiction.
  1, 2: destruct Hq as [<-|[]];
    destruct (composed_query_parts populate_path o filter fields sortBy)
      as (_ & _ & _ & Hskip & Hlim);
    rewrite Hskip, Hlim, Hs, Hlo; auto.
  - intros _. exists total. eexists. split; [reflexivity|].
    split; [reflexivity|]. cbn [pagination pagination_for next prev].
    rewrite Hs, He, Hpo, Hlo.
    destruct (Z.ltb_spec (page * limit) total);
      destruct (Z.gtb_spec ((page - 1) * limit) 0);
      repeat split; intros; try congruence; try lia; try reflexivity.
Qed.

(** A request for the second page of the sample collection, one place
    per page. *)
Lemma pagination_indices_and_links_witness :
  (1 <= 2)%Z /\ (1 <= 1)%Z
  /\ startIndex_of Samples.second_page = ((2 - 1) * 1)%Z
  /\ endIndex_of Samples.second_page = (2 * 1)%Z.
Proof.
  split; [lia|]. split; [lia|].
  pose proof (pagination_indices_and_links (memory_model Samples.places) None
                request_query (incoming Samples.second_page)
                Samples.second_page 2 1) as H.
  destruct H as (_ & Hs & He & _);
    [reflexivity .. | lia | lia
    | unfold Js.safe, Js.MAX_SAFE_INTEGER; lia |].
  split; [exact Hs | exact He].
Defined.

(** ** C2 *)

(** C2.  The only count a run issues is [countDocuments()] with no
    filter, and the pagination stored by a completed run is computed
    from its result; that result does not depend on the request, and the
    pagination depends on the request through [page] and [limit] only.
    On the sample collection, [?price=60&limit=1] matches one document
    out of three: the total used is 3, not 1, so a [next] page is
    announced. *)
Theorem total_counts_whole_collection :
  (forall (Doc : Type) (model : Model Doc) (populate_path : option string)
          (req_query : loc) (w : world Doc) (o : object),
      heap w !! req_query = Some o ->
      let run := advancedResults model populate_path req_query w in
      (forall f, In (CountDocuments f) (new_events w (snd run)) -> f = None)
      /\ (fst run = inr tt ->
          exists total resp,
            countDocuments model None = inr total
            /\ res_advancedResults (snd run) = Some resp
            /\ pagination resp = pagination_for o total))
  /\ (forall (o o' : object) (total : Z),
        get_prop "page" o = get_prop "page" o' ->
        get_prop "limit" o = get_prop "limit" o' ->
        pagination_for o total = pagination_for o' total)
  /\ (let w := incoming Samples.priced_sixty in
      let run := advancedResults (memory_model Samples.places) None
                   request_query w in
      let filter := JObj [("price", JStr "60")] in
      fst run = inr tt
      /\ List.map q_filter (executed w (snd run)) = [filter]
      /\ memory_count Samples.places (Some filter) = inr 1%Z
      /\ memory_count Samples.places None = inr 3%Z
      /\ exists resp,
           res_advancedResults (snd run) = Some resp
           /\ count resp = 1%nat
           /\ pagination resp = pagination_for Samples.priced_sixty 3
           /\ next (pagination resp) = Some (mkPageRef 2 1)
           /\ next (pagination_for Samples.priced_sixty 1) = None).
Proof.
  split; [|split].
  - intros Doc model populate_path req_query w o Hrq run. subst run.
    run_cases Hrq.
    all: split; [intros f Hf; cbn [In] in Hf | try discriminate].
    all: try contradiction.
    + destruct Hf as [[= <-]|[]]. reflexivity.
    + destruct Hf as [[= <-]|[Hf|[]]]; [reflexivity | discriminate].
    + destruct Hf as [[= <-]|[Hf|[Hf|[]]]]; [reflexivity | discriminate ..].
    + intros _. exists total. eexists. repeat split; reflexivity.
  - intros o o' total Hp Hl.
    unfold pagination_for, endIndex_of, startIndex_of, page_of, limit_of.
    now rewrite Hp, Hl.
  - vm_compute. repeat split. eexists. repeat split.
Qed.

(** The count on the sample collection, for [?price=60&limit=1]. *)
Lemma total_counts_whole_collection_witness :
  exists total resp,
    countDocuments (memory_model Samples.places) None = inr total
    /\ res_advancedResults
         (snd (advancedResults (memory_model Samples.places) None
                 request_query (incoming Samples.priced_sixty)))
       = Some resp
    /\ pagination resp = pagination_for Samples.priced_sixty total.
Proof.
  destruct total_counts_whole_collection as (H & _).
  destruct (H _ (memory_model Samples.places) None request_query
              (incoming Samples.priced_sixty) Samples.priced_sixty eq_refl)
    as (_ & Hdone).
  apply Hdone. reflexivity.
Defined.

(** ** C3 *)

(** C3.  The rewrite works on the serialised filter: the scan of the
    regular expression produces exactly the text in which every maximal
    run of word characters equal to [gt], [gte], [lt], [lte] or [in] has
    received a [$]; an operator word between two word boundaries is
    prefixed wherever it stands; the query that is executed carries the
    parse of that text.  [price[gt]=50] yields [{price: {$gt: "50"}}]
    with the string kept, and the word [in] inside the value of
    [?q=made in italy] is rewritten as well. *)
Theorem operator_rewrite_on_serialised_text :
  (forall text : string,
      Rewrite.replace_operators text = Rewrite.rewrite_standalone text)
  /\ (forall pre w post : string,
        Rewrite.is_operator w = true ->
        Rewrite.ends_with_word pre = false ->
        Rewrite.starts_with_word post = false ->
        Rewrite.replace_operators (pre ++ w ++ post)
        = Rewrite.replace_operators pre ++ ("$" ++ w)
          ++ Rewrite.replace_operators post)
  /\ (forall (Doc : Type) (model : Model Doc) (populate_path : option string)
             (req_query : loc) (w : world Doc) (o : object),
        heap w !! req_query = Some o ->
        let run := advancedResults model populate_path req_query w in
        forall q, In q (executed w (snd run)) ->
          parse (Rewrite.replace_operators (stringify (JObj (filter_object o))))
          = Some (q_filter q))
  /\ build_filter Samples.price_gt_50
     = Some (JObj [("price", JObj [("$gt", JStr "50")])])
  /\ List.map q_filter
       (executed (incoming Samples.price_gt_50)
          (snd (advancedResults (memory_model Samples.places) None
                  request_query (incoming Samples.price_gt_50))))
     = [JObj [("price", JObj [("$gt", JStr "50")])]]
  /\ build_filter Samples.made_in_italy
     = Some (JObj [("q", JStr "made $in italy")]).
Proof.
  split; [exact replace_operators_standalone|].
  split.
  { intros pre w post Hw Hpre Hpost.
    rewrite !replace_operators_standalone.
    now apply rewrite_occurrence. }
  split.
  { intros Doc model populate_path req_query w o Hrq run q. subst run.
    run_cases Hrq; intros Hq; cbn [In] in Hq; try contradiction.
    all: destruct Hq as [<-|[]].
    all: destruct (composed_query_parts populate_path o filter fields sortBy)
           as (-> & _); exact Hfilter. }
  repeat split; vm_compute; reflexivity.
Qed.

(** The operator between a brace and a colon. *)
Lemma operator_rewrite_on_serialised_text_witness :
  Rewrite.is_operator "gte" = true
  /\ Rewrite.ends_with_word "{" = false
  /\ Rewrite.starts_with_word ":50}" = false
  /\ Rewrite.replace_operators ("{" ++ "gte" ++ ":50}")
     = Rewrite.replace_operators "{" ++ ("$" ++ "gte")
       ++ Rewrite.replace_operators ":50}".
Proof.
  destruct operator_rewrite_on_serialised_text as (_ & H & _).
  split; [reflexivity|]. split; [reflexivity|]. split; [reflexivity|].
  apply H; reflexivity.
Defined.

(** ** C4 *)

(** C4.  A filter object whose serialised form holds no operator word
    standing alone comes back unchanged from serialise, rewrite, parse;
    when it is the filter object of a request, it is the filter of that
    request. *)
Theorem round_trip_without_operator_words (F : object) :
  well_formed (JObj F) = true ->
  Rewrite.no_standalone_operator (stringify (JObj F)) = true ->
  parse (Rewrite.replace_operators (stringify (JObj F))) = Some (JObj F)
  /\ (forall o, filter_object o = F -> build_filter o = Some (JObj F)).
Proof.
  intros Hwf Hnone.
  assert (H : parse (Rewrite.replace_operators (stringify (JObj F)))
              = Some (JObj F)).
  { rewrite replace_operators_standalone, rewrite_no_operator by exact Hnone.
    now apply parse_stringify. }
  split; [exact H|].
  intros o <-. exact H.
Qed.

Lemma round_trip_without_operator_words_witness :
  well_formed (JObj Samples.plain_equality) = true
  /\ Rewrite.no_standalone_operator (stringify (JObj Samples.plain_equality)) = true
  /\ parse (Rewrite.replace_operators (stringify (JObj Samples.plain_equality)))
     = Some (JObj Samples.plain_equality).
Proof.
  split; [reflexivity|]. split; [reflexivity|].
  apply (round_trip_without_operator_words Samples.plain_equality);
    reflexivity.
Defined.

(** ** C5 *)

(** C5.  The reserved keys are exactly [select], [sort], [page] and
    [limit], four of them; the filter object holds every other parameter
    of the query mapping with its value, in order, and none of the four;
    it is the object the middleware builds as its copy. *)
Theorem filter_extraction_drops_reserved_keys :
  removeFields = ["select"; "sort"; "page"; "limit"]
  /\ (forall (o : object) (k : string),
        In k removeFields -> get_prop k (filter_object o) = None)
  /\ (forall (o : object) (k : string),
        ~ In k removeFields -> get_prop k (filter_object o) = get_prop k o)
  /\ (forall o : object,
        filter_object o
        = List.filter
            (fun kv => negb (existsb (String.eqb (fst kv)) removeFields)) o)
  /\ (forall (Doc : Type) (model : Model Doc) (populate_path : option string)
             (req_query : loc) (w : world Doc) (o : object),
        heap w !! req_query = Some o ->
        heap (snd (advancedResults model populate_path req_query w))
          !! fresh (dom (heap w))
        = Some (filter_object o)).
Proof.
  split; [reflexivity|].
  split.
  { intros o k Hk. rewrite filter_object_lookup.
    assert (H : existsb (String.eqb k) removeFields = true).
    { apply existsb_exists. exists k. split; [exact Hk | apply String.eqb_refl]. }
    now rewrite H. }
  split.
  { intros o k Hk. rewrite filter_object_lookup.
    destruct (existsb (String.eqb k) removeFields) eqn:H; [|reflexivity].
    apply existsb_exists in H as (k' & Hin & Heq).
    apply String.eqb_eq in Heq as ->. contradiction. }
  split; [exact filter_object_filter|].
  intros Doc model populate_path req_query w o Hrq.
  run_cases Hrq; apply lookup_insert_eq.
Qed.

(** The copy made for the full sample request. *)
Lemma filter_extraction_drops_reserved_keys_witness :
  get_prop "sort" (filter_object Samples.full_request) = None
  /\ get_prop "name" (filter_object Samples.full_request)
     = get_prop "name" Samples.full_request
  /\ heap (snd (advancedResults (memory_model Samples.places) None
                  request_query (incoming Samples.full_request)))
       !! fresh (dom (heap (incoming Samples.full_request)))
     = Some (filter_object Samples.full_request).
Proof.
  destruct filter_extraction_drops_reserved_keys as (_ & Hin & Hout & _ & Hrun).
  split; [apply Hin; cbn; auto|].
  split; [apply Hout; cbn; intuition discriminate|].
  apply Hrun. reflexivity.
Defined.

(** ** C6 *)

(** C6, as amended.  Without a [sort] parameter the executed query is
    sorted by [name].  The page is 1 when [page] is absent or [parseInt]
    makes no number of it, and the limit is 1000 when [limit] is absent
    or [parseInt] makes no number of it.  A text that begins with a
    safe integer other than 0 is not defaulted, whatever follows the
    integer: that integer is the page, or the limit.  Every numeric
    text begins with an integer, so only texts that are not numeric are
    defaulted, but not all of them.  The executed query skips and is
    limited by the page and the limit so obtained, the numbers being
    safe integers. *)
Theorem defaults_for_sort_page_limit {Doc : Type} (model : Model Doc)
    (populate_path : option string) (req_query : loc) (w : world Doc)
    (o : object) :
  heap w !! req_query = Some o ->
  let run := advancedResults model populate_path req_query w in
  (get_prop "sort" o = None ->
     forall q, In q (executed w (snd run)) -> q_sort q = Some "name")
  /\ (get_prop "page" o = None -> page_of o = 1%Z)
  /\ (Js.parseInt (get_prop "page" o) = Js.Returns None -> page_of o = 1%Z)
  /\ (get_prop "limit" o = None -> limit_of o = 1000%Z)
  /\ (Js.parseInt (get_prop "limit" o) = Js.Returns None ->
      limit_of o = 1000%Z)
  /\ (forall n, Js.parseInt (get_prop "page" o) = Js.Returns (Some n) ->
        Js.safe n -> n <> 0%Z -> page_of o = n)
  /\ (forall n, Js.parseInt (get_prop "limit" o) = Js.Returns (Some n) ->
        Js.safe n -> n <> 0%Z -> limit_of o = n)
  /\ (forall s, Wording.numeric s = true ->
        exists n, Js.parseInt (Some (JStr s)) = Js.Returns (Some n))
  /\ (forall q, In q (executed w (snd run)) -> safe_numbers o ->
        q_skip q = Some ((page_of o - 1) * limit_of o)%Z
        /\ q_limit q = Some (limit_of o)).
Proof.
  intros Hrq run.
  assert (Hquery : forall q, In q (executed w (snd run)) ->
            exists filter fields sortBy,
              ordering o = inr sortBy
              /\ q = composed_query populate_path o filter fields sortBy).
  { subst run. run_cases Hrq; intros q Hq; cbn [In] in Hq; try contradiction.
    all: destruct Hq as [<-|[]]; eauto. }
  split.
  { intros Hsort q Hq. destruct (Hquery q Hq) as (f & fs & s & Hord & ->).
    unfold ordering in Hord. rewrite Hsort in Hord. cbn in Hord.
    injection Hord as <-.
    now destruct (composed_query_parts populate_path o f fs "name")
      as (_ & _ & -> & _). }
  split; [intros H; unfold page_of; now rewrite H|].
  split; [intros H; unfold page_of; now rewrite H|].
  split; [intros H; unfold limit_of; now rewrite H|].
  split; [intros H; unfold limit_of; now rewrite H|].
  split.
  { intros n H _ Hn. unfold page_of. rewrite H. now destruct n. }
  split.
  { intros n H _ Hn. unfold limit_of. rewrite H. now destruct n. }
  split.
  { intros s Hs. unfold Wording.numeric in Hs.
    apply andb_true_iff in Hs as [Hdigit _].
    cbn [Js.parseInt Js.to_string Js.to_string_json].
    unfold Js.parse_int_string.
    assert (Hskip : Js.skip_spaces s = s).
    { destruct s as [|c r]; [reflexivity|]. cbn [Js.skip_spaces].
      destruct (Js.is_space c) eqn:Hc; [|reflexivity]. exfalso.
      revert Hdigit Hc. unfold Wording.unsigned, Js.starts_with_digit.
      destruct c as [[] [] [] [] [] [] [] []]; vm_compute; try discriminate;
        destruct r as [|[[] [] [] [] [] [] [] []] r]; vm_compute;
        discriminate. }
    rewrite Hskip. unfold Wording.unsigned in Hdigit.
    destruct s as [|c r]; [discriminate Hdigit|].
    destruct (Ascii.eqb_spec c "-") as [->|Hminus].
    { rewrite Hdigit. eauto. }
    destruct (Ascii.eqb_spec c "+") as [->|Hplus].
    { rewrite Hdigit. eauto. }
    assert (Hsame : match c with
                    | "-"%char => r | "+"%char => r | _ => String c r
                    end = String c r).
    { destruct c as [[] [] [] [] [] [] [] []]; try reflexivity; congruence. }
    rewrite Hsame in Hdigit.
    assert (Hpair : match String c r with
                    | String "-" r0 => (true, r0)
                    | String "+" r0 => (false, r0)
                    | _ => (false, String c r)
                    end = (false, String c r)).
    { destruct c as [[] [] [] [] [] [] [] []]; try reflexivity; congruence. }
    rewrite Hpair, Hdigit. eauto. }
  intros q Hq _. destruct (Hquery q Hq) as (f & fs & s & _ & ->).
  destruct (composed_query_parts populate_path o f fs s)
    as (_ & _ & _ & -> & ->). auto.
Qed.

Lemma defaults_for_sort_page_limit_witness :
  page_of Samples.non_numeric = 1%Z
  /\ limit_of Samples.non_numeric = 1000%Z
  /\ List.map q_sort
       (executed (incoming Samples.non_numeric)
          (snd (advancedResults (memory_model Samples.places) None
                  request_query (incoming Samples.non_numeric))))
     = [Some "name"].
Proof.
  pose proof (defaults_for_sort_page_limit (memory_model Samples.places) None
                request_query (incoming Samples.non_numeric)
                Samples.non_numeric eq_refl) as H.
  cbv zeta in H. destruct H as (_ & _ & Hpage & _ & Hlimit & _).
  split; [apply Hpage; reflexivity|]. split; [apply Hlimit; reflexivity|].
  reflexivity.
Defined.

(** The claim as the specification words it fails: [12abc] and
    [7 items] are not numeric, and the run on [?page=12abc&limit=7 items]
    uses page 12 and limit 7, not 1 and 1000: its query skips 77
    documents and is limited to 7. *)
Lemma non_numeric_values_are_not_defaulted :
  Wording.numeric "12abc" = false
  /\ Wording.numeric "7 items" = false
  /\ page_of MoreSamples.leading_integers = 12%Z
  /\ limit_of MoreSamples.leading_integers = 7%Z
  /\ List.map (fun q => (q_skip q, q_limit q))
       (executed (incoming MoreSamples.leading_integers)
          (snd (advancedResults (memory_model Samples.places) None
                  request_query (incoming MoreSamples.leading_integers))))
     = [(Some 77%Z, Some 7%Z)]
  /\ ~ (forall (o : object) (s : string),
          get_prop "page" o = Some (JStr s) -> Wording.numeric s = false ->
          page_of o = 1%Z)
  /\ ~ (forall (o : object) (s : string),
          get_prop "limit" o = Some (JStr s) -> Wording.numeric s = false ->
          limit_of o = 1000%Z).
Proof.
  split; [reflexivity|]. split; [reflexivity|].
  split; [reflexivity|]. split; [reflexivity|].
  split; [reflexivity|]. split.
  - intros H.
    specialize (H MoreSamples.leading_integers "12abc" eq_refl eq_refl).
    discriminate H.
  - intros H.
    specialize (H MoreSamples.leading_integers "7 items" eq_refl eq_refl).
    discriminate H.
Qed.

(** ** C7 *)




(** ** C8 *)



(** ** C9 *)

(** C9.  A [page] that parses to zero gives page 1 and a [limit] that
    parses to zero gives limit 1000, as [page=0] and [limit=0] do; the
    page and the limit of a request are never zero, and no executed
    query has a limit of zero. *)
Theorem zero_page_or_limit_takes_default {Doc : Type} (model : Model Doc)
    (populate_path : option string) (req_query : loc) (w : world Doc)
    (o : object) :
  heap w !! req_query = Some o ->
  let run := advancedResults model populate_path req_query w in
  (Js.parseInt (get_prop "page" o) = Js.Returns (Some 0%Z) ->
   page_of o = 1%Z)
  /\ (Js.parseInt (get_prop "limit" o) = Js.Returns (Some 0%Z) ->
      limit_of o = 1000%Z)
  /\ page_of o <> 0%Z
  /\ limit_of o <> 0%Z
  /\ (forall q, In q (executed w (snd run)) ->
        q_limit q = Some (limit_of o) /\ q_limit q <> Some 0%Z)
  /\ Js.parseInt (Some (JStr "0")) = Js.Returns (Some 0%Z).
Proof.
  intros Hrq run.
  assert (Hnz : forall n d, d <> 0%Z -> Js.or_default n d <> 0%Z).
  { intros [[| |]|] d Hd; cbn; (exact Hd || discriminate). }
  split; [intros H; unfold page_of; now rewrite H|].
  split; [intros H; unfold limit_of; now rewrite H|].
  split.
  { unfold page_of. destruct (Js.parseInt _); [apply Hnz|]; discriminate. }
  assert (Hl : limit_of o <> 0%Z).
  { unfold limit_of. destruct (Js.parseInt _); [apply Hnz|]; discriminate. }
  split; [exact Hl|].
  split; [|reflexivity].
  subst run. run_cases Hrq; intros q Hq; cbn [In] in Hq; try contradiction.
  all: destruct Hq as [<-|[]].
  all: destruct (composed_query_parts populate_path o filter fields sortBy)
         as (_ & _ & _ & _ & ->).
  all: split; [reflexivity | congruence].
Qed.

Lemma zero_page_or_limit_takes_default_witness :
  page_of Samples.zero_page = 1%Z
  /\ limit_of Samples.zero_page = 1000%Z
  /\ List.map q_limit
       (executed (incoming Samples.zero_page)
          (snd (advancedResults (memory_model Samples.places) None
                  request_query (incoming Samples.zero_page))))
     = [Some 1000%Z].
Proof.
  pose proof (zero_page_or_limit_takes_default (memory_model Samples.places)
                None request_query (incoming Samples.zero_page)
                Samples.zero_page eq_refl) as H.
  cbv zeta in H. destruct H as (Hp & Hl & _).
  split; [apply Hp; reflexivity|]. split; [apply Hl; reflexivity|].
  reflexivity.
Defined.

(** ** C10 *)

(** C10.  Whatever the outcome of a run, every object that was on the
    heap before it is unchanged, [req.query] among them; the reserved
    keys are deleted from a newly allocated copy; and the projection and
    the sort of the executed query are computed from [select] and [sort]
    of the original mapping, which the copy no longer holds. *)
Theorem request_query_not_mutated {Doc : Type} (model : Model Doc)
    (populate_path : option string) (req_query : loc) (w : world Doc)
    (o : object) :
  heap w !! req_query = Some o ->
  let run := advancedResults model populate_path req_query w in
  heap (snd run) !! req_query = Some o
  /\ (forall l x, heap w !! l = Some x -> heap (snd run) !! l = Some x)
  /\ (exists copy,
        copy <> req_query
        /\ heap w !! copy = None
        /\ heap (snd run) !! copy = Some (filter_object o))
  /\ get_prop "select" (filter_object o) = None
  /\ get_prop "sort" (filter_object o) = None
  /\ (forall q, In q (executed w (snd run)) ->
        projection o = inr (q_select q)
        /\ exists sortBy, ordering o = inr sortBy /\ q_sort q = Some sortBy)
  /\ (forall s q, get_prop "select" o = Some (JStr s) -> s <> "" ->
        In q (executed w (snd run)) ->
        q_select q = Some (Js.join " " (Js.split "," s)))
  /\ (forall s q, get_prop "sort" o = Some (JStr s) -> s <> "" ->
        In q (executed w (snd run)) ->
        q_sort q = Some (Js.join " " (Js.split "," s))).
Proof.
  intros Hrq run.
  pose proof (fresh_not_allocated w) as Hfresh.
  assert (Hkeep : forall l x, heap w !! l = Some x ->
            heap (snd run) !! l = Some x).
  { intros l x Hl.
    assert (Hne : fresh (dom (heap w)) <> l) by congruence.
    subst run. run_cases Hrq; now rewrite lookup_insert_ne. }
  assert (Hquery : forall q, In q (executed w (snd run)) ->
            exists filter fields sortBy,
              projection o = inr fields /\ ordering o = inr sortBy
              /\ q = composed_query populate_path o filter fields sortBy).
  { subst run. run_cases Hrq; intros q Hq; cbn [In] in Hq; try contradiction.
    all: destruct Hq as [<-|[]]; eauto 6. }
  split; [now apply Hkeep|]. split; [exact Hkeep|].
  split.
  { exists (fresh (dom (heap w))). split; [congruence|]. split; [exact Hfresh|].
    subst run. run_cases Hrq; apply lookup_insert_eq. }
  split; [now rewrite filter_object_lookup|].
  split; [now rewrite filter_object_lookup|].
  split.
  { intros q Hq. destruct (Hquery q Hq) as (f & fs & s & Hp & Ho & ->).
    destruct (composed_query_parts populate_path o f fs s)
      as (_ & -> & -> & _). eauto. }
  split.
  - intros s q Hs Hne Hq. destruct (Hquery q Hq) as (f & fs & sb & Hp & _ & ->).
    destruct (composed_query_parts populate_path o f fs sb) as (_ & -> & _).
    unfold projection in Hp. rewrite Hs in Hp. cbn in Hp.
    destruct (String.eqb_spec s ""); [contradiction|]. cbn in Hp. congruence.
  - intros s q Hs Hne Hq. destruct (Hquery q Hq) as (f & fs & sb & _ & Ho & ->).
    destruct (composed_query_parts populate_path o f fs sb)
      as (_ & _ & -> & _).
    unfold ordering in Ho. rewrite Hs in Ho. cbn in Ho.
    destruct (String.eqb_spec s ""); [contradiction|]. cbn in Ho. congruence.
Qed.

Lemma request_query_not_mutated_witness :
  (let w := incoming Samples.full_request in
   let run := advancedResults (memory_model Samples.places) None
                request_query w in
   heap (snd run) !! request_query = Some Samples.full_request)
  /\ List.map (fun q => (q_select q, q_sort q))
       (executed (incoming Samples.full_request)
          (snd (advancedResults (memory_model Samples.places) None
                  request_query (incoming Samples.full_request))))
     = [(Some "name price", Some "-price name")].
Proof.
  pose proof (request_query_not_mutated (memory_model Samples.places) None
                request_query (incoming Samples.full_request)
                Samples.full_request eq_refl) as H.
  cbv zeta in H. destruct H as (Hkept & _).
  split; [exact Hkept | reflexivity].
Defined.

(** * Further properties of the middleware *)

Module MiddlewareExtras.
Import Text QueryValue.

Lemma split_nonempty (sep : ascii) (s : string) : Js.split sep s <> [].
Proof.
  destruct s as [|c s]; cbn; [discriminate|].
  destruct (Ascii.eqb c sep); [discriminate|].
  destruct (Js.split sep s); discriminate.
Qed.

Lemma join_cons (sep x : string) (y : string) (l : list string) :
  Js.join sep (x :: y :: l) = x ++ sep ++ Js.join sep (y :: l).
Proof. reflexivity. Qed.

Lemma join_cons_char (sep : string) (c : ascii) (w : string) (ws : list string) :
  Js.join sep (String c w :: ws) = String c (Js.join sep (w :: ws)).
Proof. destruct ws; reflexivity. Qed.

Lemma join_split_replace (s : string) :
  Js.join " " (Js.split "," s) = replace_char "," " " s.
Proof.
  induction s as [|c s IH]; [reflexivity|].
  cbn [Js.split replace_char].
  destruct (Ascii.eqb c ",").
  - destruct (Js.split "," s) as [|w ws] eqn:Hs;
      [now apply split_nonempty in Hs|].
    rewrite join_cons, IH. reflexivity.
  - destruct (Js.split "," s) as [|w ws] eqn:Hs;
      [now apply split_nonempty in Hs|].
    now rewrite join_cons_char, IH.
Qed.

Lemma replace_char_length (a b : ascii) (s : string) :
  String.length (replace_char a b s) = String.length s.
Proof. induction s as [|c s IH]; cbn; [reflexivity | now rewrite IH]. Qed.

Lemma replace_char_gone (a b : ascii) (s : string) :
  a <> b -> occurs a (replace_char a b s) = false.
Proof.
  intros Hab. induction s as [|c s IH]; [reflexivity|].
  cbn. rewrite IH, orb_false_r.
  destruct (Ascii.eqb_spec c a) as [->|Hc].
  - destruct (Ascii.eqb_spec b a); congruence.
  - destruct (Ascii.eqb_spec c a); congruence.
Qed.

End MiddlewareExtras.

Section RunFacts.
Context {Doc : Type}.
Implicit Types (model : Model Doc) (w : world Doc) (o : object).

(** Every executed query is the composed one, and it is executed after
    the projection and the ordering were computed. *)
Lemma executed_query model populate_path (req_query : loc) w o q :
  heap w !! req_query = Some o ->
  In q (executed w (snd (advancedResults model populate_path req_query w))) ->
  exists filter fields sortBy,
    build_filter o = Some filter
    /\ projection o = inr fields
    /\ ordering o = inr sortBy
    /\ q = composed_query populate_path o filter fields sortBy
    /\ q_filter q = filter /\ q_select q = fields /\ q_sort q = Some sortBy.
Proof.
  intros Hrq. run_cases Hrq; intros Hq; cbn [In] in Hq; try contradiction.
  all: destruct Hq as [<-|[]].
  all: destruct (composed_query_parts populate_path o filter fields sortBy)
         as (Hf & Hs & Ho & _).
  all: exists filter, fields, sortBy; auto 10.
Qed.

Lemma projection_usable o :
  (exists fields, projection o = inr fields)
  <-> QueryValue.usable (get_prop "select" o) = true.
Proof.
  unfold projection, QueryValue.usable.
  destruct (get_prop "select" o) as [[s| |]|]; cbn.
  - destruct (negb (String.eqb s "")); split; eauto.
  - split; [intros [? ?]; discriminate | discriminate].
  - split; [intros [? ?]; discriminate | discriminate].
  - split; eauto.
Qed.

Lemma ordering_usable o :
  (exists sortBy, ordering o = inr sortBy)
  <-> QueryValue.usable (get_prop "sort" o) = true.
Proof.
  unfold ordering, QueryValue.usable.
  destruct (get_prop "sort" o) as [[s| |]|]; cbn.
  - destruct (negb (String.eqb s "")); split; eauto.
  - split; [intros [? ?]; discriminate | discriminate].
  - split; [intros [? ?]; discriminate | discriminate].
  - split; eauto.
Qed.

Lemma numbers_convertible o :
  (exists numbers, parsed_numbers o = inr numbers)
  <-> QueryValue.convertible (get_prop "page" o)
      && QueryValue.convertible (get_prop "limit" o) = true.
Proof.
  unfold parsed_numbers, QueryValue.convertible, Js.parseInt.
  destruct (Js.to_string (get_prop "page" o));
    destruct (Js.to_string (get_prop "limit" o)); cbn [andb];
    split; eauto; try discriminate; intros [? ?]; discriminate.
Qed.

End RunFacts.

(** ** X1 *)

(** X1.  [JSON.parse] cannot throw in the middleware: whatever the value,
    its serialised text still parses after the operator rewrite.  A run
    that ends in a SyntaxError therefore received it from the database. *)
Theorem rewritten_filter_always_parses :
  (forall v : json,
      exists v', parse (Rewrite.replace_operators (stringify v)) = Some v')
  /\ (forall (Doc : Type) (model : Model Doc) (populate_path : option string)
             (req_query : loc) (w : world Doc) (o : object),
        heap w !! req_query = Some o ->
        let run := advancedResults model populate_path req_query w in
        fst run = inl SyntaxError ->
        countDocuments model None = inl SyntaxError
        \/ exists q, In q (executed w (snd run))
                     /\ exec model q = inl SyntaxError).
Proof.
  split; [exact FilterFacts.rewritten_text_parses|].
  intros Doc model populate_path req_query w o Hrq run. subst run.
  run_cases Hrq; intros [= Herr]; subst.
  - now apply projection_error in Hproj.
  - now apply ordering_error in Hord.
  - now apply numbers_error in Hnum.
  - now left.
  - right. eexists. split; [left; reflexivity | exact Hexec].
Qed.

(** ** X2 *)

(** X2.  A [select] or a [sort] that is an array or an object, and a
    [page] or a [limit] that cannot be converted to a string, make the
    run end in a TypeError before any database operation, with nothing
    stored and the next handler not called; in every other run the count
    is the first thing issued. *)
Theorem unusable_select_or_sort_throws {Doc : Type} (model : Model Doc)
    (populate_path : option string) (req_query : loc) (w : world Doc)
    (o : object) :
  heap w !! req_query = Some o ->
  let run := advancedResults model populate_path req_query w in
  let ok := QueryValue.usable (get_prop "select" o)
            && QueryValue.usable (get_prop "sort" o)
            && (QueryValue.convertible (get_prop "page" o)
                && QueryValue.convertible (get_prop "limit" o)) in
  (ok = false ->
     fst run = inl TypeError
     /\ new_events w (snd run) = []
     /\ res_advancedResults (snd run) = res_advancedResults w)
  /\ (ok = true ->
      List.hd_error (new_events w (snd run)) = Some (CountDocuments None)).
Proof.
  intros Hrq run ok.
  assert (Hok : ok = true
                <-> (exists fields, projection o = inr fields)
                    /\ (exists sortBy, ordering o = inr sortBy)
                    /\ (exists numbers, parsed_numbers o = inr numbers)).
  { subst ok.
    rewrite (projection_usable o), (ordering_usable o),
      (numbers_convertible o), !andb_true_iff. tauto. }
  subst run. run_cases Hrq.
  all: try (apply projection_error in Hproj as Herr; subst e).
  all: try (apply ordering_error in Hord as Herr; subst e).
  all: try (apply numbers_error in Hnum as Herr; subst e).
  all: split; intros H.
  all: try (repeat split; reflexivity).
  all: try (apply Hok in H; destruct H as ([? ?] & [? ?] & [? ?]); congruence).
  all: exfalso;
    assert (Hyes : ok = true)
      by (apply Hok; repeat split; eexists; reflexivity);
    congruence.
Qed.

Lemma unusable_select_or_sort_throws_witness :
  (let w := incoming MoreSamples.nested_sort in
   let run := advancedResults (constant_model 3 []) None request_query w in
   fst run = inl TypeError /\ new_events w (snd run) = [])
  /\ (let w := incoming Samples.repeated_select in
      fst (advancedResults (constant_model 3 []) None request_query w)
      = inl TypeError)
  /\ (let w := incoming MoreSamples.own_toString in
      fst (advancedResults (constant_model 3 []) None request_query w)
      = inl TypeError).
Proof.
  split; [|split].
  - pose proof (unusable_select_or_sort_throws (constant_model 3 []) None
                  request_query (incoming MoreSamples.nested_sort)
                  MoreSamples.nested_sort eq_refl) as H.
    cbv zeta in H. destruct H as (H & _).
    destruct (H eq_refl) as (Hr & He & _). split; [exact Hr | exact He].
  - pose proof (unusable_select_or_sort_throws (constant_model 3 []) None
                  request_query (incoming Samples.repeated_select)
                  Samples.repeated_select eq_refl) as H.
    cbv zeta in H. destruct H as (H & _).
    destruct (H eq_refl) as (Hr & _). exact Hr.
  - pose proof (unusable_select_or_sort_throws (constant_model 3 []) None
                  request_query (incoming MoreSamples.own_toString)
                  MoreSamples.own_toString eq_refl) as H.
    cbv zeta in H. destruct H as (H & _).
    destruct (H eq_refl) as (Hr & _). exact Hr.
Defined.

(** ** X3 *)

(** X3.  An empty [select] counts as none, and an empty [sort] counts as
    none: the executed query has no projection exactly when [select] is
    absent or empty, and it is sorted by [name] whenever [sort] is absent
    or empty. *)
Theorem empty_select_and_sort_are_absent {Doc : Type} (model : Model Doc)
    (populate_path : option string) (req_query : loc) (w : world Doc)
    (o : object) (q : Query) :
  heap w !! req_query = Some o ->
  In q (executed w (snd (advancedResults model populate_path req_query w))) ->
  (q_select q = None
   <-> get_prop "select" o = None \/ get_prop "select" o = Some (JStr ""))
  /\ (get_prop "sort" o = None \/ get_prop "sort" o = Some (JStr "") ->
      q_sort q = Some "name").
Proof.
  intros Hrq Hq.
  destruct (executed_query _ _ _ _ _ _ Hrq Hq)
    as (f & fs & s & _ & Hp & Ho & _ & _ & -> & ->).
  split.
  - unfold projection in Hp.
    destruct (get_prop "select" o) as [[t| |]|]; cbn in Hp; try discriminate.
    + destruct t as [|c t]; cbn in Hp; injection Hp as <-.
      * split; auto.
      * split; [discriminate|]. intros [H|H]; discriminate.
    + injection Hp as <-. split; auto.
  - intros Hs. unfold ordering in Ho.
    destruct Hs as [Hs|Hs]; rewrite Hs in Ho; cbn in Ho; congruence.
Qed.

Lemma empty_select_and_sort_are_absent_witness :
  let w := incoming MoreSamples.empty_select_and_sort in
  let q := mkQuery (JObj []) None (Some "name") (Some 0%Z) (Some 1000%Z) None in
  q_select q = None /\ q_sort q = Some "name"
  /\ In q (executed w (snd (advancedResults (memory_model Samples.places) None
                              request_query w))).
Proof.
  cbv zeta.
  assert (Hq : In (mkQuery (JObj []) None (Some "name") (Some 0%Z)
                     (Some 1000%Z) None)
                 (executed (incoming MoreSamples.empty_select_and_sort)
                    (snd (advancedResults (memory_model Samples.places) None
                            request_query
                            (incoming MoreSamples.empty_select_and_sort)))))
    by (left; reflexivity).
  destruct (empty_select_and_sort_are_absent (memory_model Samples.places) None
              request_query (incoming MoreSamples.empty_select_and_sort)
              MoreSamples.empty_select_and_sort _ eq_refl Hq) as (Hsel & Hsort).
  split; [apply Hsel; right; reflexivity|].
  split; [apply Hsort; right; reflexivity | exact Hq].
Defined.

(** ** X4 *)

(** X4.  [split(',').join(' ')] turns every comma into a space and
    changes nothing else: the projection and the sort specification of
    the executed query are the [select] and [sort] strings with spaces
    for commas, of the same length and with no comma left. *)
Theorem commas_become_spaces {Doc : Type} (model : Model Doc)
    (populate_path : option string) (req_query : loc) (w : world Doc)
    (o : object) (q : Query) :
  heap w !! req_query = Some o ->
  In q (executed w (snd (advancedResults model populate_path req_query w))) ->
  (forall s, get_prop "select" o = Some (JStr s) -> s <> "" ->
     q_select q = Some (Text.replace_char "," " " s))
  /\ (forall s, get_prop "sort" o = Some (JStr s) -> s <> "" ->
        q_sort q = Some (Text.replace_char "," " " s))
  /\ (forall s, Js.join " " (Js.split "," s) = Text.replace_char "," " " s
                /\ String.length (Text.replace_char "," " " s) = String.length s
                /\ Text.occurs "," (Text.replace_char "," " " s) = false).
Proof.
  intros Hrq Hq.
  destruct (executed_query _ _ _ _ _ _ Hrq Hq)
    as (f & fs & sb & _ & Hp & Ho & _ & _ & -> & ->).
  split; [|split].
  - intros s Hs Hne. unfold projection in Hp. rewrite Hs in Hp. cbn in Hp.
    destruct (String.eqb_spec s ""); [contradiction|]. cbn in Hp.
    injection Hp as <-. now rewrite MiddlewareExtras.join_split_replace.
  - intros s Hs Hne. unfold ordering in Ho. rewrite Hs in Ho. cbn in Ho.
    destruct (String.eqb_spec s ""); [contradiction|]. cbn in Ho.
    injection Ho as <-. now rewrite MiddlewareExtras.join_split_replace.
  - intros s. split; [apply MiddlewareExtras.join_split_replace|].
    split; [apply MiddlewareExtras.replace_char_length|].
    apply MiddlewareExtras.replace_char_gone. discriminate.
Qed.

Lemma commas_become_spaces_witness :
  let w := incoming Samples.full_request in
  let q := mkQuery (JObj [("name", JStr "Aurora")]) (Some "name price")
             (Some "-price name") (Some 40%Z) (Some 20%Z) None in
  In q (executed w (snd (advancedResults (memory_model Samples.places) None
                           request_query w)))
  /\ q_select q = Some (Text.replace_char "," " " "name,price").
Proof.
  cbv zeta.
  assert (Hq : In (mkQuery (JObj [("name", JStr "Aurora")]) (Some "name price")
                     (Some "-price name") (Some 40%Z) (Some 20%Z) None)
                 (executed (incoming Samples.full_request)
                    (snd (advancedResults (memory_model Samples.places) None
                            request_query (incoming Samples.full_request)))))
    by (left; reflexivity).
  split; [exact Hq|].
  destruct (commas_become_spaces (memory_model Samples.places) None
              request_query (incoming Samples.full_request)
              Samples.full_request _ eq_refl Hq) as (Hsel & _).
  apply Hsel; [reflexivity | discriminate].
Defined.

(** ** X5 *)

(** X5.  A run appends to the trace, and what it appends is one of four
    sequences: nothing; the count alone, when the count rejects; the
    count and the data query, when the query rejects; the count, the
    data query and the call of the next handler, when the run completes.
    So each invocation counts at most once and queries at most once, the
    query is never executed after a failed count, and the next handler is
    called at most once and only after both operations resolved. *)
Theorem database_calls_in_order {Doc : Type} (model : Model Doc)
    (populate_path : option string) (req_query : loc) (w : world Doc)
    (o : object) :
  heap w !! req_query = Some o ->
  let run := advancedResults model populate_path req_query w in
  let evs := new_events w (snd run) in
  trace (snd run) = (trace w ++ evs)%list
  /\ ((evs = [] /\ fst run = inl TypeError)
      \/ (exists e,
            evs = [CountDocuments None]
            /\ countDocuments model None = inl e /\ fst run = inl e)
      \/ (exists q total e,
            evs = [CountDocuments None; Exec q]
            /\ countDocuments model None = inr total
            /\ exec model q = inl e /\ fst run = inl e)
      \/ (exists q total results,
            evs = [CountDocuments None; Exec q; Next]
            /\ countDocuments model None = inr total
            /\ exec model q = inr results /\ fst run = inr tt)).
Proof.
  intros Hrq run evs. subst run evs. run_cases Hrq.
  - apply projection_error in Hproj as ->.
    split; [now rewrite app_nil_r | auto].
  - apply ordering_error in Hord as ->.
    split; [now rewrite app_nil_r | auto].
  - apply numbers_error in Hnum as ->.
    split; [now rewrite app_nil_r | auto].
  - split; [reflexivity|]. right; left. eauto.
  - split; [reflexivity|]. right; right; left. eauto 7.
  - split; [reflexivity|]. right; right; right. eauto 7.
Qed.

Lemma database_calls_in_order_witness :
  let w := incoming Samples.second_page in
  trace (snd (advancedResults unavailable_model None request_query w))
  = [CountDocuments None]
  /\ List.length
       (trace (snd (advancedResults (memory_model Samples.places) None
                      request_query w))) = 3%nat.
Proof.
  cbv zeta.
  pose proof (database_calls_in_order unavailable_model None request_query
                (incoming Samples.second_page) Samples.second_page eq_refl)
    as H.
  cbv zeta in H. destruct H as (Htrace & _).
  split; [rewrite Htrace; reflexivity | reflexivity].
Defined.

(** ** X6 *)

(** X6.  In the stored pagination of a run whose numbers are safe
    integers, the first page never has a [prev]; a page beyond the
    first, with a positive limit, has [prev] one page back, on page 1 at
    the earliest; with a negative limit every page from the first on
    announces a [next] page whatever the collection holds, and has no
    [prev]. *)
Theorem pagination_links_at_the_edges {Doc : Type} (model : Model Doc)
    (populate_path : option string) (req_query : loc) (w : world Doc)
    (o : object) :
  heap w !! req_query = Some o ->
  safe_numbers o ->
  let run := advancedResults model populate_path req_query w in
  fst run = inr tt ->
  exists total resp,
    countDocuments model None = inr total
    /\ res_advancedResults (snd run) = Some resp
    /\ (page_of o = 1%Z -> prev (pagination resp) = None)
    /\ ((1 < page_of o)%Z -> (0 < limit_of o)%Z ->
        prev (pagination resp) = Some (mkPageRef (page_of o - 1) (limit_of o))
        /\ (1 <= page_of o - 1)%Z)
    /\ ((limit_of o < 0)%Z -> (1 <= page_of o)%Z ->
        prev (pagination resp) = None
        /\ ((0 <= total)%Z ->
            next (pagination resp)
            = Some (mkPageRef (page_of o + 1) (limit_of o)))).
Proof.
  intros Hrq _ run. subst run. run_cases Hrq; try discriminate.
  intros _. exists total. eexists. split; [reflexivity|].
  split; [reflexivity|].
  cbn [pagination pagination_for next prev].
  unfold startIndex_of, endIndex_of.
  split; [|split].
  - intros ->. now rewrite Z.sub_diag.
  - intros Hp Hl. split; [|lia].
    destruct (Z.gtb_spec ((page_of o - 1) * limit_of o) 0); [reflexivity | nia].
  - intros Hl Hp. split.
    + destruct (Z.gtb_spec ((page_of o - 1) * limit_of o) 0);
        [nia | reflexivity].
    + intros Ht.
      destruct (Z.ltb_spec (page_of o * limit_of o) total);
        [reflexivity | nia].
Qed.

Lemma pagination_links_at_the_edges_witness :
  let w := incoming MoreSamples.negative_limit in
  let run := advancedResults (constant_model 0 []) None request_query w in
  fst run = inr tt
  /\ exists resp,
       res_advancedResults (snd run) = Some resp
       /\ next (pagination resp) = Some (mkPageRef 3 (-5))
       /\ prev (pagination resp) = None.
Proof.
  cbv zeta. split; [reflexivity|].
  assert (Hsafe : safe_numbers MoreSamples.negative_limit).
  { assert (Hp : page_of MoreSamples.negative_limit = 2%Z) by reflexivity.
    assert (Hl : limit_of MoreSamples.negative_limit = (-5)%Z)
      by reflexivity.
    unfold safe_numbers, startIndex_of, endIndex_of, Js.safe,
      Js.MAX_SAFE_INTEGER.
    rewrite Hp, Hl. lia. }
  destruct (pagination_links_at_the_edges (constant_model 0 []) None
              request_query (incoming MoreSamples.negative_limit)
              MoreSamples.negative_limit eq_refl Hsafe eq_refl)
    as (total & resp & Hc & Hres & _ & _ & Hneg).
  exists resp. split; [exact Hres|].
  injection Hc as <-.
  destruct Hneg as (Hprev & Hnext); [reflexivity | discriminate |].
  split; [apply Hnext; lia | exact Hprev].
Defined.

(** * The operator rewrite has an inverse *)

Module UndoFacts.
Import Rewrite Undo RewriteFacts.

Lemma drop_dollars_cons (x w : string) (l : list string) :
  drop_dollars (x :: w :: l)
  = if String.eqb x "$" && is_operator w
    then w :: drop_dollars l
    else x :: drop_dollars (w :: l).
Proof. reflexivity. Qed.

Lemma expand_cons (a : string) (ws : list string) :
  expand (a :: ws)
  = if is_operator a then "$" :: a :: expand ws else a :: expand ws.
Proof. unfold expand. cbn [flat_map]. now destruct (is_operator a). Qed.

(** What the expansion of a list starts with is no operator word. *)
Lemma expand_head (ws : list string) :
  match expand ws with
  | w :: _ => is_operator w = false
  | [] => True
  end.
Proof.
  destruct ws as [|b ws]; [exact I|]. rewrite expand_cons.
  destruct (is_operator b) eqn:Hb; [reflexivity | exact Hb].
Qed.

Lemma drop_expand (ws : list string) : drop_dollars (expand ws) = ws.
Proof.
  induction ws as [|a ws IH]; [reflexivity|].
  rewrite expand_cons. destruct (is_operator a) eqn:Ha.
  - rewrite drop_dollars_cons, Ha, String.eqb_refl. cbn [andb].
    now rewrite IH.
  - pose proof (expand_head ws) as Hhead.
    destruct (expand ws) as [|w l] eqn:Hexp.
    + cbn. f_equal. exact IH.
    + rewrite drop_dollars_cons, Hhead, andb_false_r. now rewrite IH.
Qed.

Lemma starts_with_word_app (a b : string) :
  starts_with_word (a ++ b)
  = match a with
    | "" => starts_with_word b
    | _ => starts_with_word a
    end.
Proof. now destruct a. Qed.

Lemma canonical_segments (s : string) : canonical (segments s) = true.
Proof.
  induction s as [|c s IH]; [reflexivity|].
  rewrite segments_cons.
  destruct (segments s) as [|w ws] eqn:Hseg.
  - cbn. destruct (is_word c); reflexivity.
  - cbn [canonical] in IH. destruct w as [|d r]; [discriminate IH|].
    apply andb_true_iff in IH as [Hw Hws].
    unfold starts_with_word at 1. cbn [Str.head is_word_opt].
    destruct (is_word c) eqn:Hc; cbn [andb].
    + destruct (is_word d) eqn:Hd.
      * cbn [canonical]. rewrite Hc. cbn [all_word]. rewrite Hd.
        apply andb_true_iff in Hw as [Hr Hnext].
        now rewrite Hr, Hnext, Hws.
      * cbn [canonical]. rewrite Hc, Hd. cbn [all_word andb].
        rewrite concat_empty_cons. unfold starts_with_word at 1.
        cbn [String.append Str.head is_word_opt]. rewrite Hd. cbn.
        now rewrite Hw, Hws.
    + cbn [canonical]. rewrite Hc. cbn.
      destruct (is_word d); now rewrite Hw, Hws.
Qed.

Lemma expand_keeps_start (ws : list string) :
  starts_with_word (String.concat "" ws) = false ->
  starts_with_word (String.concat "" (expand ws)) = false.
Proof.
  induction ws as [|a ws IH]; [auto|].
  rewrite expand_cons, concat_empty_cons.
  intros Hstart. destruct (is_operator a) eqn:Ha.
  - rewrite concat_empty_cons. reflexivity.
  - rewrite concat_empty_cons.
    rewrite starts_with_word_app in Hstart |- *.
    destruct a; [now apply IH | exact Hstart].
Qed.

Lemma canonical_expand (ws : list string) :
  canonical ws = true -> canonical (expand ws) = true.
Proof.
  induction ws as [|a ws IH]; [auto|].
  cbn [canonical]. destruct a as [|c r]; [discriminate|].
  intros Hc. apply andb_true_iff in Hc as [Ha Hws].
  specialize (IH Hws).
  rewrite expand_cons.
  assert (Hsame : canonical (String c r :: expand ws) = true).
  { cbn [canonical]. rewrite IH, andb_true_r.
    destruct (is_word c); [|exact Ha].
    apply andb_true_iff in Ha as [Hr Hnext]. rewrite Hr. cbn [andb].
    apply negb_true_iff in Hnext. apply negb_true_iff.
    now apply expand_keeps_start. }
  destruct (is_operator (String c r)); [|exact Hsame].
  change (canonical ("$" :: String c r :: expand ws))
    with (canonical (String c r :: expand ws)).
  exact Hsame.
Qed.

Lemma segments_concat (ws : list string) :
  canonical ws = true -> segments (String.concat "" ws) = ws.
Proof.
  induction ws as [|w ws IH]; [reflexivity|].
  cbn [canonical]. destruct w as [|c r]; [discriminate|].
  intros Hc. apply andb_true_iff in Hc as [Hw Hws].
  rewrite concat_empty_cons.
  destruct (is_word c) eqn:Hword.
  - apply andb_true_iff in Hw as [Hr Hnext]. apply negb_true_iff in Hnext.
    rewrite segments_word_run; [now rewrite IH | | exact Hnext].
    cbn [all_word]. now rewrite Hword, Hr.
  - apply String.eqb_eq in Hw as ->. cbn [String.append].
    rewrite segments_nonword by exact Hword. now rewrite IH.
Qed.

Lemma map_prefix_expand (ws : list string) :
  String.concat "" (map prefix_operator ws) = String.concat "" (expand ws).
Proof.
  induction ws as [|a ws IH]; [reflexivity|].
  rewrite expand_cons. cbn [map]. rewrite concat_empty_cons, IH.
  unfold prefix_operator. destruct (is_operator a).
  - rewrite !concat_empty_cons. reflexivity.
  - rewrite concat_empty_cons. reflexivity.
Qed.

Lemma segments_rewrite (s : string) :
  segments (rewrite_standalone s) = expand (segments s).
Proof.
  unfold rewrite_standalone. rewrite map_prefix_expand.
  apply segments_concat, canonical_expand, canonical_segments.
Qed.

Lemma undo_rewrite (s : string) : undo_operators (rewrite_standalone s) = s.
Proof.
  unfold undo_operators. rewrite segments_rewrite, drop_expand.
  apply concat_segments.
Qed.

Lemma length_rewrite (s : string) :
  String.length (rewrite_standalone s)
  = (String.length s + standalone_operators s)%nat.
Proof.
  unfold rewrite_standalone, standalone_operators.
  rewrite <- (concat_segments s) at 2.
  induction (segments s) as [|w ws IH]; [reflexivity|].
  cbn [map List.filter]. rewrite !concat_empty_cons, !StrFacts.length_append, IH.
  unfold prefix_operator. destruct (is_operator w); cbn [List.length String.length String.append]; lia.
Qed.

End UndoFacts.

Import Undo UndoFacts.

(** X18. The operator rewrite loses nothing.  Dropping the [$] in front
    of each operator word of the rewritten text gives the text back, so
    two different texts are never rewritten to the same text; the text
    grows by exactly one character for each operator word that stands
    alone; and two requests whose filter objects differ never hand the
    same text to [JSON.parse]. *)
Theorem operator_rewrite_loses_nothing :
  (forall s, undo_operators (Rewrite.replace_operators s) = s)
  /\ (forall s1 s2,
        Rewrite.replace_operators s1 = Rewrite.replace_operators s2 -> s1 = s2)
  /\ (forall s,
        String.length (Rewrite.replace_operators s)
        = (String.length s + standalone_operators s)%nat)
  /\ (forall o1 o2 : object,
        well_formed (JObj (filter_object o1)) = true ->
        well_formed (JObj (filter_object o2)) = true ->
        filter_text o1 = filter_text o2 ->
        filter_object o1 = filter_object o2).
Proof.
  assert (Hundo : forall s, undo_operators (Rewrite.replace_operators s) = s).
  { intros s. rewrite replace_operators_standalone. apply undo_rewrite. }
  assert (Hinj : forall s1 s2,
            Rewrite.replace_operators s1 = Rewrite.replace_operators s2 ->
            s1 = s2).
  { intros s1 s2 Heq. rewrite <- (Hundo s1), <- (Hundo s2). now rewrite Heq. }
  split; [exact Hundo|]. split; [exact Hinj|]. split.
  - intros s. rewrite replace_operators_standalone. apply length_rewrite.
  - intros o1 o2 Hwf1 Hwf2 Heq. unfold filter_text in Heq.
    apply Hinj in Heq.
    pose proof (parse_stringify _ Hwf1) as H1.
    pose proof (parse_stringify _ Hwf2) as H2.
    rewrite Heq in H1. rewrite H1 in H2. now injection H2.
Qed.

(** * The controllers *)

Module ControllerFacts.
Import JSON Effects Controllers Conduct.

Section WithDoc.
Context {Doc : Type}.
Implicit Types st : exchange Doc.

Lemma new_calls_app st b (l : list (call Doc)) :
  new_calls st (mkExchange b (calls st ++ l)) = l.
Proof. unfold new_calls; cbn [calls]. apply drop_app_length. Qed.

Lemma listed_In (ids : list string) (u : User) :
  already_listed ids u = true <-> In (user_id u) ids.
Proof.
  unfold already_listed. induction ids as [|x ids IH]; cbn.
  - split; [discriminate | tauto].
  - destruct (String.eqb_spec x (user_id u)) as [->|Hne]; cbn.
    + split; [auto | reflexivity].
    + rewrite IH. split; [auto | intros [?|?]; [congruence | assumption]].
Qed.

Lemma not_listed_In (ids : list string) (u : User) :
  not_listed ids u = true <-> ~ In (user_id u) ids.
Proof.
  unfold not_listed. induction ids as [|x ids IH]; cbn.
  - split; [tauto | reflexivity].
  - destruct (String.eqb_spec x (user_id u)) as [->|Hne].
    + split; [discriminate | intros Hn; exfalso; apply Hn; auto].
    + rewrite IH. split.
      * intros Hn [?|?]; [congruence | auto].
      * intros Hn Hi; apply Hn; auto.
Qed.

Lemma without_In (ids : list string) (u : User) (x : string) :
  In x (without ids u) <-> In x ids /\ x <> user_id u.
Proof.
  unfold without. rewrite List.filter_In.
  destruct (String.eqb_spec x (user_id u)); cbn; intuition congruence.
Qed.

Lemma without_absent (ids : list string) (u : User) :
  ~ In (user_id u) ids -> without ids u = ids.
Proof.
  unfold without. induction ids as [|x ids IH]; cbn; [reflexivity|].
  intros Hn. destruct (String.eqb_spec x (user_id u)) as [->|Hne]; cbn.
  - exfalso; apply Hn; auto.
  - f_equal. apply IH. intros Hi; apply Hn; auto.
Qed.

Lemma without_appended (ids : list string) (u : User) :
  ~ In (user_id u) ids -> without (ids ++ [user_id u]) u = ids.
Proof.
  intros Hn. unfold without. rewrite List.filter_app. cbn.
  rewrite String.eqb_refl; cbn. rewrite List.app_nil_r.
  now apply without_absent.
Qed.

Lemma without_sublist (ids : list string) (u : User) :
  sublist (without ids u) ids.
Proof.
  unfold without. induction ids as [|x ids IH]; cbn; [constructor|].
  destruct (negb _); now constructor.
Qed.

Lemma without_count (ids : list string) (u : User) (x : string) :
  x <> user_id u ->
  count_occ string_dec (without ids u) x = count_occ string_dec ids x.
Proof.
  intros Hx. unfold without. induction ids as [|y ids IH]; cbn; [reflexivity|].
  destruct (String.eqb_spec y (user_id u)) as [->|Hne]; cbn.
  - destruct (string_dec (user_id u) x); [congruence | exact IH].
  - destruct (string_dec y x); now rewrite IH.
Qed.

Lemma without_shorter (ids : list string) (u : User) :
  In (user_id u) ids -> (List.length (without ids u) < List.length ids)%nat.
Proof.
  unfold without. induction ids as [|x ids IH]; cbn; [tauto|].
  intros Hin. destruct (String.eqb_spec x (user_id u)) as [->|Hne]; cbn.
  - pose proof (List.filter_length_le
                  (fun x => negb (String.eqb x (user_id u))) ids). lia.
  - destruct Hin as [?|Hin]; [congruence|]. specialize (IH Hin). lia.
Qed.

Lemma appended_once (ids : list string) (x : string) :
  ~ In x ids -> count_occ string_dec (ids ++ [x]) x = 1%nat.
Proof.
  intros Hn. rewrite count_occ_app.
  rewrite (proj1 (count_occ_not_In string_dec ids x) Hn). cbn.
  now destruct (string_dec x x).
Qed.

Lemma appended_NoDup (ids : list string) (x : string) :
  ~ In x ids -> List.NoDup ids -> List.NoDup (ids ++ [x]).
Proof.
  intros Hn Hd. induction Hd as [|y l Hy Hd IH]; cbn.
  - constructor; [tauto | constructor].
  - constructor.
    + rewrite List.in_app_iff. cbn. intros [?|[->|[]]]; [tauto|].
      apply Hn; now left.
    + apply IH. intros Hi; apply Hn; now right.
Qed.

Lemma not_permitted_false (owner : string) (u : User) :
  not_permitted owner u = false <-> owner = user_id u \/ role u = "admin".
Proof.
  unfold not_permitted.
  destruct (String.eqb_spec owner (user_id u));
    destruct (String.eqb_spec (role u) "admin"); cbn; intuition congruence.
Qed.

Lemma kept_placeholder (stored : list string) :
  kept stored = if decide (stored = ["no-photo.jpg"]) then [] else stored.
Proof.
  unfold kept. destruct stored as [|p [|q l]]; cbn.
  - now destruct (decide _).
  - destruct (String.eqb_spec p "no-photo.jpg") as [->|Hne];
      destruct (decide _) as [Heq|Hneq]; try reflexivity.
    + exfalso. now apply Hneq.
    + exfalso. apply Hne. now injection Heq.
  - destruct (decide _) as [Heq|Hneq]; [discriminate Heq | reflexivity].
Qed.

Lemma get_set_prop (k k' : string) (v : json) (o : object) :
  get_prop k' (set_prop k v o)
  = if String.eqb k' k then Some v else get_prop k' o.
Proof.
  induction o as [|[k0 v0] o IH]; cbn.
  - now destruct (String.eqb k' k).
  - destruct (String.eqb_spec k k0) as [<-|Hne]; cbn.
    + now destruct (String.eqb k' k).
    + rewrite IH. destruct (String.eqb_spec k' k0) as [->|Hne'].
      * destruct (String.eqb_spec k0 k); [congruence | reflexivity].
      * reflexivity.
Qed.

End WithDoc.

(** Unfolds a handler down to the answers of the model and splits on
    each of them and on each test. *)
Ltac handler_step :=
  match goal with
  | |- context [match ?x with inl _ => _ | inr _ => _ end] =>
      let H := fresh "Hcall" in destruct x as [?|?] eqn:H
  | |- context [match ?x with Some _ => _ | None => _ end] =>
      let H := fresh "Hdoc" in destruct x eqn:H
  | |- context [match ?x with Js.Returns _ => _ | Js.Throws => _ end] =>
      let H := fresh "Htext" in destruct x eqn:H
  | |- context [if ?b then _ else _] =>
      let H := fresh "Htest" in destruct b eqn:H
  end.

Ltac handler_cases :=
  unfold try_next, detached, awaited, templated, next_error, send, log,
    get_body, assign_body, mbind, H_bind, mret, H_ret, mthrow, H_throw;
  cbn [fst snd req_body calls];
  repeat (handler_step; cbn [fst snd req_body calls]);
  rewrite <- ?List.app_assoc; cbn [app];
  rewrite ?new_calls_app.

Section Runs.
Context {Doc : Type}.
Implicit Types st : exchange Doc.

Lemma likeAttraction_new (m : DocModel Attraction) (id : string) (u : User) st
    (a : Attraction) :
  findById m id = inr (Some a) ->
  ~ In (user_id u) (likes a) ->
  exists rest,
    new_calls st (snd (Attractions.likeAttraction m id u st))
    = FindById Attractions id
      :: FindByIdAndUpdate Attractions id (SetLikes (likes a ++ [user_id u]))
           (Some (mkOptions true true))
      :: rest
    /\ List.filter is_write rest = [].
Proof.
  intros Hfound Hnot. unfold Attractions.likeAttraction. rewrite Hfound.
  assert (Hl : already_listed (likes a) u = false).
  { destruct (already_listed (likes a) u) eqn:E; [|reflexivity].
    now apply listed_In in E. }
  handler_cases; try congruence;
    (eexists; split; reflexivity).
Qed.

Lemma bookmarkAttraction_new (m : DocModel Attraction) (id : string)
    (u : User) st (a : Attraction) :
  findById m id = inr (Some a) ->
  ~ In (user_id u) (bookmarks a) ->
  exists rest,
    new_calls st (snd (Attractions.bookmarkAttraction m id u st))
    = FindById Attractions id
      :: FindByIdAndUpdate Attractions id
           (SetBookmarks (bookmarks a ++ [user_id u])) (Some (mkOptions true true))
      :: rest
    /\ List.filter is_write rest = [].
Proof.
  intros Hfound Hnot. unfold Attractions.bookmarkAttraction. rewrite Hfound.
  assert (Hl : already_listed (bookmarks a) u = false).
  { destruct (already_listed (bookmarks a) u) eqn:E; [|reflexivity].
    now apply listed_In in E. }
  handler_cases; try congruence;
    (eexists; split; reflexivity).
Qed.

(** The update that follows the lookup is the only one when no write
    comes after it. *)
Lemma only_update (id : string) (u0 u1 : update) (opts : option UpdateOptions)
    (rest : list (call Doc)) :
  List.filter is_write rest = [] ->
  In (FindByIdAndUpdate Attractions id u1 opts)
     (FindById Attractions id
      :: FindByIdAndUpdate Attractions id u0 opts :: rest) ->
  u1 = u0.
Proof.
  intros Hrest [Heq|[Heq|Hin]].
  - discriminate Heq.
  - now injection Heq.
  - exfalso.
    assert (Hf : In (FindByIdAndUpdate Attractions id u1 opts)
                   (List.filter is_write rest)).
    { apply List.filter_In. split; [exact Hin | reflexivity]. }
    rewrite Hrest in Hf. exact Hf.
Qed.

(** The run of the upload handler once every check has passed. *)
Lemma upload_run (m : DocModel Attraction) (host : Host)
    (id : string) (u : User) (file : File) (a : Attraction)
    (stored : list string) st :
  findById m id = inr (Some a) ->
  user a = user_id u \/ role u = "admin" ->
  String.prefix "image" (file_mimetype file) = true ->
  (forall n, MAX_FILE_UPLOAD host = Some n -> (file_size file <= n)%Z) ->
  photos a = Some stored ->
  let run :=
    Attractions.attractionPhotoUpload m host id u (Some (Some file)) st in
  let previous := if decide (stored = ["no-photo.jpg"]) then [] else stored in
  let name := "photo_" ++ _id a ++ "_" ++ decimal (List.length previous + 1)
              ++ path_ext host (file_name file) in
  let target := FILE_UPLOAD_PATH host ++ "/" ++ name in
  let write := FindByIdAndUpdate Attractions id
                 (SetPhotos (previous ++ [name])) None in
  fst run = inr tt
  /\ new_calls st (snd run)
     = FindById Attractions id :: Move target ::
       match mv host target with
       | Some _ =>
           [NextError (mkErrorResponse "Problem with file upload" (Some 500%Z))]
       | None =>
           match findByIdAndUpdate m id (SetPhotos (previous ++ [name])) None with
           | inl _ => [write]
           | inr _ => [write; Send 200 (Json true None (FileName name))]
           end
       end.
Proof.
  intros Hf Hp Himg Hsize Hph. cbv zeta.
  apply not_permitted_false in Hp.
  assert (Hex : exceeds (file_size file) (MAX_FILE_UPLOAD host) = false).
  { unfold exceeds. destruct (MAX_FILE_UPLOAD host) as [n|]; [|reflexivity].
    apply Z.ltb_ge. now apply Hsize. }
  unfold Attractions.attractionPhotoUpload, detached, awaited, next_error,
    send, log, mbind, H_bind, mret, H_ret, mthrow, H_throw.
  rewrite Hf. cbn [fst snd req_body calls].
  rewrite Hp, Himg. cbn [negb]. rewrite Hex, Hph, kept_placeholder.
  handler_cases; try congruence; split; reflexivity.
Qed.

End Runs.

End ControllerFacts.

Import Controllers Conduct ControllerFacts.

(** X7. [likeAttraction] and [bookmarkAttraction], on an attraction that
    exists.  When the user is already in the list the handler hands a
    404 error to [next] and writes nothing.  Otherwise its first write
    is the list with the user appended, under [new] and [runValidators];
    no other write follows, the user occurs exactly once in what is
    written, and a list without repetitions stays without. *)
Theorem like_and_bookmark_append_once {Doc : Type} (m : DocModel Attraction)
    (id : string) (u : User) (st : exchange Doc) (a : Attraction) :
  findById m id = inr (Some a) ->
  let opts := Some (mkOptions true true) in
  let liked := new_calls st (snd (Attractions.likeAttraction m id u st)) in
  let marked := new_calls st (snd (Attractions.bookmarkAttraction m id u st)) in
  (In (user_id u) (likes a) ->
     liked = [FindById Attractions id;
              NextError (mkErrorResponse "Attraction already liked" (Some 404%Z))])
  /\ (~ In (user_id u) (likes a) ->
      exists rest,
        liked = FindById Attractions id
                :: FindByIdAndUpdate Attractions id
                     (SetLikes (likes a ++ [user_id u])) opts
                :: rest
        /\ List.filter is_write rest = []
        /\ count_occ string_dec (likes a ++ [user_id u]) (user_id u) = 1%nat
        /\ (List.NoDup (likes a) -> List.NoDup (likes a ++ [user_id u])))
  /\ (In (user_id u) (bookmarks a) ->
      marked = [FindById Attractions id;
                NextError (mkErrorResponse "Attraction already bookmarked"
                             (Some 404%Z))])
  /\ (~ In (user_id u) (bookmarks a) ->
      exists rest,
        marked = FindById Attractions id
                 :: FindByIdAndUpdate Attractions id
                      (SetBookmarks (bookmarks a ++ [user_id u])) opts
                 :: rest
        /\ List.filter is_write rest = []
        /\ count_occ string_dec (bookmarks a ++ [user_id u]) (user_id u) = 1%nat
        /\ (List.NoDup (bookmarks a) -> List.NoDup (bookmarks a ++ [user_id u]))).
Proof.
  intros Hfound opts liked marked. subst opts liked marked.
  split; [|split; [|split]]; intros Hin.
  - unfold Attractions.likeAttraction. rewrite Hfound.
    apply listed_In in Hin. handler_cases; congruence.
  - destruct (likeAttraction_new m id u st a Hfound Hin) as (rest & Heq & Hrest).
    exists rest. split; [exact Heq|]. split; [exact Hrest|].
    split; [now apply appended_once | now apply appended_NoDup].
  - unfold Attractions.bookmarkAttraction. rewrite Hfound.
    apply listed_In in Hin. handler_cases; congruence.
  - destruct (bookmarkAttraction_new m id u st a Hfound Hin)
      as (rest & Heq & Hrest).
    exists rest. split; [exact Heq|]. split; [exact Hrest|].
    split; [now apply appended_once | now apply appended_NoDup].
Qed.

Lemma like_and_bookmark_append_once_witness :
  exists rest,
    new_calls ControllerSamples.posted
      (snd (Attractions.likeAttraction (holding ControllerSamples.lake_tour)
              "a1" ControllerSamples.visitor ControllerSamples.posted))
    = FindById Attractions "a1"
      :: FindByIdAndUpdate Attractions "a1" (SetLikes ["u2"; "u9"])
           (Some (mkOptions true true))
      :: rest.
Proof.
  destruct (like_and_bookmark_append_once
              (holding ControllerSamples.lake_tour) "a1"
              ControllerSamples.visitor ControllerSamples.posted
              ControllerSamples.lake_tour eq_refl) as (_ & Hnew & _).
  destruct Hnew as (rest & Heq & _).
  - cbn. intros [H|[]]. discriminate H.
  - exists rest. exact Heq.
Defined.

(** X8. [unLikeAttraction] and [unBookmarkAttraction], on an attraction
    that exists.  When the user is not in the list the handler hands a
    404 error to [next] and writes nothing.  Otherwise its first and
    only write is a list that no longer holds the user, is strictly
    shorter, and keeps every other entry, as often and in the order it
    was there. *)
Theorem unlike_and_unbookmark_remove_user {Doc : Type}
    (m : DocModel Attraction) (id : string) (u : User) (st : exchange Doc)
    (a : Attraction) :
  findById m id = inr (Some a) ->
  let opts := Some (mkOptions true true) in
  let unliked := new_calls st (snd (Attractions.unLikeAttraction m id u st)) in
  let unmarked :=
    new_calls st (snd (Attractions.unBookmarkAttraction m id u st)) in
  let removed (before after : list string) :=
    ~ In (user_id u) after
    /\ (List.length after < List.length before)%nat
    /\ sublist after before
    /\ (forall x, x <> user_id u ->
          count_occ string_dec after x = count_occ string_dec before x) in
  (~ In (user_id u) (likes a) ->
     unliked = [FindById Attractions id;
                NextError (mkErrorResponse "Attraction not liked" (Some 404%Z))])
  /\ (In (user_id u) (likes a) ->
      exists after rest,
        unliked = FindById Attractions id
                  :: FindByIdAndUpdate Attractions id (SetLikes after) opts
                  :: rest
        /\ List.filter is_write rest = []
        /\ removed (likes a) after)
  /\ (~ In (user_id u) (bookmarks a) ->
      unmarked = [FindById Attractions id;
                  NextError (mkErrorResponse "Attraction not bookmarked"
                               (Some 404%Z))])
  /\ (In (user_id u) (bookmarks a) ->
      exists after rest,
        unmarked = FindById Attractions id
                   :: FindByIdAndUpdate Attractions id (SetBookmarks after) opts
                   :: rest
        /\ List.filter is_write rest = []
        /\ removed (bookmarks a) after).
Proof.
  intros Hfound opts unliked unmarked removed.
  subst opts unliked unmarked removed.
  unfold Attractions.unLikeAttraction, Attractions.unBookmarkAttraction.
  rewrite Hfound.
  assert (Hremoved : forall ids, In (user_id u) ids ->
            ~ In (user_id u) (without ids u)
            /\ (List.length (without ids u) < List.length ids)%nat
            /\ sublist (without ids u) ids
            /\ (forall x, x <> user_id u ->
                  count_occ string_dec (without ids u) x
                  = count_occ string_dec ids x)).
  { intros ids Hin. split; [|split; [|split]].
    - rewrite without_In. tauto.
    - now apply without_shorter.
    - apply without_sublist.
    - intros x Hx. now apply without_count. }
  split; [|split; [|split]]; intros Hin.
  - apply not_listed_In in Hin. handler_cases; congruence.
  - assert (Hl : not_listed (likes a) u = false).
    { destruct (not_listed (likes a) u) eqn:E; [|reflexivity].
      now apply not_listed_In in E. }
    handler_cases; try congruence;
      (do 2 eexists; split; [reflexivity|]; split; [reflexivity|];
       now apply Hremoved).
  - apply not_listed_In in Hin. handler_cases; congruence.
  - assert (Hl : not_listed (bookmarks a) u = false).
    { destruct (not_listed (bookmarks a) u) eqn:E; [|reflexivity].
      now apply not_listed_In in E. }
    handler_cases; try congruence;
      (do 2 eexists; split; [reflexivity|]; split; [reflexivity|];
       now apply Hremoved).
Qed.

Lemma unlike_and_unbookmark_remove_user_witness :
  exists after rest,
    new_calls ControllerSamples.posted
      (snd (Attractions.unLikeAttraction (holding ControllerSamples.lake_tour)
              "a1" ControllerSamples.fan ControllerSamples.posted))
    = FindById Attractions "a1"
      :: FindByIdAndUpdate Attractions "a1" (SetLikes after)
           (Some (mkOptions true true))
      :: rest
    /\ ~ In "u2" after.
Proof.
  destruct (unlike_and_unbookmark_remove_user
              (holding ControllerSamples.lake_tour) "a1"
              ControllerSamples.fan ControllerSamples.posted
              ControllerSamples.lake_tour eq_refl) as (_ & Hnew & _).
  destruct Hnew as (after & rest & Heq & _ & Hgone & _).
  - cbn. left. reflexivity.
  - exists after, rest. split; [exact Heq | exact Hgone].
Defined.

(** X9. Liking and then unliking restores the list, and so for
    bookmarks.  Let [likeAttraction] run on an attraction that the user
    has not liked, and let the attraction read afterwards have the likes
    that this run wrote.  Then [unLikeAttraction] writes back the likes
    the attraction had at first, and a second [likeAttraction] is
    turned down without a write. *)
Theorem like_then_unlike_restores {Doc : Type} (m m' : DocModel Attraction)
    (id : string) (u : User) (st st' : exchange Doc) (a a' : Attraction) :
  let opts := Some (mkOptions true true) in
  findById m id = inr (Some a) ->
  findById m' id = inr (Some a') ->
  (~ In (user_id u) (likes a) ->
   In (FindByIdAndUpdate Attractions id (SetLikes (likes a')) opts)
      (new_calls st (snd (Attractions.likeAttraction m id u st))) ->
   In (FindByIdAndUpdate Attractions id (SetLikes (likes a)) opts)
      (new_calls st' (snd (Attractions.unLikeAttraction m' id u st')))
   /\ writes st' (snd (Attractions.likeAttraction m' id u st')) = [])
  /\ (~ In (user_id u) (bookmarks a) ->
      In (FindByIdAndUpdate Attractions id (SetBookmarks (bookmarks a')) opts)
         (new_calls st (snd (Attractions.bookmarkAttraction m id u st))) ->
      In (FindByIdAndUpdate Attractions id (SetBookmarks (bookmarks a)) opts)
         (new_calls st' (snd (Attractions.unBookmarkAttraction m' id u st')))
      /\ writes st' (snd (Attractions.bookmarkAttraction m' id u st')) = []).
Proof.
  intros opts Hfound Hfound'. subst opts.
  split; intros Hnot Hin.
  - destruct (likeAttraction_new m id u st a Hfound Hnot) as (rest & Heq & Hrest).
    rewrite Heq in Hin. apply (only_update _ _ _ _ _ Hrest) in Hin.
    injection Hin as Hlikes.
    assert (Hlisted : In (user_id u) (likes a')).
    { rewrite Hlikes. apply List.in_or_app; right; now left. }
    split.
    + unfold Attractions.unLikeAttraction. rewrite Hfound'.
      assert (Hl : not_listed (likes a') u = false).
      { destruct (not_listed (likes a') u) eqn:E; [|reflexivity].
        now apply not_listed_In in E. }
      assert (Hw : without (likes a') u = likes a).
      { rewrite Hlikes. now apply without_appended. }
      handler_cases; try congruence; rewrite Hw; cbn; tauto.
    + unfold writes, Attractions.likeAttraction. rewrite Hfound'.
      apply listed_In in Hlisted.
      handler_cases; try congruence; reflexivity.
  - destruct (bookmarkAttraction_new m id u st a Hfound Hnot)
      as (rest & Heq & Hrest).
    rewrite Heq in Hin. apply (only_update _ _ _ _ _ Hrest) in Hin.
    injection Hin as Hmarks.
    assert (Hlisted : In (user_id u) (bookmarks a')).
    { rewrite Hmarks. apply List.in_or_app; right; now left. }
    split.
    + unfold Attractions.unBookmarkAttraction. rewrite Hfound'.
      assert (Hl : not_listed (bookmarks a') u = false).
      { destruct (not_listed (bookmarks a') u) eqn:E; [|reflexivity].
        now apply not_listed_In in E. }
      assert (Hw : without (bookmarks a') u = bookmarks a).
      { rewrite Hmarks. now apply without_appended. }
      handler_cases; try congruence; rewrite Hw; cbn; tauto.
    + unfold writes, Attractions.bookmarkAttraction. rewrite Hfound'.
      apply listed_In in Hlisted.
      handler_cases; try congruence; reflexivity.
Qed.

Lemma like_then_unlike_restores_witness :
  In (FindByIdAndUpdate Attractions "a1" (SetLikes ["u2"]) (Some (mkOptions true true)))
     (new_calls ControllerSamples.posted
        (snd (Attractions.unLikeAttraction
                (holding (updated (SetLikes ["u2"; "u9"]) ControllerSamples.lake_tour))
                "a1" ControllerSamples.visitor ControllerSamples.posted))).
Proof.
  destruct (like_then_unlike_restores
              (holding ControllerSamples.lake_tour)
              (holding (updated (SetLikes ["u2"; "u9"]) ControllerSamples.lake_tour))
              "a1" ControllerSamples.visitor
              ControllerSamples.posted ControllerSamples.posted
              ControllerSamples.lake_tour
              (updated (SetLikes ["u2"; "u9"]) ControllerSamples.lake_tour)
              eq_refl eq_refl) as (Hlike & _).
  destruct Hlike as (Hback & _).
  - cbn. intros [H|[]]. discriminate H.
  - vm_compute. right; left; reflexivity.
  - exact Hback.
Defined.

(** X10. [getAttraction] never rejects: a failure of either database
    operation is caught and handed to [next] as it is, and nothing is
    sent then.  An attraction that is found is updated with its view
    count plus one under [new: false], and what is sent is the document
    this update returned; an attraction that is not found yields the 404
    error and no update. *)
Theorem getAttraction_catches_failures {Doc : Type} (m : DocModel Attraction)
    (id : string) (st : exchange Doc) :
  let run := Attractions.getAttraction m id st in
  let added := new_calls st (snd run) in
  fst run = inr tt
  /\ (forall e, findById m id = inl e ->
        added = [FindById Attractions id; NextRaw e])
  /\ (findById m id = inr None ->
        added = [FindById Attractions id;
                 NextError (mkErrorResponse (Attractions.not_found id)
                              (Some 404%Z))])
  /\ (forall a, findById m id = inr (Some a) ->
        let bump := FindByIdAndUpdate Attractions id
                      (SetViewCount (viewCount a + 1)) (Some (mkOptions false true)) in
        match findByIdAndUpdate m id (SetViewCount (viewCount a + 1))
                (Some (mkOptions false true)) with
        | inl e => added = [FindById Attractions id; bump; NextRaw e]
        | inr returned =>
            added = [FindById Attractions id; bump;
                     Send 200 (Json true None (OneAttraction returned))]
        end).
Proof.
  cbv zeta. unfold Attractions.getAttraction.
  split; [|split; [|split]].
  - handler_cases; reflexivity.
  - intros e He. rewrite He. handler_cases; reflexivity.
  - intros He. rewrite He. handler_cases; reflexivity.
  - intros a He. rewrite He.
    destruct (findByIdAndUpdate m id _ _) as [e|returned] eqn:Hu;
      handler_cases; try congruence; reflexivity.
Qed.

(** X11. Each of the handlers listed answers a request at most once.
    A run that returns has made exactly one call that answers, a
    response or a hand-over to [next], and it is its last call; a run
    that is rejected has made none, so the wrapper's hand-over of the
    rejection is the only answer.  Earlier calls stay in the log.  The
    list leaves out [attractionPhotoUpload], which does not behave so:
    when every check has passed, the file was moved and the update that
    follows is rejected, it returns without having answered. *)
Theorem handlers_answer_once {Doc : Type} (attractions : DocModel Attraction)
    (products : DocModel Product) (id : string) (u : User)
    (attractionId : option string) (advanced : option (@Effects.Response Doc)) :
  Forall (@answers_once Doc)
    [ Attractions.getAttractions advanced;
      Attractions.getAttraction attractions id;
      Attractions.createAttraction attractions u;
      Attractions.updateAttraction attractions id u;
      Attractions.deleteAttraction attractions id u;
      Attractions.likeAttraction attractions id u;
      Attractions.bookmarkAttraction attractions id u;
      Attractions.unLikeAttraction attractions id u;
      Attractions.unBookmarkAttraction attractions id u;
      Products.getProducts products attractionId;
      Products.getProduct products id;
      Products.addProduct attractions products id;
      ProductsGuarded.getProducts products attractionId advanced;
      ProductsGuarded.getProduct products id;
      ProductsGuarded.addProduct attractions products id u;
      ProductsGuarded.updateProduct products id u;
      ProductsGuarded.deleteProduct products id u ]
  /\ (forall (host : Host) (file : File) (a : Attraction)
             (stored : list string) (e : Effects.exn),
        findById attractions id = inr (Some a) ->
        user a = user_id u \/ role u = "admin" ->
        String.prefix "image" (file_mimetype file) = true ->
        (forall n, MAX_FILE_UPLOAD host = Some n -> (file_size file <= n)%Z) ->
        photos a = Some stored ->
        let previous :=
          if decide (stored = ["no-photo.jpg"]) then [] else stored in
        let name := "photo_" ++ _id a ++ "_"
                    ++ decimal (List.length previous + 1)
                    ++ path_ext host (file_name file) in
        mv host (FILE_UPLOAD_PATH host ++ "/" ++ name) = None ->
        findByIdAndUpdate attractions id (SetPhotos (previous ++ [name])) None
        = inl e ->
        ~ @answers_once Doc
            (Attractions.attractionPhotoUpload attractions host id u
               (Some (Some file)))).
Proof.
  split.
  - repeat apply List.Forall_cons; try apply List.Forall_nil;
      intros st;
      unfold Attractions.getAttractions, Attractions.getAttraction,
        Attractions.createAttraction, Attractions.updateAttraction,
        Attractions.deleteAttraction, Attractions.likeAttraction,
        Attractions.bookmarkAttraction, Attractions.unLikeAttraction,
        Attractions.unBookmarkAttraction, Products.getProducts,
        Products.getProduct, Products.addProduct, ProductsGuarded.getProducts,
        ProductsGuarded.getProduct, ProductsGuarded.addProduct,
        ProductsGuarded.updateProduct, ProductsGuarded.deleteProduct;
      handler_cases;
      eexists; (split; [reflexivity|]);
      first [ reflexivity
            | match goal with
              | |- exists before reply, [?c] = _ /\ _ =>
                  exists [], c; repeat split; reflexivity
              | |- exists before reply, [?b; ?c] = _ /\ _ =>
                  exists [b], c; repeat split; reflexivity
              | |- exists before reply, [?a; ?b; ?c] = _ /\ _ =>
                  exists [a; b], c; repeat split; reflexivity
              end ].
  - intros host file a stored e Hf Hp Himg Hsize Hph previous name Hmv Hupd
      Honce.
    set (st := mkExchange [] [] : exchange Doc).
    specialize (Honce st).
    destruct (upload_run attractions host id u file a stored st
                Hf Hp Himg Hsize Hph) as (Hret & Hcalls).
    fold previous name in Hcalls. rewrite Hmv, Hupd in Hcalls.
    destruct (Attractions.attractionPhotoUpload attractions host id u
                (Some (Some file)) st) as [r st'].
    cbn [fst snd] in Hret, Hcalls. subst r.
    destruct Honce as (added & Hlog & before & reply & Hadded & Hreply & _).
    unfold new_calls in Hcalls. rewrite Hlog, drop_app_length in Hcalls.
    rewrite Hadded in Hcalls.
    change [?x; ?y; ?z] with ([x; y] ++ [z])%list in Hcalls.
    apply app_inj_tail in Hcalls as [_ ->]. discriminate Hreply.
Qed.

Lemma handlers_answer_once_witness :
  ~ @answers_once unit
      (Attractions.attractionPhotoUpload
         (read_only ControllerSamples.lake_tour) ControllerSamples.uploads
         "a1" ControllerSamples.publisher
         (Some (Some ControllerSamples.snapshot))).
Proof.
  destruct (@handlers_answer_once unit
              (read_only ControllerSamples.lake_tour)
              (stocking ControllerSamples.wine_flight) "a1"
              ControllerSamples.publisher None None) as (_ & Hupload).
  apply (Hupload ControllerSamples.uploads ControllerSamples.snapshot
           ControllerSamples.lake_tour ["no-photo.jpg"]
           (Effects.DbError "read only")).
  - reflexivity.
  - left. reflexivity.
  - reflexivity.
  - intros n Hn. injection Hn as <-. vm_compute. discriminate.
  - reflexivity.
  - reflexivity.
  - reflexivity.
Defined.

(** X12. The handlers that change a document on behalf of a user write
    if and only if the document they look up exists and the user is its
    owner or an administrator: [updateAttraction], [deleteAttraction]
    and [addProduct], which look up the attraction, and [updateProduct]
    and [deleteProduct], which look up the product. *)
Theorem writes_need_owner_or_admin {Doc : Type}
    (attractions : DocModel Attraction) (products : DocModel Product)
    (id : string) (u : User) (st : exchange Doc) :
  let permitted (owner : string) := owner = user_id u \/ role u = "admin" in
  let on_attraction (run : (exn + unit) * exchange Doc) :=
    writes st (snd run) <> []
    <-> exists a, findById attractions id = inr (Some a) /\ permitted (user a) in
  let on_product (run : (exn + unit) * exchange Doc) :=
    writes st (snd run) <> []
    <-> exists p, findById products id = inr (Some p)
                  /\ permitted (product_user p) in
  on_attraction (Attractions.updateAttraction attractions id u st)
  /\ on_attraction (Attractions.deleteAttraction attractions id u st)
  /\ on_attraction (ProductsGuarded.addProduct attractions products id u st)
  /\ on_product (ProductsGuarded.updateProduct products id u st)
  /\ on_product (ProductsGuarded.deleteProduct products id u st).
Proof.
  cbv zeta.
  unfold writes, Attractions.updateAttraction, Attractions.deleteAttraction,
    ProductsGuarded.addProduct, ProductsGuarded.updateProduct,
    ProductsGuarded.deleteProduct.
  repeat split;
    handler_cases; cbn [List.filter is_write];
    try match goal with
    | H : not_permitted _ _ = false |- _ => apply not_permitted_false in H
    end;
    try (intros _; eexists; split; [reflexivity | assumption]);
    try discriminate;
    try (intros Hw; exfalso; apply Hw; reflexivity);
    intros (d & Heq & Hperm); try discriminate Heq;
    injection Heq as <-; apply not_permitted_false in Hperm; congruence.
Qed.

(** X13. [createAttraction].  The body handed to [create] always names
    the authenticated user as [user], whatever the request said, and
    leaves every other property of the request body as it was.  A
    document is created if and only if the lookup of the user's
    attraction resolved and found none or the user is an administrator;
    another user who has published one gets the 400 error. *)
Theorem createAttraction_one_per_publisher {Doc : Type}
    (m : DocModel Attraction) (u : User) (st : exchange Doc) :
  let mine := [("user", JSON.JStr (user_id u))] in
  let run := Attractions.createAttraction m u st in
  (forall body, In body (created st (snd run)) ->
     JSON.get_prop "user" body = Some (JSON.JStr (user_id u))
     /\ forall k, k <> "user" ->
          JSON.get_prop k body = JSON.get_prop k (req_body st))
  /\ (created st (snd run) <> []
      <-> exists published,
            findOne m mine = inr published
            /\ (published = None \/ role u = "admin"))
  /\ (forall p, findOne m mine = inr (Some p) -> role u <> "admin" ->
        new_calls st (snd run)
        = [FindOne Attractions mine;
           NextError (mkErrorResponse
                        ("The user with ID " ++ user_id u
                         ++ " has already published one Attraction")
                        (Some 400%Z))]).
Proof.
  cbv zeta. unfold created, Attractions.createAttraction, found.
  assert (Hbody : forall body : JSON.object,
            In body [JSON.set_prop "user" (JSON.JStr (user_id u)) (req_body st)] ->
            JSON.get_prop "user" body = Some (JSON.JStr (user_id u))
            /\ forall k, k <> "user" ->
                 JSON.get_prop k body = JSON.get_prop k (req_body st)).
  { intros body [<-|[]]. split.
    - rewrite get_set_prop. reflexivity.
    - intros k Hk. rewrite get_set_prop.
      destruct (String.eqb_spec k "user"); [contradiction | reflexivity]. }
  split; [|split].
  - handler_cases; cbn [omap list_omap]; first [exact Hbody | intros ? []].
  - handler_cases; cbn [omap list_omap];
      repeat match goal with
      | H : _ && _ = _ |- _ => cbn in H
      | H : negb (String.eqb ?a ?b) = _ |- _ =>
          destruct (String.eqb_spec a b); cbn in H; try discriminate H; clear H
      end;
      (split;
       [ first [ intros _; eexists; split; [reflexivity|]; tauto
               | intros Hc; exfalso; apply Hc; reflexivity ]
       | first [ discriminate
               | intros (d & Heq & Hor); try discriminate Heq;
                 injection Heq as <-; destruct Hor; congruence ] ]).
  - intros p Hp Hrole. rewrite Hp.
    destruct (String.eqb_spec (role u) "admin"); [contradiction|].
    handler_cases; cbn in *; try discriminate; reflexivity.
Qed.

(** X14. The body that [addProduct] hands to [create].  In both texts of
    the products controller its [attraction] is the route parameter,
    whatever the request said.  The later text also sets [user] to the
    authenticated user and keeps every other property; the earlier text
    keeps every other property, [user] included, and creates whenever
    the attraction exists, whoever asks. *)
Theorem addProduct_body {Doc : Type} (attractions : DocModel Attraction)
    (products : DocModel Product) (attractionId : string) (u : User)
    (st : exchange Doc) :
  let earlier := Products.addProduct attractions products attractionId st in
  let later :=
    ProductsGuarded.addProduct attractions products attractionId u st in
  (forall body, In body (created st (snd later)) ->
     JSON.get_prop "attraction" body = Some (JSON.JStr attractionId)
     /\ JSON.get_prop "user" body = Some (JSON.JStr (user_id u))
     /\ forall k, k <> "attraction" -> k <> "user" ->
          JSON.get_prop k body = JSON.get_prop k (req_body st))
  /\ (forall body, In body (created st (snd earlier)) ->
        JSON.get_prop "attraction" body = Some (JSON.JStr attractionId)
        /\ forall k, k <> "attraction" ->
             JSON.get_prop k body = JSON.get_prop k (req_body st))
  /\ (created st (snd earlier) <> []
      <-> exists a, findById attractions attractionId = inr (Some a)).
Proof.
  cbv zeta. unfold created, Products.addProduct, ProductsGuarded.addProduct.
  split; [|split].
  - handler_cases; cbn [omap list_omap]; try solve [intros ? []];
      intros body [<-|[]]; rewrite !get_set_prop; cbn;
      (split; [reflexivity|]; split; [reflexivity|]);
      intros k Ha Hu; rewrite !get_set_prop;
      (destruct (String.eqb_spec k "user"); [contradiction|]);
      (destruct (String.eqb_spec k "attraction"); [contradiction|]);
      reflexivity.
  - handler_cases; cbn [omap list_omap]; try solve [intros ? []];
      intros body [<-|[]]; rewrite !get_set_prop; cbn;
      (split; [reflexivity|]);
      intros k Ha; rewrite !get_set_prop;
      (destruct (String.eqb_spec k "attraction"); [contradiction|]);
      reflexivity.
  - handler_cases; cbn [omap list_omap];
      (split;
       [ first [ intros _; eexists; reflexivity
               | intros Hc; exfalso; apply Hc; reflexivity ]
       | first [ discriminate | intros (d & Heq); discriminate Heq ] ]).
Qed.

(** X15. What the two delete handlers do once the document is found and
    the user may delete it.  [deleteAttraction] starts the removal and
    sends its success response without waiting for it, whatever the
    removal comes to.  [deleteProduct] waits: it sends the success
    response when the removal has resolved, and when the removal is
    rejected it is rejected with the same reason and sends nothing. *)
Theorem delete_waits_for_products_only {Doc : Type}
    (attractions : DocModel Attraction) (products : DocModel Product)
    (id : string) (u : User) (st : exchange Doc) :
  (forall a, findById attractions id = inr (Some a) ->
     user a = user_id u \/ role u = "admin" ->
     let run := Attractions.deleteAttraction attractions id u st in
     fst run = inr tt
     /\ new_calls st (snd run)
        = [FindById Attractions id; Remove Attractions (_id a);
           Send 200 (Json true None EmptyObject)])
  /\ (forall p, findById products id = inr (Some p) ->
        product_user p = user_id u \/ role u = "admin" ->
        let run := ProductsGuarded.deleteProduct products id u st in
        match remove products (product_id p) with
        | inl e =>
            fst run = inl e
            /\ new_calls st (snd run)
               = [FindById Products id; Remove Products (product_id p)]
        | inr _ =>
            fst run = inr tt
            /\ new_calls st (snd run)
               = [FindById Products id; Remove Products (product_id p);
                  Send 200 (Json true None EmptyArray)]
        end).
Proof.
  split.
  - intros a Hfound Hperm. cbv zeta.
    unfold Attractions.deleteAttraction. rewrite Hfound.
    apply not_permitted_false in Hperm.
    handler_cases; try congruence; split; reflexivity.
  - intros p Hfound Hperm. cbv zeta.
    unfold ProductsGuarded.deleteProduct. rewrite Hfound.
    apply not_permitted_false in Hperm.
    handler_cases; try congruence; split; reflexivity.
Qed.

Lemma delete_waits_for_products_only_witness :
  fst (ProductsGuarded.deleteProduct (unreachable_removal ControllerSamples.wine_flight)
         "p1" ControllerSamples.publisher ControllerSamples.posted)
  = inl (Effects.DbError "unreachable").
Proof.
  destruct (delete_waits_for_products_only
              (holding ControllerSamples.lake_tour)
              (unreachable_removal ControllerSamples.wine_flight)
              "p1" ControllerSamples.publisher ControllerSamples.posted)
    as (_ & Hproduct).
  specialize (Hproduct ControllerSamples.wine_flight eq_refl
                (or_introl eq_refl)).
  destruct Hproduct as (Hrejected & _). exact Hrejected.
Defined.

(** X16. Reading products.  In the later text [getProducts] with a
    non-empty [attractionId] asks for the products of that attraction
    and reports as [count] the number of documents it sends; without
    one, or with an empty one, it makes no database call and sends
    [res.advancedResults] as it is.  In the earlier text it always makes
    one query and [count] is again the number of documents sent.
    [getProduct], the same in both texts, hands an error without a
    status code to [next] when the product is missing. *)
Theorem products_are_read {Doc : Type} (products : DocModel Product)
    (attractionId : option string) (id : string)
    (advanced : option (@Effects.Response Doc)) (st : exchange Doc) :
  let earlier := Products.getProducts products attractionId st in
  let later := ProductsGuarded.getProducts products attractionId advanced st in
  (forall a l, attractionId = Some a -> a <> "" ->
     find products [("attraction", JSON.JStr a)] = inr l ->
     new_calls st (snd later)
     = [Find Products [("attraction", JSON.JStr a)];
        Send 200 (Json true (Some (List.length l)) (ManyProducts l))])
  /\ (attractionId = None \/ attractionId = Some "" ->
      new_calls st (snd later) = [Send 200 (Advanced advanced)])
  /\ (forall status ok total l,
        In (Send status (Json ok total (ManyProducts l)))
           (new_calls st (snd earlier) ++ new_calls st (snd later)) ->
        status = 200%Z /\ ok = true /\ total = Some (List.length l))
  /\ (List.length (List.filter (fun c => negb (is_reply c))
                     (new_calls st (snd earlier))) = 1%nat)
  /\ (findById products id = inr None ->
      new_calls st (snd (Products.getProduct products id st))
      = [FindByIdPopulated Products id "attraction" "name slug";
         NextError (mkErrorResponse ("No course with an ID of " ++ id) None)]
      /\ ProductsGuarded.getProduct products id st
         = Products.getProduct products id st).
Proof.
  cbv zeta.
  unfold Products.getProducts, ProductsGuarded.getProducts,
    Products.getProduct, ProductsGuarded.getProduct.
  split; [|split; [|split; [|split]]].
  - intros a l -> Ha Hfind. cbn [option_map default from_option Datatypes.id Js.truthy].
    destruct (String.eqb_spec a ""); [contradiction|]. cbn [negb].
    rewrite Hfind. handler_cases. reflexivity.
  - intros [->| ->]; cbn; handler_cases; reflexivity.
  - intros status ok total l.
    destruct attractionId as [a|]; cbn [option_map default from_option Datatypes.id Js.truthy];
      [destruct (String.eqb a ""); cbn [negb]|];
      handler_cases; cbn [app In];
      intros Hin;
      repeat match goal with
      | H : _ \/ _ |- _ => destruct H
      | H : False |- _ => destruct H
      | H : @eq (call _) _ _ |- _ => first [discriminate H | injection H as <- <- <- <-]
      end; repeat split; reflexivity.
  - destruct attractionId as [a|]; cbn [option_map default from_option Datatypes.id Js.truthy];
      [destruct (String.eqb a ""); cbn [negb]|];
      handler_cases; reflexivity.
  - intros Hnone. rewrite Hnone. handler_cases. split; reflexivity.
Qed.

(** X17. The route [GET /] of the attractions router, the middleware
    followed by [getAttractions].  Every query it executes populates
    [products].  When the middleware completes, the client is sent,
    with status 200 and once, exactly the object the middleware stored,
    and that object reports success and as [count] the number of
    documents in its [data].  When the middleware is rejected the
    handler does not run: nothing is sent and nothing is stored. *)
Theorem attractions_route_sends_stored_results {Doc : Type}
    (model : Model Doc) (req_query : loc) (w : world Doc) (o : object)
    (st : exchange Doc) :
  heap w !! req_query = Some o ->
  let '(r, w', st') := Routes.get_attractions model req_query w st in
  Forall (fun q => q_populate q = Some "products") (executed w w')
  /\ match r with
     | inr _ =>
         exists stored,
           res_advancedResults w' = Some stored
           /\ new_calls st st' = [Send 200 (Advanced (Some stored))]
           /\ success stored = true
           /\ count stored = List.length (data stored)
           /\ List.last (new_events w w') (CountDocuments None) = Next
     | inl _ =>
         st' = st
         /\ res_advancedResults w' = res_advancedResults w
         /\ ~ In Next (new_events w w')
     end.
Proof.
  intros Hrq. unfold Routes.get_attractions. run_cases Hrq.
  - split; [constructor|]. repeat split. intros [].
  - split; [constructor|]. repeat split. intros [].
  - split; [constructor|]. repeat split. intros [].
  - split; [constructor|]. repeat split. intros [H|[]]. discriminate H.
  - split; [repeat constructor|]. repeat split.
    intros [H|[H|[]]]; discriminate H.
  - unfold Attractions.getAttractions. handler_cases.
    unfold executed. rewrite !new_events_app.
    cbn [omap list_omap res_advancedResults].
    split; [repeat constructor|].
    eexists. split; [reflexivity|]. rewrite ?new_calls_app.
    repeat split.
Qed.

Lemma attractions_route_sends_stored_results_witness :
  exists stored,
    new_calls ControllerSamples.browsing
      (snd (Routes.get_attractions (memory_model Samples.places)
              request_query (incoming Samples.second_page)
              ControllerSamples.browsing))
    = [Send 200 (Advanced (Some stored))]
    /\ count stored = List.length (data stored).
Proof.
  pose proof (attractions_route_sends_stored_results
                (memory_model Samples.places) request_query
                (incoming Samples.second_page) Samples.second_page
                ControllerSamples.browsing eq_refl) as H.
  destruct (Routes.get_attractions _ _ _ _) as [[r w'] st'] eqn:Hrun.
  assert (Hr : r = inr tt).
  { apply (f_equal (fun x => fst (fst x))) in Hrun. symmetry. exact Hrun. }
  subst r. destruct H as (_ & stored & _ & Hsent & _ & Hcount & _).
  exists stored. split; [exact Hsent | exact Hcount].
Defined.

(** X19. [attractionPhotoUpload] moves a file only when every check has
    passed: the attraction exists, the user is its owner or an
    administrator, one file was uploaded whose type starts with
    [image] and whose size does not exceed the limit, if the limit is a
    number, and the attraction has a [photos] array.  The database is
    written to only after a file was moved, and only when the move
    reported no error.  On an attraction without [photos] the handler is
    rejected with a TypeError before anything is moved, so the fallback
    to an empty list is never taken. *)
Theorem photo_upload_checks {Doc : Type} (m : DocModel Attraction)
    (host : Host) (id : string) (u : User) (files : option (option File))
    (st : exchange Doc) :
  let run := Attractions.attractionPhotoUpload m host id u files st in
  let passed (a : Attraction) (file : File) :=
    findById m id = inr (Some a)
    /\ (user a = user_id u \/ role u = "admin")
    /\ files = Some (Some file)
    /\ String.prefix "image" (file_mimetype file) = true
    /\ (forall n, MAX_FILE_UPLOAD host = Some n -> (file_size file <= n)%Z) in
  (moved st (snd run) <> []
   <-> exists a file stored, passed a file /\ photos a = Some stored)
  /\ (writes st (snd run) <> [] ->
      exists target, moved st (snd run) = [target] /\ mv host target = None)
  /\ (forall a file, passed a file -> photos a = None ->
        fst run = inl Effects.TypeError
        /\ new_calls st (snd run) = [FindById Attractions id]).
Proof.
  cbv zeta. unfold moved, writes, Attractions.attractionPhotoUpload.
  assert (Hwithin : forall size, exceeds size (MAX_FILE_UPLOAD host) = false ->
            forall n, MAX_FILE_UPLOAD host = Some n -> (size <= n)%Z).
  { intros size. unfold exceeds. destruct (MAX_FILE_UPLOAD host) as [n|].
    - rewrite Z.ltb_ge. intros H k [= <-]. exact H.
    - intros _ k Hk. discriminate Hk. }
  assert (Hskip : forall size,
            (forall n, MAX_FILE_UPLOAD host = Some n -> (size <= n)%Z) ->
            exceeds size (MAX_FILE_UPLOAD host) = false).
  { intros size. unfold exceeds. destruct (MAX_FILE_UPLOAD host) as [n|].
    - rewrite Z.ltb_ge. auto.
    - reflexivity. }
  split; [|split].
  - handler_cases; cbn [omap list_omap]; split.
    all: try (intros Hm; exfalso; apply Hm; reflexivity).
    all: try discriminate.
    all: try match goal with
         | Hph : photos ?a = Some ?l, Hfi : _ = Some (Some ?f) |- _ =>
             intros _; exists a, f, l;
             repeat match goal with
             | H : not_permitted _ _ = false |- _ =>
                 apply not_permitted_false in H
             | H : negb _ = false |- _ => apply negb_false_iff in H
             end;
             repeat split; auto; fail
         end.
    all: intros (a' & file' & stored' & (Hf & Hp & Hfiles & Himg & Hsize) & Hph);
      exfalso;
      try discriminate Hf; try discriminate Hfiles;
      try (injection Hf as <-); try (injection Hfiles as <-);
      apply not_permitted_false in Hp; apply Hskip in Hsize;
      try congruence;
      rewrite Himg in *; discriminate.
  - handler_cases; cbn [omap list_omap List.filter is_write];
      try (intros Hw; exfalso; apply Hw; reflexivity);
      intros _; eexists; split; first [reflexivity | assumption].
  - intros a file (Hf & Hp & -> & Himg & Hsize) Hph.
    rewrite Hf. apply not_permitted_false in Hp. apply Hskip in Hsize.
    handler_cases; try congruence;
      try (rewrite Himg in *; discriminate);
      split; reflexivity.
Qed.

(** X20. What [attractionPhotoUpload] does once every check has
    passed.  The file is numbered one more than the photos kept, where
    the list that holds only the placeholder [no-photo.jpg] counts as
    empty, and it is moved to the upload folder under the name
    [photo_<id>_<number><extension>].  If the move reports an error the
    500 error goes to [next] and the database is not written to.
    Otherwise the photos kept, followed by the new name, are written
    without options, and the name is sent with status 200; if that
    write is rejected nothing is ever sent and [next] is never called.
    The handler itself returns in every case. *)
Theorem photo_upload_names_the_file {Doc : Type} (m : DocModel Attraction)
    (host : Host) (id : string) (u : User) (file : File) (a : Attraction)
    (stored : list string) (st : exchange Doc) :
  findById m id = inr (Some a) ->
  user a = user_id u \/ role u = "admin" ->
  String.prefix "image" (file_mimetype file) = true ->
  (forall n, MAX_FILE_UPLOAD host = Some n -> (file_size file <= n)%Z) ->
  photos a = Some stored ->
  let run :=
    Attractions.attractionPhotoUpload m host id u (Some (Some file)) st in
  let previous := if decide (stored = ["no-photo.jpg"]) then [] else stored in
  let name := "photo_" ++ _id a ++ "_" ++ decimal (List.length previous + 1)
              ++ path_ext host (file_name file) in
  let target := FILE_UPLOAD_PATH host ++ "/" ++ name in
  let write := FindByIdAndUpdate Attractions id
                 (SetPhotos (previous ++ [name])) None in
  fst run = inr tt
  /\ new_calls st (snd run)
     = FindById Attractions id :: Move target ::
       match mv host target with
       | Some _ =>
           [NextError (mkErrorResponse "Problem with file upload" (Some 500%Z))]
       | None =>
           match findByIdAndUpdate m id (SetPhotos (previous ++ [name])) None with
           | inl _ => [write]
           | inr _ => [write; Send 200 (Json true None (FileName name))]
           end
       end.
Proof.
  intros Hf Hp Himg Hsize Hph.
  exact (upload_run m host id u file a stored st Hf Hp Himg Hsize Hph).
Qed.

Lemma photo_upload_names_the_file_witness :
  new_calls ControllerSamples.posted
    (snd (Attractions.attractionPhotoUpload
            (holding ControllerSamples.lake_tour) ControllerSamples.uploads
            "a1" ControllerSamples.publisher
            (Some (Some ControllerSamples.snapshot)) ControllerSamples.posted))
  = [FindById Attractions "a1";
     Move "./public/uploads/photo_a1_1.jpg";
     FindByIdAndUpdate Attractions "a1" (SetPhotos ["photo_a1_1.jpg"]) None;
     Send 200 (Json true None (FileName "photo_a1_1.jpg"))].
Proof.
  destruct (photo_upload_names_the_file
              (holding ControllerSamples.lake_tour) ControllerSamples.uploads
              "a1" ControllerSamples.publisher ControllerSamples.snapshot
              ControllerSamples.lake_tour ["no-photo.jpg"]
              ControllerSamples.posted eq_refl (or_introl eq_refl) eq_refl)
    as (_ & Hcalls).
  - intros n [= <-]. vm_compute. discriminate.
  - reflexivity.
  - exact Hcalls.
Defined.
